(** * LLDP agent: TLV codec, LLDPDU assembler and agent loop

    A shallow embedding of the Python package [lldp] (files [lldpdu.py],
    [agent.py] and [tlv/*.py]) together with the properties its
    specification states about it.

    Conventions.  A Python [int] is a [Z]; [bytes]/[bytearray] values are
    lists of [Byte.byte]; a [str] is the list of its Unicode code points;
    a [float] is an IEEE 754 binary64 number with its rounding.
    A Python call that may raise is a function into [res]; a method that
    mutates [self] is a function of the state monad [M] over the object. *)

From Stdlib Require Import ZArith List Lia Bool String.
From Stdlib.Strings Require Byte.
From Stdlib.Floats Require SpecFloat.
Import ListNotations.
Open Scope Z_scope.

Set Implicit Arguments.

(** ** Python values and exceptions *)

Module Py.

(** The exception classes the modelled code can raise.  In Python,
    [UnicodeDecodeError] and [UnicodeEncodeError] are subclasses of
    [ValueError]; none of the modelled code catches either. *)
Inductive exn : Set :=
| ValueError
| IndexError
| TypeError
| OverflowError
| StructError
| UnicodeDecodeError
| UnicodeEncodeError
| AssertionError.

Inductive res (A : Type) : Type :=
| Ok (a : A)
| Raise (e : exn).
Arguments Raise {A} e.

Definition bind {A B} (m : res A) (k : A -> res B) : res B :=
  match m with
  | Ok a => k a
  | Raise e => Raise e
  end.

Definition is_ok {A} (m : res A) : bool :=
  match m with Ok _ => true | Raise _ => false end.

Definition raises {A} (m : res A) : Prop := exists e, m = Raise e.

Definition byte := Byte.byte.
Definition bytes := list byte.
(** A [str] as the sequence of its code points. *)
Definition str := list Z.

Definition b2z (b : byte) : Z := Z.of_N (Byte.to_N b).

(** The octet of an integer (used only on values in [0..255]; larger
    values wrap as a C [unsigned char] does). *)
Definition z2b (z : Z) : byte :=
  match Byte.of_N (Z.to_N (z mod 256)) with
  | Some b => b
  | None => Byte.x00
  end.

Definition len {A} (l : list A) : Z := Z.of_nat (List.length l).

(** [data[i]]: a negative index counts from the end, an index out of
    range raises [IndexError]. *)
Definition getitem (data : bytes) (i : Z) : res Z :=
  let j := if i <? 0 then i + len data else i in
  if j <? 0 then Raise IndexError
  else match nth_error data (Z.to_nat j) with
       | Some b => Ok (b2z b)
       | None => Raise IndexError
       end.

(** The bound of a slice: negative counts from the end, then clamped. *)
Definition clamp {A} (l : list A) (i : Z) : nat :=
  let j := if i <? 0 then i + len l else i in
  Z.to_nat (Z.min (Z.max j 0) (len l)).

(** [data[a:b]] *)
Definition slice {A} (l : list A) (a b : Z) : list A :=
  skipn (clamp l a) (firstn (clamp l b) l).

(** The [n] low octets of [v], most significant first. *)
Fixpoint be_bytes (n : nat) (v : Z) : bytes :=
  match n with
  | O => []
  | S k => be_bytes k (v / 256) ++ [z2b v]
  end.

(** [v.to_bytes(n, 'big')], unsigned: raises [OverflowError] when the
    value is negative or does not fit into [n] octets. *)
Definition int_to_bytes (v : Z) (n : nat) : res bytes :=
  if (v <? 0) || (2 ^ (8 * Z.of_nat n) <=? v) then Raise OverflowError
  else Ok (be_bytes n v).

(** Big-endian value of an octet string. *)
Definition be_value (bs : bytes) : Z :=
  fold_left (fun acc b => acc * 256 + b2z b) bs 0.

(** [struct.unpack_from(fmt, data, off)[0]] for the unsigned formats
    ["!H"] ([n = 2]) and ["!I"] ([n = 4]): raises [struct.error] when
    fewer than [n] octets are available at the offset.  The offsets of
    the modelled code are never negative. *)
Definition unpack_from (n : nat) (data : bytes) (off : Z) : res Z :=
  if (off <? 0) || (len data <? off + Z.of_nat n) then Raise StructError
  else Ok (be_value (firstn n (skipn (Z.to_nat off) data))).

(** *** UTF-8 *)

Definition is_surrogate (c : Z) : bool := (0xD800 <=? c) && (c <=? 0xDFFF).

(** The UTF-8 octets of one code point; [None] for a surrogate (which the
    strict codec refuses) and for a number that is no code point. *)
Definition utf8_encode_cp (c : Z) : option bytes :=
  if c <? 0 then None
  else if c <? 0x80 then Some [z2b c]
  else if c <? 0x800 then
    Some [z2b (Z.lor 0xC0 (Z.shiftr c 6));
          z2b (Z.lor 0x80 (Z.land c 0x3F))]
  else if c <? 0x10000 then
    if is_surrogate c then None
    else Some [z2b (Z.lor 0xE0 (Z.shiftr c 12));
               z2b (Z.lor 0x80 (Z.land (Z.shiftr c 6) 0x3F));
               z2b (Z.lor 0x80 (Z.land c 0x3F))]
  else if c <? 0x110000 then
    Some [z2b (Z.lor 0xF0 (Z.shiftr c 18));
          z2b (Z.lor 0x80 (Z.land (Z.shiftr c 12) 0x3F));
          z2b (Z.lor 0x80 (Z.land (Z.shiftr c 6) 0x3F));
          z2b (Z.lor 0x80 (Z.land c 0x3F))]
  else None.

(** [bytearray(s, 'utf-8')] / [s.encode('utf-8')] *)
Fixpoint utf8_encode (s : str) : res bytes :=
  match s with
  | [] => Ok []
  | c :: s' =>
      match utf8_encode_cp c with
      | None => Raise UnicodeEncodeError
      | Some bs => bind (utf8_encode s') (fun r => Ok (bs ++ r))
      end
  end.

Definition is_cont (b : Z) : bool := (0x80 <=? b) && (b <=? 0xBF).
Definition in_range (lo hi b : Z) : bool := (lo <=? b) && (b <=? hi).
Definition cont (b : Z) : Z := Z.land b 0x3F.

(** [data.decode('utf-8')], the strict decoder: shortest forms only, no
    surrogates, nothing above U+10FFFF. *)
Fixpoint utf8_decode (data : bytes) : res str :=
  match data with
  | [] => Ok []
  | b0 :: r0 =>
      let x0 := b2z b0 in
      if x0 <? 0x80 then
        bind (utf8_decode r0) (fun s => Ok (x0 :: s))
      else if in_range 0xC2 0xDF x0 then
        match r0 with
        | b1 :: r1 =>
            let x1 := b2z b1 in
            if is_cont x1 then
              bind (utf8_decode r1) (fun s =>
                Ok (Z.lor (Z.shiftl (Z.land x0 0x1F) 6) (cont x1) :: s))
            else Raise UnicodeDecodeError
        | _ => Raise UnicodeDecodeError
        end
      else if in_range 0xE0 0xEF x0 then
        match r0 with
        | b1 :: b2 :: r2 =>
            let x1 := b2z b1 in
            let x2 := b2z b2 in
            if in_range (if x0 =? 0xE0 then 0xA0 else 0x80)
                        (if x0 =? 0xED then 0x9F else 0xBF) x1
               && is_cont x2 then
              bind (utf8_decode r2) (fun s =>
                Ok (Z.lor (Z.shiftl (Z.land x0 0x0F) 12)
                      (Z.lor (Z.shiftl (cont x1) 6) (cont x2)) :: s))
            else Raise UnicodeDecodeError
        | _ => Raise UnicodeDecodeError
        end
      else if in_range 0xF0 0xF4 x0 then
        match r0 with
        | b1 :: b2 :: b3 :: r3 =>
            let x1 := b2z b1 in
            let x2 := b2z b2 in
            let x3 := b2z b3 in
            if in_range (if x0 =? 0xF0 then 0x90 else 0x80)
                        (if x0 =? 0xF4 then 0x8F else 0xBF) x1
               && is_cont x2 && is_cont x3 then
              bind (utf8_decode r3) (fun s =>
                Ok (Z.lor (Z.shiftl (Z.land x0 0x07) 18)
                      (Z.lor (Z.shiftl (cont x1) 12)
                         (Z.lor (Z.shiftl (cont x2) 6) (cont x3))) :: s))
            else Raise UnicodeDecodeError
        | _ => Raise UnicodeDecodeError
        end
      else Raise UnicodeDecodeError
  end.

(** [ipaddress] objects, as their packed octets. *)
Inductive ip : Type :=
| IPv4Address (packed : bytes)
| IPv6Address (packed : bytes).

Definition packed (a : ip) : bytes :=
  match a with IPv4Address p => p | IPv6Address p => p end.

Definition version (a : ip) : Z :=
  match a with IPv4Address _ => 4 | IPv6Address _ => 6 end.

Definition max_prefixlen (a : ip) : Z :=
  match a with IPv4Address _ => 32 | IPv6Address _ => 128 end.

(** [ip_address(b)] on a [bytes] object: four octets make an IPv4
    address, sixteen an IPv6 address, anything else is a [ValueError]. *)
Definition ip_address (b : bytes) : res ip :=
  if len b =? 4 then Ok (IPv4Address b)
  else if len b =? 16 then Ok (IPv6Address b)
  else Raise ValueError.

(** *** [float]

    CPython's [float] is the IEEE 754 binary64 format (53 bits of
    precision, round to nearest even): [SpecFloat] with [prec = 53] and
    [emax = 1024]. *)
Definition float : Type := SpecFloat.spec_float.

(** [float(n)] for an [int] (below 2^1024 in magnitude, where Python
    raises no [OverflowError]): the nearest float. *)
Definition float_of_int (n : Z) : float :=
  SpecFloat.binary_normalize 53 1024 n 0 false.

(** [a - b] *)
Definition float_sub (a b : float) : float := SpecFloat.SFsub 53 1024 a b.

(** [a > b]: false when the two do not compare (a NaN). *)
Definition float_gt (a b : float) : bool := SpecFloat.SFltb b a.

End Py.

Import Py.

Declare Scope py_scope.
Notation "x <- m ;; k" := (bind m (fun x => k))
  (at level 61, m at next level, right associativity) : py_scope.
Notation "m ;;; k" := (bind m (fun _ => k))
  (at level 61, right associativity) : py_scope.
Open Scope py_scope.

(** ** TLV records ([lldp/tlv]) *)

(** Modelled from the spec: the enumeration [TLV.Type] of the base class
    in [lldp/tlv/__init__.py], which is not among the sources; the ten type
    tags of section 3 with their wire values. *)
Module Type_.
Definition END_OF_LLDPDU : Z := 0.
Definition CHASSIS_ID : Z := 1.
Definition PORT_ID : Z := 2.
Definition TTL : Z := 3.
Definition PORT_DESCRIPTION : Z := 4.
Definition SYSTEM_NAME : Z := 5.
Definition SYSTEM_DESCRIPTION : Z := 6.
Definition SYSTEM_CAPABILITIES : Z := 7.
Definition MANAGEMENT_ADDRESS : Z := 8.
Definition ORGANIZATIONALLY_SPECIFIC : Z := 127.
End Type_.

(** [ChassisIdTLV.Subtype] *)
Inductive Subtype : Set :=
| CHASSIS_COMPONENT
| INTERFACE_ALIAS
| PORT_COMPONENT
| MAC_ADDRESS
| NETWORK_ADDRESS
| INTERFACE_NAME
| LOCAL.

Definition Subtype_value (s : Subtype) : Z :=
  match s with
  | CHASSIS_COMPONENT => 1
  | INTERFACE_ALIAS => 2
  | PORT_COMPONENT => 3
  | MAC_ADDRESS => 4
  | NETWORK_ADDRESS => 5
  | INTERFACE_NAME => 6
  | LOCAL => 7
  end.

(** [ChassisIdTLV.Subtype(v)]: the member with value [v], or [ValueError]. *)
Definition Subtype_of (v : Z) : res Subtype :=
  match v with
  | 1 => Ok CHASSIS_COMPONENT
  | 2 => Ok INTERFACE_ALIAS
  | 3 => Ok PORT_COMPONENT
  | 4 => Ok MAC_ADDRESS
  | 5 => Ok NETWORK_ADDRESS
  | 6 => Ok INTERFACE_NAME
  | 7 => Ok LOCAL
  | _ => Raise ValueError
  end.

(** [ManagementAddressTLV.IFNumberingSubtype] *)
Inductive IFNumberingSubtype : Set :=
| UNKNOWN
| IF_INDEX
| SYSTEM_PORT.

Definition IFNumberingSubtype_value (s : IFNumberingSubtype) : Z :=
  match s with UNKNOWN => 1 | IF_INDEX => 2 | SYSTEM_PORT => 3 end.

Definition IFNumberingSubtype_of (v : Z) : res IFNumberingSubtype :=
  match v with
  | 1 => Ok UNKNOWN
  | 2 => Ok IF_INDEX
  | 3 => Ok SYSTEM_PORT
  | _ => Raise ValueError
  end.

(** The identifier of a Chassis-ID or Port-ID: [bytes], an [ipaddress]
    object or a [str], told apart by [isinstance] in the constructor. *)
Inductive idval : Type :=
| IdBytes (b : bytes)
| IdIP (a : ip)
| IdStr (s : str).

(** The class of a TLV object with the attributes its constructor sets
    (besides [type] and [bytes]). *)
Inductive attrs : Type :=
| EndOfLLDPDU
| ChassisId (subtype : Subtype) (value : idval)
| PortId (subtype : Subtype) (value : idval)
| TTL (value : Z)
| PortDescription (value : str)
| SystemName (value : str)
| SystemDescription (value : str)
| SystemCapabilities (value : Z)
| ManagementAddress (value : ip) (ifnum : Z) (subtype : IFNumberingSubtype)
                    (oid : option bytes)
| OrganizationallySpecific (oui subtype value : bytes).

(** A TLV object: its class and attributes, and the payload octets
    [self.bytes] computed by the constructor. *)
Record TLV : Type := mkTLV { tlv_attrs : attrs; tlv_bytes : bytes }.

(** [self.type]: every constructor sets it to the tag of its class. *)
Definition tlv_type (t : TLV) : Z :=
  match tlv_attrs t with
  | EndOfLLDPDU => Type_.END_OF_LLDPDU
  | ChassisId _ _ => Type_.CHASSIS_ID
  | PortId _ _ => Type_.PORT_ID
  | TTL _ => Type_.TTL
  | PortDescription _ => Type_.PORT_DESCRIPTION
  | SystemName _ => Type_.SYSTEM_NAME
  | SystemDescription _ => Type_.SYSTEM_DESCRIPTION
  | SystemCapabilities _ => Type_.SYSTEM_CAPABILITIES
  | ManagementAddress _ _ _ _ => Type_.MANAGEMENT_ADDRESS
  | OrganizationallySpecific _ _ _ => Type_.ORGANIZATIONALLY_SPECIFIC
  end.

(** Modelled from the spec: [TLV.__len__] of the base class, which is not
    among the sources; the number of payload octets (section 4.1: the
    length counts payload octets only). *)
Definition tlv_len (t : TLV) : Z := len (tlv_bytes t).

(** Modelled from the spec: [TLV.__bytes__] of the base class, which is
    not among the sources; section 4.1: a two-octet prefix that packs the
    type into bits 15..9 and the length into bits 8..0, big-endian,
    followed by the payload.  The spec gives the length the range 0..511
    and says nothing beyond it; here the two octets are those of the
    packed word. *)
Definition TLV_bytes (t : TLV) : bytes :=
  let w := Z.lor (Z.shiftl (tlv_type t) 9) (tlv_len t) in
  z2b (Z.shiftr w 8) :: z2b (Z.land w 0xFF) :: tlv_bytes t.

(** The opening of every [from_bytes] of the TLV classes: at least two
    octets, the expected type tag, and a header length that matches the
    slice.  Returns the header length. *)
Definition check_header (ty : Z) (data : bytes) : res Z :=
  if len data <? 2 then Raise ValueError
  else
    d0 <- getitem data 0 ;;
    let tlv_type := Z.land (Z.shiftr d0 1) 0x7F in
    if negb (tlv_type =? ty) then Raise ValueError
    else
      d1 <- getitem data 1 ;;
      let length := Z.lor (Z.shiftl (Z.land d0 1) 8) d1 in
      if negb (len data =? length + 2) then Raise ValueError
      else Ok length.

(** Modelled from the spec: the class [EndOfLLDPDUTLV], which is not among
    the sources; section 3: type 0, length 0, empty payload. *)
Module EndOfLLDPDUTLV.
Definition init : res TLV := Ok (mkTLV EndOfLLDPDU []).
End EndOfLLDPDUTLV.

(** The body shared by the identifier TLVs: [ChassisIdTLV.__init__] with
    the class to build as a parameter. *)
Definition identifier_init (cls : Subtype -> idval -> attrs)
    (subtype : Subtype) (id : idval) : res TLV :=
  (if Subtype_value subtype =? Subtype_value MAC_ADDRESS then
     n <- match id with
          | IdBytes b => Ok (len b)
          | IdStr s => Ok (len s)
          | IdIP _ => Raise TypeError
          end ;;
     if negb (n =? 6) then Raise ValueError else Ok tt
   else Ok tt) ;;;
  st <- int_to_bytes (Subtype_value subtype) 1 ;;
  match id with
  | IdBytes b => Ok (mkTLV (cls subtype id) (st ++ b))
  | IdIP (IPv4Address p) =>
      f <- int_to_bytes 1 1 ;; Ok (mkTLV (cls subtype id) (st ++ f ++ p))
  | IdIP (IPv6Address p) =>
      f <- int_to_bytes 2 1 ;; Ok (mkTLV (cls subtype id) (st ++ f ++ p))
  | IdStr s =>
      u <- utf8_encode s ;; Ok (mkTLV (cls subtype id) (st ++ u))
  end.

(** The body shared by the identifier TLVs: [ChassisIdTLV.from_bytes]
    with the type tag and the class as parameters. *)
Definition identifier_from_bytes (ty : Z) (cls : Subtype -> idval -> attrs)
    (data : bytes) : res TLV :=
  length <- check_header ty data ;;
  addr_subtype <- getitem data 2 ;;
  if addr_subtype =? Subtype_value MAC_ADDRESS then
    if negb (length =? 7) then Raise ValueError
    else
      st <- Subtype_of addr_subtype ;;
      identifier_init cls st (IdBytes (slice data 3 (len data)))
  else if addr_subtype =? Subtype_value NETWORK_ADDRESS then
    ip_addr <- ip_address (slice data 4 (len data)) ;;
    d3 <- getitem data 3 ;;
    if (d3 =? 1) && negb (version ip_addr =? 4) then Raise ValueError
    else if (d3 =? 2) && negb (version ip_addr =? 6) then Raise ValueError
    else
      st <- Subtype_of addr_subtype ;;
      identifier_init cls st (IdIP ip_addr)
  else
    st <- Subtype_of addr_subtype ;;
    s <- utf8_decode (slice data 3 (len data)) ;;
    identifier_init cls st (IdStr s).

Module ChassisIdTLV.
Definition init : Subtype -> idval -> res TLV := identifier_init ChassisId.
Definition from_bytes : bytes -> res TLV :=
  identifier_from_bytes Type_.CHASSIS_ID ChassisId.
End ChassisIdTLV.

(** Modelled from the spec: the class [PortIdTLV], which is not among the
    sources; section 3: type 2, the same shape as [ChassisId] with the
    subtypes 1..7 of the shared identifier table. *)
Module PortIdTLV.
Definition init : Subtype -> idval -> res TLV := identifier_init PortId.
Definition from_bytes : bytes -> res TLV :=
  identifier_from_bytes Type_.PORT_ID PortId.
End PortIdTLV.

Module TTLTLV.
Definition init (ttl : Z) : res TLV :=
  if ttl >? 65535 then Raise ValueError
  else b <- int_to_bytes ttl 2 ;; Ok (mkTLV (TTL ttl) b).

Definition from_bytes (data : bytes) : res TLV :=
  length <- check_header Type_.TTL data ;;
  if negb (length =? 2) then Raise ValueError
  else v <- unpack_from 2 data 2 ;; init v.
End TTLTLV.

(** The three string TLVs of [string_tlv.py] have the same constructor
    and decoder up to their class and type tag. *)
Definition string_init (cls : str -> attrs) (description : str) : res TLV :=
  b <- utf8_encode description ;; Ok (mkTLV (cls description) b).

Definition string_from_bytes (ty : Z) (cls : str -> attrs) (data : bytes)
  : res TLV :=
  _ <- check_header ty data ;;
  s <- utf8_decode (slice data 2 (len data)) ;;
  string_init cls s.

Module PortDescriptionTLV.
Definition init := string_init PortDescription.
Definition from_bytes :=
  string_from_bytes Type_.PORT_DESCRIPTION PortDescription.
End PortDescriptionTLV.

Module SystemDescriptionTLV.
Definition init := string_init SystemDescription.
Definition from_bytes :=
  string_from_bytes Type_.SYSTEM_DESCRIPTION SystemDescription.
End SystemDescriptionTLV.

Module SystemNameTLV.
Definition init := string_init SystemName.
Definition from_bytes := string_from_bytes Type_.SYSTEM_NAME SystemName.
End SystemNameTLV.

Module SystemCapabilitiesTLV.
Definition init (supported enabled : Z) : res TLV :=
  if negb (Z.lor enabled supported =? supported) then Raise ValueError
  else
    let value := Z.lor enabled (Z.shiftl supported 16) in
    b <- int_to_bytes value 4 ;; Ok (mkTLV (SystemCapabilities value) b).

Definition from_bytes (data : bytes) : res TLV :=
  _ <- check_header Type_.SYSTEM_CAPABILITIES data ;;
  s <- unpack_from 2 data 2 ;;
  e <- unpack_from 2 data 4 ;;
  init s e.

(** The two bitmaps as [__repr__] reads them back from [self.value]. *)
Definition supported_of (value : Z) : Z := Z.land (Z.shiftr value 16) 0xFFFF.
Definition enabled_of (value : Z) : Z := Z.land value 0xFFFF.

Definition supports (value capabilities : Z) : bool :=
  Z.lor capabilities (supported_of value) =? supported_of value.
Definition enabled (value capabilities : Z) : bool :=
  Z.lor capabilities (enabled_of value) =? enabled_of value.
End SystemCapabilitiesTLV.

Module ManagementAddressTLV.
(** [struct.pack("!B", v)] and [struct.pack("!I", v)] *)
Definition pack (n : nat) (v : Z) : res bytes :=
  if (v <? 0) || (2 ^ (8 * Z.of_nat n) <=? v) then Raise StructError
  else Ok (be_bytes n v).

Definition init (address : ip) (interface_number : Z)
    (ifsubtype : IFNumberingSubtype) (oid : option bytes) : res TLV :=
  let addr_subtype :=
    match address with IPv4Address _ => 1 | IPv6Address _ => 2 end in
  al <- pack 1 (max_prefixlen address / 8 + 1) ;;
  af <- pack 1 addr_subtype ;;
  st <- pack 1 (IFNumberingSubtype_value ifsubtype) ;;
  num <- pack 4 interface_number ;;
  tail <- match oid with
          | Some o => l <- int_to_bytes (len o) 1 ;; Ok (l ++ o)
          | None => int_to_bytes 0 1
          end ;;
  Ok (mkTLV (ManagementAddress address interface_number ifsubtype oid)
            (al ++ af ++ packed address ++ st ++ num ++ tail)).

Definition from_bytes (data : bytes) : res TLV :=
  _ <- check_header Type_.MANAGEMENT_ADDRESS data ;;
  d2 <- getitem data 2 ;;
  let addr_len := d2 - 1 in
  oid_len <- getitem data (9 + addr_len) ;;
  address <- ip_address (slice data 4 (4 + addr_len)) ;;
  ifnum <- unpack_from 4 data (5 + addr_len) ;;
  st <- (v <- getitem data (4 + addr_len) ;; IFNumberingSubtype_of v) ;;
  if oid_len =? 0 then init address ifnum st None
  else
    init address ifnum st
         (Some (slice data (10 + addr_len) (10 + addr_len + oid_len))).
End ManagementAddressTLV.

Module OrganizationallySpecificTLV.
(** The [value] argument: a [str] is stored as its UTF-8 octets. *)
Inductive orgvalue : Type :=
| OrgStr (s : str)
| OrgBytes (b : bytes).

Definition init (oui subtype : bytes) (value : orgvalue) : res TLV :=
  v <- match value with
       | OrgStr s => utf8_encode s
       | OrgBytes b => Ok b
       end ;;
  Ok (mkTLV (OrganizationallySpecific oui subtype v)
            (oui ++ subtype ++ v)).

Definition from_bytes (data : bytes) : res TLV :=
  _ <- check_header Type_.ORGANIZATIONALLY_SPECIFIC data ;;
  d5 <- getitem data 5 ;;
  st <- int_to_bytes d5 1 ;;
  init (slice data 2 5) st (OrgBytes (slice data 6 (len data))).
End OrganizationallySpecificTLV.

(** ** The LLDPDU assembler ([lldp/lldpdu.py]) *)

Module LLDPDU.

(** The object: the public counter [length] and the private list
    [__tlvs]. *)
Record t : Type := mk { length : Z; tlvs : list TLV }.

(** A method of the object: the result (or the exception raised) and the
    object as the call leaves it. *)
Definition M (A : Type) : Type := t -> res A * t.

Definition ret {A} (a : A) : M A := fun s => (Ok a, s).
Definition raise {A} (e : exn) : M A := fun s => (Raise e, s).
Definition mbind {A B} (m : M A) (k : A -> M B) : M B :=
  fun s => match m s with
           | (Ok a, s') => k a s'
           | (Raise e, s') => (Raise e, s')
           end.
Definition get : M t := fun s => (Ok s, s).
Definition put (s : t) : M unit := fun _ => (Ok tt, s).

Notation "x <~ m ;; k" := (mbind m (fun x => k))
  (at level 61, m at next level, right associativity).
Notation "m >> k" := (mbind m (fun _ => k))
  (at level 61, right associativity).

(** [isinstance(x, C)] for the four classes [append] asks about. *)
Definition is_end (x : TLV) : bool :=
  match tlv_attrs x with EndOfLLDPDU => true | _ => false end.
Definition is_chassis (x : TLV) : bool :=
  match tlv_attrs x with ChassisId _ _ => true | _ => false end.
Definition is_port (x : TLV) : bool :=
  match tlv_attrs x with PortId _ _ => true | _ => false end.
Definition is_ttl (x : TLV) : bool :=
  match tlv_attrs x with TTL _ => true | _ => false end.

(** [any(isinstance(x, C) for x in self.__tlvs)] *)
Definition any (p : TLV -> bool) (s : t) : bool := existsb p (tlvs s).

Definition when (b : bool) (e : exn) : M unit :=
  if b then raise e else ret tt.

Definition append (tlv : TLV) : M unit :=
  self <~ get ;;
  when (len (TLV_bytes tlv) + length self >? 1500) ValueError >>
  (if any is_end self then raise ValueError
   else if tlv_type tlv =? Type_.CHASSIS_ID then
     when (any is_chassis self) ValueError
   else if tlv_type tlv =? Type_.PORT_ID then
     when (any is_port self || negb (any is_chassis self)) ValueError
   else if tlv_type tlv =? Type_.TTL then
     when (any is_ttl self || negb (any is_chassis self)
           || negb (any is_port self)) ValueError
   else
     when (negb (any is_chassis self) || negb (any is_port self)
           || negb (any is_ttl self)) ValueError) >>
  self <~ get ;;
  put (mk (length self) (tlvs self ++ [tlv])) >>
  self <~ get ;;
  put (mk (length self + len (TLV_bytes tlv)) (tlvs self)).

(** The constructor: [append] for each argument in turn. *)
Fixpoint append_all (l : list TLV) : M unit :=
  match l with
  | [] => ret tt
  | tlv :: l' => append tlv >> append_all l'
  end.

Definition init (l : list TLV) : res t :=
  match append_all l (mk 0 []) with
  | (Ok _, s) => Ok s
  | (Raise e, _) => Raise e
  end.

(** [__bytes__] *)
Definition to_bytes (self : t) : bytes :=
  fold_left (fun res tlv => res ++ TLV_bytes tlv) (tlvs self) [].

Definition complete (self : t) : bool :=
  any is_chassis self && any is_port self && any is_ttl self.

(** One turn of the [while] loop of [from_bytes]: either the loop goes
    on from a new index, or it is left by [break]. *)
Inductive step : Type :=
| Continue (cur_idx : Z) (lldpdu : t)
| Break (lldpdu : t).

(** [lldpdu.append(tlv); cur_idx += tlv_len + 2] *)
Definition take (r : res TLV) (cur_idx tlv_len : Z) (lldpdu : t)
  : res (Z * t) :=
  tlv <- r ;;
  match append tlv lldpdu with
  | (Ok _, l') => Ok (cur_idx + (tlv_len + 2), l')
  | (Raise e, _) => Raise e
  end.

Definition loop_body (data : bytes) (cur_idx : Z) (lldpdu : t) : res step :=
  d0 <- getitem data cur_idx ;;
  let tlv_type := Z.land (Z.shiftr d0 1) 0x7F in
  d1 <- getitem data (cur_idx + 1) ;;
  let tlv_len := Z.lor (Z.shiftl (Z.land d0 1) 8) d1 in
  if cur_idx + tlv_len + 2 >? len data then Raise ValueError
  else
    let piece := slice data cur_idx (cur_idx + tlv_len + 2) in
    let next (r : res TLV) :=
      p <- take r cur_idx tlv_len lldpdu ;;
      Ok (Continue (fst p) (snd p)) in
    if tlv_type =? Type_.END_OF_LLDPDU then
      p <- take EndOfLLDPDUTLV.init cur_idx tlv_len lldpdu ;;
      Ok (Break (snd p))
    else if tlv_type =? Type_.CHASSIS_ID then
      next (ChassisIdTLV.from_bytes piece)
    else if tlv_type =? Type_.PORT_ID then
      next (PortIdTLV.from_bytes piece)
    else if tlv_type =? Type_.TTL then
      next (TTLTLV.from_bytes piece)
    else if tlv_type =? Type_.PORT_DESCRIPTION then
      next (PortDescriptionTLV.from_bytes piece)
    else if tlv_type =? Type_.SYSTEM_NAME then
      next (SystemNameTLV.from_bytes piece)
    else if tlv_type =? Type_.SYSTEM_DESCRIPTION then
      next (SystemDescriptionTLV.from_bytes piece)
    else if tlv_type =? Type_.SYSTEM_CAPABILITIES then
      next (SystemCapabilitiesTLV.from_bytes piece)
    else if tlv_type =? Type_.MANAGEMENT_ADDRESS then
      next (ManagementAddressTLV.from_bytes piece)
    else if tlv_type =? Type_.ORGANIZATIONALLY_SPECIFIC then
      next (OrganizationallySpecificTLV.from_bytes piece)
    else Raise ValueError.

(** The [while cur_idx < len(data) + 1] loop, with a bound on its number
    of turns; [None] when the bound is reached ([loop_total] shows that
    the bound [from_bytes] gives is never reached). *)
Fixpoint loop (fuel : nat) (data : bytes) (cur_idx : Z) (lldpdu : t)
  : option (res t) :=
  match fuel with
  | O => None
  | S fuel' =>
      if cur_idx <? len data + 1 then
        match loop_body data cur_idx lldpdu with
        | Raise e => Some (Raise e)
        | Ok (Break l) => Some (Ok l)
        | Ok (Continue i l) => loop fuel' data i l
        end
      else Some (Ok lldpdu)
  end.

Definition from_bytes (data : bytes) : option (res t) :=
  loop (S (List.length data)) data 0 (mk 0 []).

End LLDPDU.

(** ** The agent ([lldp/agent.py]) *)

Module LLDPAgent.

Fixpoint bytes_eqb (a b : bytes) : bool :=
  match a, b with
  | [], [] => true
  | x :: a', y :: b' => Byte.eqb x y && bytes_eqb a' b'
  | _, _ => false
  end.

(** The agent object.  The interval is a [float] of seconds, as the
    constructor documents it and its default [1.0] is (an [int] given
    instead compares like [float] of it, as long as that is exact). *)
Record t : Type := mk {
  mac_address : bytes;
  interface_name : str;
  announce_interval : float
}.

(** What a run does to the outside: lines written by [print], lines
    handed to the logger (the LLDPDU whose [str] is logged), frames
    handed to [socket.send], and the closing of the socket. *)
Inductive event : Type :=
| Printed (msg : string)
| Logged (lldpdu : LLDPDU.t)
| Sent (frame : bytes)
| Closed.

(** What a turn of the loop gets from the outside: the frame [select]
    and [recv] deliver, if any, and the clock reading taken after it. *)
Record arrival : Type := mkArrival { frame : option bytes; t_now : float }.

Definition lldp_multicast (d : bytes) : bool :=
  bytes_eqb d (map z2b [0x01; 0x80; 0xc2; 0x00; 0x00; 0x00])
  || bytes_eqb d (map z2b [0x01; 0x80; 0xc2; 0x00; 0x00; 0x03])
  || bytes_eqb d (map z2b [0x01; 0x80; 0xc2; 0x00; 0x00; 0x0e]).

(** [struct.unpack_from("6s", data, off)[0]] *)
Definition unpack_6s (data : bytes) (off : Z) : res bytes :=
  if len data <? off + 6 then Raise StructError
  else Ok (firstn 6 (skipn (Z.to_nat off) data)).

(** The ["6s"] field of [struct.pack]: cut or zero-filled to six. *)
Definition pack_6s (b : bytes) : bytes :=
  firstn 6 (b ++ repeat Byte.x00 6).

Definition dst_addr : bytes := map z2b [0x01; 0x80; 0xc2; 0x00; 0x00; 0x0e].
Definition ethertype : Z := 0x88CC.

(** The LLDPDU [announce] builds. *)
Definition announce_lldpdu (self : t) : res LLDPDU.t :=
  chassis_tlv <- ChassisIdTLV.init MAC_ADDRESS (IdBytes (mac_address self)) ;;
  port_tlv <- PortIdTLV.init INTERFACE_NAME (IdStr (interface_name self)) ;;
  ttlive_tlv <- TTLTLV.init 60 ;;
  LLDPDU.init [chassis_tlv; port_tlv; ttlive_tlv].

(** [announce]: the frame handed to [socket.send]. *)
Definition announce (self : t) : res bytes :=
  lldpdu <- announce_lldpdu self ;;
  let payload := LLDPDU.to_bytes lldpdu in
  let eth_header :=
    pack_6s dst_addr ++ pack_6s (mac_address self) ++ be_bytes 2 ethertype in
  Ok (eth_header ++ payload).

(** What the receive branch of a turn comes to. *)
Inductive received_frame : Type :=
| Skipped (msg : string)
| Accepted (lldpdu : LLDPDU.t).

(** The branch [if len(r) > 0] up to [received = True]; the outer
    [option] is the bound of [LLDPDU.from_bytes]. *)
Definition receive (self : t) (data : bytes)
  : option (res received_frame) :=
  match unpack_6s data 0 with
  | Raise e => Some (Raise e)
  | Ok dest_addr =>
      if negb (lldp_multicast dest_addr) then
        Some (Ok (Skipped "Error: invalid destination address!"))
      else
        match unpack_6s data 6 with
        | Raise e => Some (Raise e)
        | Ok src_addr =>
            if bytes_eqb src_addr (mac_address self) then
              Some (Ok (Skipped "Error: message origin is self!"))
            else
              match unpack_from 2 data 12 with
              | Raise e => Some (Raise e)
              | Ok eth_type =>
                  if negb (eth_type =? 0x88CC) then
                    Some (Ok (Skipped "Error: wrong ethertype!"))
                  else
                    match LLDPDU.from_bytes (slice data 14 (len data)) with
                    | None => None
                    | Some (Raise e) => Some (Raise e)
                    | Some (Ok lldpdu) => Some (Ok (Accepted lldpdu))
                    end
              end
        end
  end.

(** The state of the loop between two turns. *)
Record loop_state : Type := mkLoop {
  received : bool;
  t_previous : float;
  out : list event          (* oldest first *)
}.

(** [t_now - t_previous > self.announce_interval], on floats. *)
Definition due (self : t) (now previous : float) : bool :=
  float_gt (float_sub now previous) (announce_interval self).

(** [# Announce if the time is right].  A turn yields the exception that
    left it, if any, and the state it had reached by then. *)
Definition maybe_announce (self : t) (now : float) (st : loop_state)
  : option exn * loop_state :=
  if due self now (t_previous st) then
    match announce self with
    | Raise e => (Some e, st)
    | Ok f => (None, mkLoop (received st) now (out st ++ [Sent f]))
    end
  else (None, st).

(** One turn of the [while] loop.  [continue] goes back to the loop
    test without the announce step. *)
Definition turn (self : t) (a : arrival) (st : loop_state)
  : option (option exn * loop_state) :=
  match frame a with
  | Some data =>
      match receive self data with
      | None => None
      | Some (Raise e) => Some (Some e, st)
      | Some (Ok (Skipped msg)) =>
          Some (None, mkLoop (received st) (t_previous st)
                             (out st ++ [Printed msg]))
      | Some (Ok (Accepted lldpdu)) =>
          Some (maybe_announce self (t_now a)
                  (mkLoop true (t_previous st) (out st ++ [Logged lldpdu])))
      end
  | None => Some (maybe_announce self (t_now a) st)
  end.

(** How a run ends: the loop test failed ([run_once] and a frame was
    accepted), the arrivals ran out (the run is interrupted from the
    keyboard, which [run] swallows), or an exception left [run]. *)
Inductive ending : Type :=
| Finished
| Interrupted
| Escaped (e : exn).

(** [run]: the loop over the arrivals, then the [finally] clause, which
    closes the socket on every way out. *)
Fixpoint run_loop (self : t) (run_once : bool) (arrivals : list arrival)
    (st : loop_state) : option (ending * list event) :=
  if negb run_once || negb (received st) then
    match arrivals with
    | [] => Some (Interrupted, out st ++ [Closed])
    | a :: rest =>
        match turn self a st with
        | None => None
        | Some (Some e, st') => Some (Escaped e, out st' ++ [Closed])
        | Some (None, st') => run_loop self run_once rest st'
        end
    end
  else Some (Finished, out st ++ [Closed]).

Definition run (self : t) (run_once : bool) (t_start : float)
    (arrivals : list arrival) : option (ending * list event) :=
  run_loop self run_once arrivals (mkLoop false t_start []).

End LLDPAgent.

(** ** The sequence interface of [LLDPDU] *)

Module Items.

(** [__len__]: the number of records. *)
Definition len_ (self : LLDPDU.t) : Z := len (LLDPDU.tlvs self).

(** [__getitem__]: the record at position [item] of the private list; a
    negative position counts from the end, a position out of range raises
    [IndexError]. *)
Definition getitem (self : LLDPDU.t) (item : Z) : res TLV :=
  let l := LLDPDU.tlvs self in
  let j := if item <? 0 then item + len l else item in
  if j <? 0 then Raise IndexError
  else match nth_error l (Z.to_nat j) with
       | Some x => Ok x
       | None => Raise IndexError
       end.

End Items.

(** ** The invariants of the specification *)

Module Inv.

Definition types (l : list TLV) : list Z := map tlv_type l.

Definition mandatory_prefix : list Z :=
  [Type_.CHASSIS_ID; Type_.PORT_ID; Type_.TTL].

(** Some record of [l] has the type tag [ty]. *)
Definition has (ty : Z) (l : list TLV) : Prop :=
  exists x, In x l /\ tlv_type x = ty.

(** I1, as [append] keeps it while an LLDPDU grows: the records present
    among the first three are Chassis-ID, Port-ID, TTL, in this order. *)
Definition prefix_ok (l : list TLV) : Prop :=
  firstn 3 (types l) = firstn (List.length l) mandatory_prefix.

(** I1 on a finished LLDPDU: the first three records are exactly
    Chassis-ID, Port-ID, TTL. *)
Definition I1 (l : list TLV) : Prop :=
  firstn 3 (types l) = mandatory_prefix.

Definition count (ty : Z) (l : list TLV) : nat :=
  List.length (filter (fun x => tlv_type x =? ty) l).

(** I2: at most one Chassis-ID, Port-ID, TTL and End. *)
Definition I2 (l : list TLV) : Prop :=
  forall ty, In ty (Type_.END_OF_LLDPDU :: mandatory_prefix) ->
             (count ty l <= 1)%nat.

(** I3: nothing follows an End record. *)
Definition I3 (l : list TLV) : Prop :=
  forall pre x post,
    l = pre ++ x :: post -> tlv_type x = Type_.END_OF_LLDPDU -> post = [].

(** I4: the serialized size is at most 1500 octets. *)
Definition I4 (l : list TLV) : Prop :=
  len (LLDPDU.to_bytes (LLDPDU.mk 0 l)) <= 1500.

(** The objects that can exist: the private list is changed by [append]
    alone. *)
Inductive reachable : LLDPDU.t -> Prop :=
| reach_new : reachable (LLDPDU.mk 0 [])
| reach_append s tlv s' :
    reachable s -> LLDPDU.append tlv s = (Ok tt, s') -> reachable s'.

(** [append] refuses the record exactly when this test is true. *)
Definition refuses (tlv : TLV) (s : LLDPDU.t) : bool :=
  (len (TLV_bytes tlv) + LLDPDU.length s >? 1500)
  || LLDPDU.any LLDPDU.is_end s
  || (if tlv_type tlv =? Type_.CHASSIS_ID then
        LLDPDU.any LLDPDU.is_chassis s
      else if tlv_type tlv =? Type_.PORT_ID then
        LLDPDU.any LLDPDU.is_port s || negb (LLDPDU.any LLDPDU.is_chassis s)
      else if tlv_type tlv =? Type_.TTL then
        LLDPDU.any LLDPDU.is_ttl s || negb (LLDPDU.any LLDPDU.is_chassis s)
        || negb (LLDPDU.any LLDPDU.is_port s)
      else
        negb (LLDPDU.any LLDPDU.is_chassis s) || negb (LLDPDU.any LLDPDU.is_port s)
        || negb (LLDPDU.any LLDPDU.is_ttl s)).

(** The four reasons for [append] to refuse a record. *)

Definition singleton (ty : Z) : Prop :=
  In ty (Type_.END_OF_LLDPDU :: mandatory_prefix).

Definition second_singleton (l : list TLV) (tlv : TLV) : Prop :=
  singleton (tlv_type tlv) /\ has (tlv_type tlv) l.

Definition prefix_complete (l : list TLV) : Prop :=
  has Type_.CHASSIS_ID l /\ has Type_.PORT_ID l /\ has Type_.TTL l.

(** A first record that is no Chassis-ID, a Port-ID before the
    Chassis-ID, a TTL before the Port-ID, and any record that is none of
    the three (the End record among them) before the prefix is
    complete. *)
Definition breaks_prefix_order (l : list TLV) (tlv : TLV) : Prop :=
  (l = [] /\ tlv_type tlv <> Type_.CHASSIS_ID) \/
  (tlv_type tlv = Type_.PORT_ID /\ ~ has Type_.CHASSIS_ID l) \/
  (tlv_type tlv = Type_.TTL /\ ~ has Type_.PORT_ID l) \/
  (~ In (tlv_type tlv) mandatory_prefix /\ ~ prefix_complete l).

Definition after_end (l : list TLV) : Prop := has Type_.END_OF_LLDPDU l.

Definition oversize (l : list TLV) (tlv : TLV) : Prop :=
  len (LLDPDU.to_bytes (LLDPDU.mk 0 (l ++ [tlv]))) > 1500.

(** Well-formed records: built by the constructor of their class from
    arguments of the kinds its documentation allows, with a payload that
    fits the wire format. *)

Definition wf_ip (a : ip) : Prop :=
  match a with
  | IPv4Address p => len p = 4
  | IPv6Address p => len p = 16
  end.

Inductive wf_id : Subtype -> idval -> Prop :=
| wf_mac b : len b = 6 -> wf_id MAC_ADDRESS (IdBytes b)
| wf_net a : wf_ip a -> wf_id NETWORK_ADDRESS (IdIP a)
| wf_text st s b :
    st <> MAC_ADDRESS -> st <> NETWORK_ADDRESS ->
    utf8_encode s = Ok b -> len b <= 255 -> wf_id st (IdStr s).

Inductive wf_tlv : TLV -> Prop :=
| wf_end : wf_tlv (mkTLV EndOfLLDPDU [])
| wf_chassis st v tlv :
    wf_id st v -> ChassisIdTLV.init st v = Ok tlv -> wf_tlv tlv
| wf_port st v tlv :
    wf_id st v -> PortIdTLV.init st v = Ok tlv -> wf_tlv tlv
| wf_ttl v tlv : TTLTLV.init v = Ok tlv -> wf_tlv tlv
| wf_port_description s tlv :
    PortDescriptionTLV.init s = Ok tlv -> tlv_len tlv <= 255 -> wf_tlv tlv
| wf_system_name s tlv :
    SystemNameTLV.init s = Ok tlv -> tlv_len tlv <= 255 -> wf_tlv tlv
| wf_system_description s tlv :
    SystemDescriptionTLV.init s = Ok tlv -> tlv_len tlv <= 255 -> wf_tlv tlv
| wf_capabilities supported enabled tlv :
    SystemCapabilitiesTLV.init supported enabled = Ok tlv -> wf_tlv tlv
| wf_management a n st oid tlv :
    wf_ip a -> oid <> Some [] ->
    ManagementAddressTLV.init a n st oid = Ok tlv -> wf_tlv tlv
| wf_organizationally oui st v tlv :
    len oui = 3 -> len st = 1 ->
    OrganizationallySpecificTLV.init oui st v = Ok tlv ->
    tlv_len tlv <= 511 -> wf_tlv tlv.

(** The decoder of the class of a record. *)
Definition from_bytes_of (tlv : TLV) : bytes -> res TLV :=
  match tlv_attrs tlv with
  | EndOfLLDPDU => fun _ => EndOfLLDPDUTLV.init
  | ChassisId _ _ => ChassisIdTLV.from_bytes
  | PortId _ _ => PortIdTLV.from_bytes
  | TTL _ => TTLTLV.from_bytes
  | PortDescription _ => PortDescriptionTLV.from_bytes
  | SystemName _ => SystemNameTLV.from_bytes
  | SystemDescription _ => SystemDescriptionTLV.from_bytes
  | SystemCapabilities _ => SystemCapabilitiesTLV.from_bytes
  | ManagementAddress _ _ _ _ => ManagementAddressTLV.from_bytes
  | OrganizationallySpecific _ _ _ => OrganizationallySpecificTLV.from_bytes
  end.

End Inv.

(** ** The records of scenario S1 *)

Module Scenario.

Definition local_mac : bytes := map z2b [0x02; 0x04; 0xdf; 0x88; 0xa2; 0xb4].

(** ["eth0"] *)
Definition eth0 : str := [0x65; 0x74; 0x68; 0x30].

(** The agent of the scenarios, with the default interval [1.0]. *)
Definition agent : LLDPAgent.t := LLDPAgent.mk local_mac eth0 (float_of_int 1).

Definition chassis_tlv : TLV :=
  mkTLV (ChassisId MAC_ADDRESS (IdBytes local_mac)) (z2b 4 :: local_mac).

Definition port_tlv : TLV :=
  mkTLV (PortId INTERFACE_NAME (IdStr eth0))
        (map z2b [0x06; 0x65; 0x74; 0x68; 0x30]).

Definition ttl_tlv : TLV := mkTLV (TTL 60) (map z2b [0x00; 0x3c]).

Definition end_tlv : TLV := mkTLV EndOfLLDPDU [].

(** The LLDPDU of the scenario, as three calls of [append] leave it. *)
Definition lldpdu : LLDPDU.t := LLDPDU.mk 20 [chassis_tlv; port_tlv; ttl_tlv].

(** Its encoding. *)
Definition payload : bytes :=
  map z2b [0x02; 0x07; 0x04; 0x02; 0x04; 0xdf; 0x88; 0xa2; 0xb4;
           0x04; 0x05; 0x06; 0x65; 0x74; 0x68; 0x30;
           0x06; 0x02; 0x00; 0x3c].

(** A neighbour, and frames it may send to the LLDP multicast address:
    one whose payload starts with a TTL record (no LLDPDU), and one that
    carries the LLDPDU of the scenario closed by an End record. *)
Definition peer_mac : bytes := map z2b [0x02; 0x00; 0x00; 0x00; 0x00; 0x01].

Definition eth_header : bytes :=
  LLDPAgent.dst_addr ++ peer_mac ++ map z2b [0x88; 0xcc].

Definition bad_frame : bytes := eth_header ++ map z2b [0x06; 0x02; 0x00; 0x3c].

Definition good_frame : bytes := eth_header ++ payload ++ map z2b [0x00; 0x00].

Definition good_lldpdu : LLDPDU.t :=
  LLDPDU.mk 22 [chassis_tlv; port_tlv; ttl_tlv; end_tlv].

(** Network-address records with an address family that is neither IPv4
    nor IPv6, or that disagrees with the address. *)
Definition chassis_family_3 : bytes :=
  map z2b [0x02; 0x06; 0x05; 0x03; 0xc0; 0x00; 0x02; 0x01].

Definition mgmt_family_9 : bytes :=
  map z2b [0x10; 0x0c; 0x05; 0x09; 0xc0; 0x00; 0x02; 0x01;
           0x02; 0x00; 0x00; 0x00; 0x04; 0x00].

Definition mgmt_family_2_ipv4 : bytes :=
  map z2b [0x10; 0x0c; 0x05; 0x02; 0xc0; 0x00; 0x02; 0x01;
           0x02; 0x00; 0x00; 0x00; 0x04; 0x00].

Definition ipv4_192_0_2_1 : ip := IPv4Address (map z2b [0xc0; 0x00; 0x02; 0x01]).

End Scenario.

(** * Properties *)

Unset Implicit Arguments.

#[local] Arguments Z.shiftl : simpl never.
#[local] Arguments Z.shiftr : simpl never.
#[local] Arguments Z.land : simpl never.
#[local] Arguments Z.lor : simpl never.
#[local] Arguments Z.pow : simpl never.
#[local] Arguments Z.mul : simpl never.
#[local] Arguments Z.add : simpl never.
#[local] Arguments Z.sub : simpl never.
#[local] Arguments Z.div : simpl never.
#[local] Arguments Z.modulo : simpl never.
#[local] Arguments Z.of_nat : simpl never.

(** ** Octets and bit fields *)

Section Octets.

Lemma b2z_range (b : byte) : 0 <= b2z b < 256.
Proof.
  unfold b2z. pose proof (Byte.to_N_bounded b). lia.
Qed.

Lemma z2b_b2z (b : byte) : z2b (b2z b) = b.
Proof.
  unfold z2b. rewrite Z.mod_small by apply b2z_range.
  unfold b2z. rewrite N2Z.id, Byte.of_to_N. reflexivity.
Qed.

Lemma b2z_z2b (z : Z) : 0 <= z < 256 -> b2z (z2b z) = z.
Proof.
  intros Hz. unfold z2b. rewrite Z.mod_small by assumption.
  destruct (Byte.of_N (Z.to_N z)) as [b|] eqn:E.
  - apply Byte.to_of_N in E. unfold b2z. rewrite E. lia.
  - apply Byte.of_N_None_iff in E. lia.
Qed.

Lemma b2z_inj (a b : byte) : b2z a = b2z b -> a = b.
Proof.
  intros H. rewrite <- (z2b_b2z a), <- (z2b_b2z b), H. reflexivity.
Qed.

(** A field placed above [k] low bits and a value that fits the low
    bits do not overlap: their bitwise [or] is their sum. *)
Lemma lor_field (a b k : Z) :
  0 <= k -> 0 <= b < 2 ^ k -> Z.lor (a * 2 ^ k) b = a * 2 ^ k + b.
Proof.
  intros Hk Hb.
  rewrite <- (Z.add_lor_land (a * 2 ^ k) b).
  assert (E : Z.land (a * 2 ^ k) b = 0).
  { apply Z.bits_inj'. intros n Hn.
    rewrite Z.land_spec, Z.bits_0.
    destruct (Z.ltb_spec n k).
    - rewrite Z.mul_pow2_bits_low by lia. reflexivity.
    - destruct (Z.eq_dec b 0) as [->|Hnz].
      + rewrite Z.bits_0. apply andb_false_r.
      + rewrite (Z.bits_above_log2 b n); [apply andb_false_r|lia|].
        apply Z.log2_lt_pow2; [lia|].
        apply Z.lt_le_trans with (2 ^ k); [lia|].
        apply Z.pow_le_mono_r; lia. }
  rewrite E. lia.
Qed.

Lemma land_low (a k : Z) : 0 <= k -> Z.land a (2 ^ k - 1) = a mod 2 ^ k.
Proof.
  intros Hk. rewrite <- Z.land_ones by assumption.
  f_equal. rewrite Z.ones_equiv. lia.
Qed.

End Octets.

Lemma len_app {A} (a b : list A) : len (a ++ b) = len a + len b.
Proof. unfold len. rewrite length_app. lia. Qed.

Lemma len_nonneg {A} (a : list A) : 0 <= len a.
Proof. unfold len. lia. Qed.

(** Bit operations with literal shifts and masks, as arithmetic. *)
Lemma shiftr_lit (a k : Z) : 0 <= k -> Z.shiftr a k = a / 2 ^ k.
Proof. intros. apply Z.shiftr_div_pow2. assumption. Qed.

Lemma shiftl_lit (a k : Z) : 0 <= k -> Z.shiftl a k = a * 2 ^ k.
Proof. intros. apply Z.shiftl_mul_pow2. assumption. Qed.

Ltac shifts_to_arith :=
  repeat match goal with
    | |- context [Z.shiftr ?a ?k] => rewrite (shiftr_lit a k) by lia
    | |- context [Z.shiftl ?a ?k] => rewrite (shiftl_lit a k) by lia
    end.

(** Division and remainder by literals are linear arithmetic for [lia]. *)
Ltac Zify.zify_post_hook ::= Z.to_euclidean_division_equations.

(** ** The two-octet header *)

Section Header.

Variables ty n : Z.
Hypothesis Hty : 0 <= ty < 128.
Hypothesis Hn : 0 <= n < 512.

Let w := Z.lor (Z.shiftl ty 9) n.
Let h0 := b2z (z2b (Z.shiftr w 8)).
Let h1 := b2z (z2b (Z.land w 0xFF)).

Lemma header_word : w = ty * 512 + n.
Proof.
  unfold w. rewrite shiftl_lit by lia.
  apply (lor_field ty n 9); lia.
Qed.

Lemma header_h0 : h0 = 2 * ty + n / 256.
Proof.
  unfold h0. rewrite header_word, shiftr_lit by lia.
  change (2 ^ 8) with 256.
  rewrite b2z_z2b; lia.
Qed.

Lemma header_h1 : h1 = n mod 256.
Proof.
  unfold h1. rewrite header_word.
  change 0xFF with (2 ^ 8 - 1). rewrite land_low by lia.
  change (2 ^ 8) with 256.
  rewrite b2z_z2b; lia.
Qed.

Lemma header_type : Z.land (Z.shiftr h0 1) 0x7F = ty.
Proof.
  rewrite header_h0, shiftr_lit by lia.
  change 0x7F with (2 ^ 7 - 1). rewrite land_low by lia.
  change (2 ^ 1) with 2. change (2 ^ 7) with 128.
  lia.
Qed.

Lemma header_length : Z.lor (Z.shiftl (Z.land h0 1) 8) h1 = n.
Proof.
  rewrite header_h0, header_h1, shiftl_lit by lia.
  change 1 with (2 ^ 1 - 1) at 1. rewrite land_low by lia.
  rewrite (lor_field _ (n mod 256) 8); change (2 ^ 8) with 256;
    change (2 ^ 1) with 2; lia.
Qed.

End Header.

(** ** System capabilities *)

Module CapabilityFacts.
Import SystemCapabilitiesTLV.

(** The guard of the constructor is the validity constraint. *)
Lemma guard_iff (supported enabled : Z) :
  Z.lor enabled supported = supported <->
  Z.land enabled (Z.lnot supported) = 0.
Proof.
  rewrite <- Z.sub_lor_l_same_r. lia.
Qed.

Lemma below_pow2 (a k : Z) : 0 <= a -> 0 <= k -> Z.log2 a < k -> a < 2 ^ k.
Proof.
  intros Ha Hk Hl. destruct (Z.eq_dec a 0) as [->|].
  - apply Z.pow_pos_nonneg; lia.
  - apply Z.log2_lt_pow2; lia.
Qed.

Lemma log2_below (a k : Z) : 0 <= a -> 0 < k -> a < 2 ^ k -> Z.log2 a < k.
Proof.
  intros Ha Hk Hl. destruct (Z.eq_dec a 0) as [->|].
  - simpl. lia.
  - apply Z.log2_lt_pow2; lia.
Qed.

(** A value the constructor can store comes from two 16-bit bitmaps. *)
Lemma stored_fits (supported enabled : Z) :
  Z.lor enabled supported = supported ->
  0 <= Z.lor enabled (Z.shiftl supported 16) < 2 ^ 32 ->
  0 <= supported < 2 ^ 16 /\ 0 <= enabled < 2 ^ 16.
Proof.
  intros Hg [Hlo Hhi].
  apply Z.lor_nonneg in Hlo. destruct Hlo as [He Hs].
  apply Z.shiftl_nonneg in Hs.
  assert (Hl : Z.log2 (Z.lor enabled (Z.shiftl supported 16)) < 32).
  { apply log2_below; [apply Z.lor_nonneg; split; [|apply Z.shiftl_nonneg]|
                       |]; lia. }
  rewrite Z.log2_lor in Hl by (try apply Z.shiftl_nonneg; lia).
  assert (Hs16 : supported < 2 ^ 16).
  { destruct (Z.eq_dec supported 0) as [->|Hnz]; [reflexivity|].
    rewrite Z.log2_shiftl in Hl by lia.
    apply below_pow2; lia. }
  split; [lia|]. split; [lia|].
  apply below_pow2; [lia|lia|].
  assert (Hm : Z.log2 (Z.lor enabled supported) < 16).
  { rewrite Hg. apply log2_below; lia. }
  rewrite Z.log2_lor in Hm by lia. lia.
Qed.

Lemma stored_word (supported enabled : Z) :
  0 <= enabled < 2 ^ 16 ->
  Z.lor enabled (Z.shiftl supported 16) = supported * 65536 + enabled.
Proof.
  intros He. rewrite Z.lor_comm, shiftl_lit by lia.
  rewrite (lor_field supported enabled 16) by lia. reflexivity.
Qed.

Lemma supported_of_stored (supported enabled : Z) :
  0 <= supported < 2 ^ 16 -> 0 <= enabled < 2 ^ 16 ->
  supported_of (Z.lor enabled (Z.shiftl supported 16)) = supported.
Proof.
  intros Hs He. unfold supported_of.
  rewrite stored_word, shiftr_lit by lia.
  change 0xFFFF with (2 ^ 16 - 1). rewrite land_low by lia.
  change (2 ^ 16) with 65536 in *. lia.
Qed.

Lemma enabled_of_stored (supported enabled : Z) :
  0 <= supported < 2 ^ 16 -> 0 <= enabled < 2 ^ 16 ->
  enabled_of (Z.lor enabled (Z.shiftl supported 16)) = enabled.
Proof.
  intros Hs He. unfold enabled_of.
  rewrite stored_word by lia.
  change 0xFFFF with (2 ^ 16 - 1). rewrite land_low by lia.
  change (2 ^ 16) with 65536 in *. lia.
Qed.

(** What a successful construction tells. *)
Lemma init_ok (supported enabled : Z) (t : TLV) :
  init supported enabled = Ok t ->
  Z.lor enabled supported = supported /\
  0 <= supported < 2 ^ 16 /\ 0 <= enabled < 2 ^ 16 /\
  t = mkTLV (SystemCapabilities (Z.lor enabled (Z.shiftl supported 16)))
            (be_bytes 4 (Z.lor enabled (Z.shiftl supported 16))).
Proof.
  unfold init. intros H.
  destruct (Z.eqb_spec (Z.lor enabled supported) supported) as [Hg|];
    [|discriminate].
  cbn [negb bind] in H. unfold int_to_bytes in H.
  change (2 ^ (8 * Z.of_nat 4)) with (2 ^ 32) in H.
  destruct (Z.ltb_spec (Z.lor enabled (Z.shiftl supported 16)) 0);
    [discriminate|].
  destruct (Z.leb_spec (2 ^ 32) (Z.lor enabled (Z.shiftl supported 16)));
    [discriminate|].
  cbn [orb bind] in H. injection H as <-.
  destruct (stored_fits supported enabled Hg); [lia|].
  repeat split; lia.
Qed.

Lemma init_valid (supported enabled : Z) :
  0 <= supported < 2 ^ 16 -> 0 <= enabled < 2 ^ 16 ->
  Z.lor enabled supported = supported ->
  init supported enabled =
    Ok (mkTLV (SystemCapabilities (Z.lor enabled (Z.shiftl supported 16)))
              (be_bytes 4 (Z.lor enabled (Z.shiftl supported 16)))).
Proof.
  intros Hs He Hg. unfold init. rewrite Hg, Z.eqb_refl. cbn [negb].
  unfold int_to_bytes. change (2 ^ (8 * Z.of_nat 4)) with (2 ^ 32).
  rewrite stored_word by lia. change (2 ^ 16) with 65536 in *.
  destruct (Z.ltb_spec (supported * 65536 + enabled) 0); [lia|].
  destruct (Z.leb_spec (2 ^ 32) (supported * 65536 + enabled)); [lia|].
  reflexivity.
Qed.

Lemma init_invalid (supported enabled : Z) :
  Z.land enabled (Z.lnot supported) <> 0 ->
  init supported enabled = Raise ValueError.
Proof.
  intros H. unfold init.
  destruct (Z.eqb_spec (Z.lor enabled supported) supported) as [Hg|];
    [|reflexivity].
  apply guard_iff in Hg. contradiction.
Qed.

End CapabilityFacts.

(** ** Big-endian fields *)

Lemma be_value_app (a b : bytes) :
  be_value (a ++ b) = be_value a * 256 ^ len b + be_value b.
Proof.
  unfold be_value.
  assert (G : forall (l : bytes) acc,
             fold_left (fun acc b => acc * 256 + b2z b) l acc =
             acc * 256 ^ len l + fold_left (fun acc b => acc * 256 + b2z b) l 0).
  { induction l as [|x l IH]; intros acc; cbn [fold_left].
    - unfold len. cbn [List.length]. change (256 ^ Z.of_nat 0) with 1. lia.
    - rewrite IH, (IH (0 * 256 + b2z x)).
      unfold len. cbn [List.length]. rewrite Nat2Z.inj_succ, Z.pow_succ_r by lia.
      lia. }
  rewrite fold_left_app, G. reflexivity.
Qed.

Lemma be_value_range (bs : bytes) : 0 <= be_value bs < 256 ^ len bs.
Proof.
  induction bs as [|b bs IH] using rev_ind.
  - unfold be_value, len. cbn. lia.
  - rewrite be_value_app. unfold len in *. rewrite length_app.
    cbn [List.length]. rewrite Nat2Z.inj_add.
    change (Z.of_nat 1) with 1. rewrite Z.pow_add_r by lia.
    change (256 ^ 1) with 256.
    replace (be_value [b]) with (b2z b) by (unfold be_value; cbn; lia).
    pose proof (b2z_range b). nia.
Qed.

Lemma unpack_from_range (n : nat) (data : bytes) (off v : Z) :
  unpack_from n data off = Ok v -> 0 <= v < 256 ^ Z.of_nat n.
Proof.
  unfold unpack_from.
  destruct ((off <? 0) || (len data <? off + Z.of_nat n)) eqn:E;
    [discriminate|].
  intros [= <-].
  pose proof (be_value_range (firstn n (skipn (Z.to_nat off) data))) as R.
  assert (L : len (firstn n (skipn (Z.to_nat off) data)) <= Z.of_nat n).
  { unfold len. rewrite length_firstn. lia. }
  split; [lia|].
  apply Z.lt_le_trans with (1 := proj2 R).
  apply Z.pow_le_mono_r; unfold len in *; lia.
Qed.

(** ** C6: the capability constraint at construction and at decoding *)

(** C6.  Every SystemCapabilities TLV that exists satisfies
    [enabled & ~supported == 0].  A TLV the constructor returns carries
    exactly the two bitmaps it was given, and they satisfy the constraint;
    a bit of [enabled] outside [supported] makes the constructor raise;
    two valid 16-bit bitmaps (reserved bits included) are always accepted.
    The decoder reads the two 16-bit words of the payload and behaves the
    same way: what it returns carries the two words as read and satisfies
    the constraint, a forbidden bit makes it raise, and on a well-framed
    payload with valid words it succeeds. *)
Theorem capabilities_checked :
  (forall supported enabled t,
      SystemCapabilitiesTLV.init supported enabled = Ok t ->
      exists value,
        tlv_attrs t = SystemCapabilities value /\
        SystemCapabilitiesTLV.supported_of value = supported /\
        SystemCapabilitiesTLV.enabled_of value = enabled /\
        Z.land enabled (Z.lnot supported) = 0) /\
  (forall supported enabled,
      Z.land enabled (Z.lnot supported) <> 0 ->
      SystemCapabilitiesTLV.init supported enabled = Raise ValueError) /\
  (forall supported enabled,
      0 <= supported < 2 ^ 16 -> 0 <= enabled < 2 ^ 16 ->
      Z.land enabled (Z.lnot supported) = 0 ->
      exists t, SystemCapabilitiesTLV.init supported enabled = Ok t) /\
  (forall data t,
      SystemCapabilitiesTLV.from_bytes data = Ok t ->
      exists value,
        tlv_attrs t = SystemCapabilities value /\
        unpack_from 2 data 2 =
          Ok (SystemCapabilitiesTLV.supported_of value) /\
        unpack_from 2 data 4 = Ok (SystemCapabilitiesTLV.enabled_of value) /\
        Z.land (SystemCapabilitiesTLV.enabled_of value)
               (Z.lnot (SystemCapabilitiesTLV.supported_of value)) = 0) /\
  (forall data s e,
      unpack_from 2 data 2 = Ok s -> unpack_from 2 data 4 = Ok e ->
      Z.land e (Z.lnot s) <> 0 ->
      raises (SystemCapabilitiesTLV.from_bytes data)) /\
  (forall data n s e,
      check_header Type_.SYSTEM_CAPABILITIES data = Ok n ->
      unpack_from 2 data 2 = Ok s -> unpack_from 2 data 4 = Ok e ->
      Z.land e (Z.lnot s) = 0 ->
      exists t, SystemCapabilitiesTLV.from_bytes data = Ok t).
Proof.
  assert (A : forall supported enabled t,
      SystemCapabilitiesTLV.init supported enabled = Ok t ->
      exists value,
        tlv_attrs t = SystemCapabilities value /\
        SystemCapabilitiesTLV.supported_of value = supported /\
        SystemCapabilitiesTLV.enabled_of value = enabled /\
        Z.land enabled (Z.lnot supported) = 0).
  { intros s e t H.
    apply CapabilityFacts.init_ok in H. destruct H as (Hg & Hs & He & ->).
    eexists. split; [reflexivity|].
    rewrite CapabilityFacts.supported_of_stored,
      CapabilityFacts.enabled_of_stored by assumption.
    repeat split. apply CapabilityFacts.guard_iff. assumption. }
  assert (B : forall supported enabled,
      0 <= supported < 2 ^ 16 -> 0 <= enabled < 2 ^ 16 ->
      Z.land enabled (Z.lnot supported) = 0 ->
      exists t, SystemCapabilitiesTLV.init supported enabled = Ok t).
  { intros s e Hs He Hv. eexists.
    apply CapabilityFacts.init_valid; try assumption.
    apply CapabilityFacts.guard_iff. assumption. }
  split; [exact A|].
  split; [exact CapabilityFacts.init_invalid|].
  split; [exact B|].
  split; [|split].
  - intros data t H. unfold SystemCapabilitiesTLV.from_bytes in H.
    destruct (check_header Type_.SYSTEM_CAPABILITIES data); [|discriminate].
    cbn [bind] in H.
    destruct (unpack_from 2 data 2) as [s|]; [|discriminate].
    destruct (unpack_from 2 data 4) as [e|]; [|discriminate].
    cbn [bind] in H.
    destruct (A s e t H) as (value & Ha & Hs & He & Hv).
    exists value. rewrite Hs, He. auto.
  - intros data s e Hs He Hv. unfold SystemCapabilitiesTLV.from_bytes.
    destruct (check_header Type_.SYSTEM_CAPABILITIES data);
      [|eexists; reflexivity].
    cbn [bind]. rewrite Hs, He. cbn [bind].
    rewrite CapabilityFacts.init_invalid by assumption.
    eexists; reflexivity.
  - intros data n s e Hh Hs He Hv. unfold SystemCapabilitiesTLV.from_bytes.
    rewrite Hh. cbn [bind]. rewrite Hs, He. cbn [bind].
    apply B; try assumption.
    + apply (unpack_from_range 2 data 2 s Hs).
    + apply (unpack_from_range 2 data 4 e He).
Qed.

(** The theorem at [SystemCapabilities(0b0110, 0b0100)]. *)
Lemma capabilities_checked_witness :
  exists value,
    tlv_attrs (mkTLV (SystemCapabilities 393220) (map z2b [0; 6; 0; 4])) =
      SystemCapabilities value /\
    SystemCapabilitiesTLV.supported_of value = 6 /\
    SystemCapabilitiesTLV.enabled_of value = 4 /\
    Z.land 4 (Z.lnot 6) = 0.
Proof.
  apply (proj1 capabilities_checked 6 4). reflexivity.
Defined.

(** ** The assembler: [append] *)

Module AppendFacts.
Import LLDPDU Inv.

Lemma append_eq (tlv : TLV) (s : LLDPDU.t) :
  append tlv s =
    if refuses tlv s then (Raise ValueError, s)
    else (Ok tt, mk (length s + len (TLV_bytes tlv)) (tlvs s ++ [tlv])).
Proof.
  unfold append, refuses, mbind, get, put, when, raise, ret.
  destruct (len (TLV_bytes tlv) + length s >? 1500); [reflexivity|].
  destruct (any is_end s); [reflexivity|].
  cbn [orb].
  destruct (tlv_type tlv =? Type_.CHASSIS_ID).
  { destruct (any is_chassis s); reflexivity. }
  destruct (tlv_type tlv =? Type_.PORT_ID).
  { destruct (any is_port s || negb (any is_chassis s)); reflexivity. }
  destruct (tlv_type tlv =? Type_.TTL).
  { destruct (any is_ttl s || negb (any is_chassis s)
              || negb (any is_port s)); reflexivity. }
  destruct (negb (any is_chassis s) || negb (any is_port s)
            || negb (any is_ttl s)); reflexivity.
Qed.

Lemma is_end_type x : is_end x = (tlv_type x =? Type_.END_OF_LLDPDU).
Proof. unfold is_end, tlv_type. destruct (tlv_attrs x); reflexivity. Qed.
Lemma is_chassis_type x : is_chassis x = (tlv_type x =? Type_.CHASSIS_ID).
Proof. unfold is_chassis, tlv_type. destruct (tlv_attrs x); reflexivity. Qed.
Lemma is_port_type x : is_port x = (tlv_type x =? Type_.PORT_ID).
Proof. unfold is_port, tlv_type. destruct (tlv_attrs x); reflexivity. Qed.
Lemma is_ttl_type x : is_ttl x = (tlv_type x =? Type_.TTL).
Proof. unfold is_ttl, tlv_type. destruct (tlv_attrs x); reflexivity. Qed.

Ltac any_has lem :=
  unfold any, has; rewrite existsb_exists;
  split; intros (x & Hin & Hx); exists x; split; auto;
  rewrite lem in *; lia.

Lemma any_end s : any is_end s = true <-> has Type_.END_OF_LLDPDU (tlvs s).
Proof. any_has is_end_type. Qed.
Lemma any_chassis s : any is_chassis s = true <-> has Type_.CHASSIS_ID (tlvs s).
Proof. any_has is_chassis_type. Qed.
Lemma any_port s : any is_port s = true <-> has Type_.PORT_ID (tlvs s).
Proof. any_has is_port_type. Qed.
Lemma any_ttl s : any is_ttl s = true <-> has Type_.TTL (tlvs s).
Proof. any_has is_ttl_type. Qed.

Lemma to_bytes_fold (l : list TLV) (acc : bytes) :
  fold_left (fun res tlv => res ++ TLV_bytes tlv) l acc =
  acc ++ fold_left (fun res tlv => res ++ TLV_bytes tlv) l [].
Proof.
  revert acc. induction l as [|x l IH]; intros acc; cbn [fold_left].
  - rewrite app_nil_r. reflexivity.
  - rewrite IH, (IH ([] ++ TLV_bytes x)), app_assoc. reflexivity.
Qed.

Lemma to_bytes_cons n m x l :
  to_bytes (mk n (x :: l)) = TLV_bytes x ++ to_bytes (mk m l).
Proof.
  unfold to_bytes. cbn [tlvs fold_left]. rewrite to_bytes_fold. reflexivity.
Qed.

Lemma to_bytes_snoc n m l x :
  to_bytes (mk n (l ++ [x])) = to_bytes (mk m l) ++ TLV_bytes x.
Proof.
  unfold to_bytes. cbn [tlvs]. rewrite fold_left_app. reflexivity.
Qed.

(** The counter [length] of an object is the size of its encoding. *)
Lemma reachable_length s : reachable s -> length s = len (to_bytes s).
Proof.
  induction 1 as [|s tlv s' Hr IH Ha]; [reflexivity|].
  rewrite append_eq in Ha. destruct (refuses tlv s); [discriminate|].
  injection Ha as <-. cbn [length].
  rewrite (to_bytes_snoc _ (length s)), len_app, IH.
  destruct s; reflexivity.
Qed.

Lemma prefix_ok_step tlv s :
  prefix_ok (tlvs s) -> refuses tlv s = false ->
  prefix_ok (tlvs s ++ [tlv]).
Proof.
  unfold prefix_ok, refuses, any, types, mandatory_prefix.
  destruct s as [n l]. cbn [tlvs length].
  intros Hp Hr.
  apply orb_false_elim in Hr. destruct Hr as [_ Hr].
  destruct l as [|a [|b [|c l]]]; cbn in Hp |- *.
  - cbn [existsb negb orb] in Hr.
    destruct (tlv_type tlv =? Type_.CHASSIS_ID) eqn:E1; [f_equal; lia|].
    destruct (tlv_type tlv =? Type_.PORT_ID); [discriminate|].
    destruct (tlv_type tlv =? Type_.TTL); discriminate.
  - injection Hp as Ha. cbn [existsb] in Hr.
    rewrite is_chassis_type, is_port_type, is_ttl_type, Ha in Hr.
    cbn in Hr. rewrite Ha.
    destruct (tlv_type tlv =? Type_.CHASSIS_ID) eqn:E1; [discriminate|].
    destruct (tlv_type tlv =? Type_.PORT_ID) eqn:E2;
      [repeat f_equal; lia|].
    destruct (tlv_type tlv =? Type_.TTL); discriminate.
  - injection Hp as Ha Hb. cbn [existsb] in Hr.
    rewrite !is_chassis_type, !is_port_type, !is_ttl_type, Ha, Hb in Hr.
    cbn in Hr. rewrite Ha, Hb.
    destruct (tlv_type tlv =? Type_.CHASSIS_ID) eqn:E1; [discriminate|].
    destruct (tlv_type tlv =? Type_.PORT_ID) eqn:E2; [discriminate|].
    destruct (tlv_type tlv =? Type_.TTL) eqn:E3;
      [repeat f_equal; lia|discriminate].
  - rewrite firstn_nil in Hp |- *. exact Hp.
Qed.

Lemma reachable_prefix_ok s : reachable s -> prefix_ok (tlvs s).
Proof.
  induction 1 as [|s tlv s' Hr IH Ha]; [reflexivity|].
  rewrite append_eq in Ha. destruct (refuses tlv s) eqn:E; [discriminate|].
  injection Ha as <-. cbn [tlvs]. apply prefix_ok_step; assumption.
Qed.

(** Under the prefix invariant an LLDPDU without a Chassis-ID is empty. *)
Lemma prefix_ok_no_chassis l :
  prefix_ok l -> ~ has Type_.CHASSIS_ID l -> l = [].
Proof.
  unfold prefix_ok, types, mandatory_prefix.
  destruct l as [|a l]; [reflexivity|]. intros Hp Hn. exfalso. apply Hn.
  exists a. split; [left; reflexivity|].
  destruct l as [|b [|c l]]; cbn in Hp; injection Hp; auto.
Qed.

End AppendFacts.

(** ** C4, C5: when [append] refuses, and what it leaves behind *)

Lemma oversize_iff s tlv :
  Inv.reachable s ->
  (len (TLV_bytes tlv) + LLDPDU.length s >? 1500) = true <->
  Inv.oversize (LLDPDU.tlvs s) tlv.
Proof.
  intros Hr. unfold Inv.oversize.
  rewrite (AppendFacts.to_bytes_snoc _ (LLDPDU.length s)), len_app.
  rewrite (AppendFacts.reachable_length s Hr).
  destruct s; cbn [LLDPDU.tlvs LLDPDU.length]. unfold LLDPDU.to_bytes.
  cbn [LLDPDU.tlvs]. lia.
Qed.

Ltac decided_atoms :=
  repeat match goal with
    | H : true = true <-> ?P |- _ =>
        assert P by (apply H; reflexivity); clear H
    | H : false = true <-> ?P |- _ =>
        assert (~ P) by (intros X; apply H in X; discriminate); clear H
    end.

Lemma refuses_iff s tlv :
  Inv.reachable s ->
  Inv.refuses tlv s = true <->
  Inv.second_singleton (LLDPDU.tlvs s) tlv \/
  Inv.breaks_prefix_order (LLDPDU.tlvs s) tlv \/
  Inv.after_end (LLDPDU.tlvs s) \/
  Inv.oversize (LLDPDU.tlvs s) tlv.
Proof.
  intros Hr.
  pose proof (oversize_iff s tlv Hr) as HO.
  pose proof (AppendFacts.any_end s) as HE.
  pose proof (AppendFacts.any_chassis s) as HC.
  pose proof (AppendFacts.any_port s) as HP.
  pose proof (AppendFacts.any_ttl s) as HT.
  pose proof (AppendFacts.prefix_ok_no_chassis _
                (AppendFacts.reachable_prefix_ok s Hr)) as HN.
  unfold Inv.refuses.
  unfold Inv.second_singleton, Inv.breaks_prefix_order, Inv.after_end,
    Inv.singleton, Inv.prefix_complete, Inv.mandatory_prefix.
  cbn [In].
  set (ty := tlv_type tlv) in *.
  set (l := LLDPDU.tlvs s) in *.
  destruct (len (TLV_bytes tlv) + LLDPDU.length s >? 1500);
    [cbn [orb]; tauto|].
  destruct (LLDPDU.any LLDPDU.is_end s); [cbn [orb]; tauto|].
  cbn [orb].
  assert (HO' : ~ Inv.oversize l tlv) by (intros X; apply HO in X; discriminate).
  assert (HE' : ~ Inv.has Type_.END_OF_LLDPDU l)
    by (intros X; apply HE in X; discriminate).
  clear HO HE.
  unfold Type_.END_OF_LLDPDU, Type_.CHASSIS_ID, Type_.PORT_ID, Type_.TTL in *.
  destruct (Z.eqb_spec ty 1) as [E1|E1];
    [|destruct (Z.eqb_spec ty 2) as [E2|E2];
      [|destruct (Z.eqb_spec ty 3) as [E3|E3]]];
    destruct (LLDPDU.any LLDPDU.is_chassis s);
    destruct (LLDPDU.any LLDPDU.is_port s);
    destruct (LLDPDU.any LLDPDU.is_ttl s);
    cbn [orb negb]; decided_atoms;
    (split; intros Hd; [try discriminate|first [reflexivity|exfalso]]);
    intuition (try lia; try congruence);
    try match goal with
      | Hl : l = [], Hh : Inv.has _ l |- _ =>
          rewrite Hl in Hh; destruct Hh as (? & [] & _)
      end.
Qed.

Lemma prefix_ok_long l :
  Inv.prefix_ok l -> (3 <= List.length l)%nat -> Inv.I1 l.
Proof.
  unfold Inv.prefix_ok, Inv.I1. intros Hp Hl. rewrite Hp.
  apply firstn_all2. cbn. lia.
Qed.

Lemma prefix_ok_complete l :
  Inv.prefix_ok l -> Inv.has Type_.TTL l -> Inv.I1 l.
Proof.
  intros Hp (x & Hin & Hx). apply prefix_ok_long; [assumption|].
  unfold Inv.prefix_ok, Inv.types, Inv.mandatory_prefix in Hp.
  unfold Type_.CHASSIS_ID, Type_.PORT_ID, Type_.TTL in *.
  destruct l as [|a [|b [|c l]]]; cbn in Hp, Hin |- *; try lia.
  - injection Hp as Ha. destruct Hin as [E|E]; [subst x; lia|destruct E].
  - injection Hp as Ha Hb.
    destruct Hin as [E|[E|E]]; [subst x; lia|subst x; lia|destruct E].
Qed.

(** C4.  On every LLDPDU that can exist, [append] raises (a [ValueError])
    if and only if the record is a second Chassis-ID, Port-ID, TTL or End,
    or it breaks the order of the mandatory prefix (a first record that
    is no Chassis-ID, a Port-ID before the Chassis-ID, a TTL before the
    Port-ID, another record before the prefix is complete), or an End
    record is already present, or the serialized size would exceed 1500
    octets.  Otherwise it succeeds: the record is added at the end and
    the counted length grows by its encoded size. *)
Theorem append_raises_iff (s : LLDPDU.t) (tlv : TLV) :
  Inv.reachable s ->
  (fst (LLDPDU.append tlv s) = Raise ValueError <->
     Inv.second_singleton (LLDPDU.tlvs s) tlv \/
     Inv.breaks_prefix_order (LLDPDU.tlvs s) tlv \/
     Inv.after_end (LLDPDU.tlvs s) \/
     Inv.oversize (LLDPDU.tlvs s) tlv) /\
  (fst (LLDPDU.append tlv s) <> Raise ValueError ->
     LLDPDU.append tlv s =
       (Ok tt, LLDPDU.mk (LLDPDU.length s + len (TLV_bytes tlv))
                         (LLDPDU.tlvs s ++ [tlv]))).
Proof.
  intros Hr. rewrite AppendFacts.append_eq.
  pose proof (refuses_iff s tlv Hr) as Hi.
  destruct (Inv.refuses tlv s); cbn [fst]; split.
  - split; [intros _; apply Hi; reflexivity|reflexivity].
  - intros H. contradiction H. reflexivity.
  - split; [discriminate|]. intros H. apply Hi in H. discriminate.
  - reflexivity.
Qed.

(** I1 needs three records. *)
Lemma I1_has l :
  Inv.I1 l ->
  (3 <= List.length l)%nat /\ Inv.has Type_.CHASSIS_ID l /\
  Inv.has Type_.PORT_ID l /\ Inv.has Type_.TTL l.
Proof.
  unfold Inv.I1, Inv.types, Inv.mandatory_prefix.
  destruct l as [|a [|b [|c l]]]; cbn [map firstn]; try discriminate.
  intros [= Ha Hb Hc]. cbn [List.length]. split; [lia|].
  split; [exists a|split; [exists b|exists c]]; cbn [In]; auto.
Qed.

(** C5 (fails as stated).  [append] accepts a Chassis-ID on the empty
    LLDPDU, and the result, of one record, does not have the prefix
    Chassis-ID, Port-ID, TTL: I1 does not hold for it, and [complete()]
    is false. *)
Lemma append_first_record_without_I1 :
  LLDPDU.append Scenario.chassis_tlv (LLDPDU.mk 0 []) =
    (Ok tt, LLDPDU.mk 9 [Scenario.chassis_tlv]) /\
  ~ Inv.I1 (LLDPDU.tlvs (LLDPDU.mk 9 [Scenario.chassis_tlv])) /\
  LLDPDU.complete (LLDPDU.mk 9 [Scenario.chassis_tlv]) = false.
Proof.
  split; [reflexivity|]. split; [|reflexivity].
  intros H. apply I1_has in H. destruct H as [H _].
  cbn [LLDPDU.tlvs List.length] in H. lia.
Qed.

(** C5, as the code has it.  [append] is atomic on every LLDPDU built by
    [append]: when it succeeds, the result is the LLDPDU with the record
    added at the end and its size counted, the records present among its
    first three are Chassis-ID, Port-ID, TTL in this order, and I1 holds
    for it exactly when it has at least three records; when it raises,
    the object is left as it was, its records and its counted length. *)
Theorem append_atomic (s : LLDPDU.t) (tlv : TLV) :
  Inv.reachable s ->
  (forall s', LLDPDU.append tlv s = (Ok tt, s') ->
     LLDPDU.tlvs s' = LLDPDU.tlvs s ++ [tlv] /\
     LLDPDU.length s' = LLDPDU.length s + len (TLV_bytes tlv) /\
     Inv.prefix_ok (LLDPDU.tlvs s') /\
     (Inv.I1 (LLDPDU.tlvs s') <-> (3 <= List.length (LLDPDU.tlvs s'))%nat)) /\
  (forall e s', LLDPDU.append tlv s = (Raise e, s') -> s' = s).
Proof.
  intros Hr. split.
  - intros s' Ha.
    assert (Hp : Inv.prefix_ok (LLDPDU.tlvs s')).
    { apply AppendFacts.reachable_prefix_ok.
      apply Inv.reach_append with (1 := Hr) (2 := Ha). }
    rewrite AppendFacts.append_eq in Ha.
    destruct (Inv.refuses tlv s); [discriminate|].
    injection Ha as <-. cbn [LLDPDU.tlvs LLDPDU.length] in Hp |- *.
    split; [reflexivity|]. split; [reflexivity|]. split; [exact Hp|].
    split.
    + intros Hi. apply I1_has in Hi. tauto.
    + apply prefix_ok_long. exact Hp.
  - intros e s'. rewrite AppendFacts.append_eq.
    destruct (Inv.refuses tlv s); [|discriminate].
    intros [= _ <-]. reflexivity.
Qed.

Lemma two_records_reachable :
  Inv.reachable (LLDPDU.mk 16 [Scenario.chassis_tlv; Scenario.port_tlv]).
Proof.
  apply Inv.reach_append with
    (s := LLDPDU.mk 9 [Scenario.chassis_tlv]) (tlv := Scenario.port_tlv);
    [|reflexivity].
  apply Inv.reach_append with
    (s := LLDPDU.mk 0 []) (tlv := Scenario.chassis_tlv); [|reflexivity].
  apply Inv.reach_new.
Defined.

Lemma scenario_reachable : Inv.reachable Scenario.lldpdu.
Proof.
  apply Inv.reach_append with
    (s := LLDPDU.mk 16 [Scenario.chassis_tlv; Scenario.port_tlv])
    (tlv := Scenario.ttl_tlv); [|reflexivity].
  exact two_records_reachable.
Defined.

(** C4 at scenario S3: a second Chassis-ID after the complete prefix. *)
Lemma append_raises_iff_witness :
  (fst (LLDPDU.append Scenario.chassis_tlv Scenario.lldpdu) = Raise ValueError
   <->
   Inv.second_singleton (LLDPDU.tlvs Scenario.lldpdu) Scenario.chassis_tlv \/
   Inv.breaks_prefix_order (LLDPDU.tlvs Scenario.lldpdu) Scenario.chassis_tlv \/
   Inv.after_end (LLDPDU.tlvs Scenario.lldpdu) \/
   Inv.oversize (LLDPDU.tlvs Scenario.lldpdu) Scenario.chassis_tlv) /\
  (fst (LLDPDU.append Scenario.chassis_tlv Scenario.lldpdu)
     <> Raise ValueError ->
   LLDPDU.append Scenario.chassis_tlv Scenario.lldpdu =
     (Ok tt,
      LLDPDU.mk (LLDPDU.length Scenario.lldpdu
                 + len (TLV_bytes Scenario.chassis_tlv))
                (LLDPDU.tlvs Scenario.lldpdu ++ [Scenario.chassis_tlv]))).
Proof.
  exact (append_raises_iff Scenario.lldpdu Scenario.chassis_tlv
           scenario_reachable).
Defined.

(** C5 at scenario S1, where [append] succeeds: the TTL offered after
    the Chassis-ID and the Port-ID gives the LLDPDU of the scenario, for
    which I1 holds. *)
Lemma append_atomic_witness :
  LLDPDU.tlvs Scenario.lldpdu =
    [Scenario.chassis_tlv; Scenario.port_tlv] ++ [Scenario.ttl_tlv] /\
  LLDPDU.length Scenario.lldpdu = 16 + len (TLV_bytes Scenario.ttl_tlv) /\
  Inv.prefix_ok (LLDPDU.tlvs Scenario.lldpdu) /\
  (Inv.I1 (LLDPDU.tlvs Scenario.lldpdu) <->
   (3 <= List.length (LLDPDU.tlvs Scenario.lldpdu))%nat).
Proof.
  apply (proj1 (append_atomic
                  (LLDPDU.mk 16 [Scenario.chassis_tlv; Scenario.port_tlv])
                  Scenario.ttl_tlv two_records_reachable)
           Scenario.lldpdu).
  reflexivity.
Defined.

(** ** The decoder loop of [LLDPDU.from_bytes] *)

Module LoopFacts.
Import LLDPDU.

Lemma getitem_range data i v : getitem data i = Ok v -> 0 <= v < 256.
Proof.
  unfold getitem.
  destruct ((if i <? 0 then i + len data else i) <? 0); [discriminate|].
  destruct (nth_error data _); [|discriminate].
  intros [= <-]. apply b2z_range.
Qed.

Lemma getitem_cons_0 b data : getitem (b :: data) 0 = Ok (b2z b).
Proof. reflexivity. Qed.

Lemma getitem_cons_1 b0 b1 data : getitem (b0 :: b1 :: data) 1 = Ok (b2z b1).
Proof. reflexivity. Qed.

(** Reading at the end of the buffer, or past it, raises [IndexError]. *)
Lemma getitem_past data i : len data <= i -> getitem data i = Raise IndexError.
Proof.
  intros H. unfold getitem. pose proof (len_nonneg data).
  destruct (Z.ltb_spec i 0); [lia|].
  destruct (Z.ltb_spec i 0); [lia|].
  destruct (nth_error data (Z.to_nat i)) eqn:E; [|reflexivity].
  assert (nth_error data (Z.to_nat i) <> None) as N by congruence.
  apply nth_error_Some in N. unfold len in H. lia.
Qed.

Lemma header_len_nonneg d0 d1 :
  0 <= d0 -> 0 <= d1 -> 0 <= Z.lor (Z.shiftl (Z.land d0 1) 8) d1.
Proof.
  intros H0 H1. apply Z.lor_nonneg. split; [|assumption].
  apply Z.shiftl_nonneg. apply Z.land_nonneg. left. assumption.
Qed.

Lemma take_ok r cur_idx tlv_len l p :
  take r cur_idx tlv_len l = Ok p ->
  exists tlv,
    r = Ok tlv /\ fst p = cur_idx + (tlv_len + 2) /\
    append tlv l = (Ok tt, snd p).
Proof.
  unfold take. destruct r as [tlv|]; [|discriminate]. cbn [bind].
  destruct (append tlv l) as [[[]|e] l'] eqn:E; [|discriminate].
  intros [= <-]. exists tlv. auto.
Qed.

Ltac split_ifs :=
  repeat match goal with
    | H : context [if ?b then _ else _] |- _ => destruct b eqn:?
    end.

Ltac open_take Hb :=
  match type of Hb with
  | bind (take ?r ?c ?n ?l) _ = _ =>
      let Et := fresh "Et" in
      destruct (take r c n l) as [p|] eqn:Et;
      [cbn [bind] in Hb|discriminate Hb]
  end.

(** A turn that goes on has consumed one whole record that lies inside
    the buffer. *)
Lemma loop_body_continue data cur_idx l i l' :
  loop_body data cur_idx l = Ok (Continue i l') ->
  cur_idx + 2 <= i <= len data /\
  exists tlv, append tlv l = (Ok tt, l').
Proof.
  unfold loop_body.
  destruct (getitem data cur_idx) as [d0|] eqn:E0; [|discriminate].
  destruct (getitem data (cur_idx + 1)) as [d1|] eqn:E1; [|discriminate].
  cbn [bind].
  pose proof (getitem_range _ _ _ E0) as R0.
  pose proof (getitem_range _ _ _ E1) as R1.
  pose proof (header_len_nonneg d0 d1 ltac:(lia) ltac:(lia)) as Hn.
  set (n := Z.lor (Z.shiftl (Z.land d0 1) 8) d1) in *.
  destruct (Z.gtb_spec (cur_idx + n + 2) (len data)) as [|Hfit];
    [discriminate|].
  intros Hb.
  split_ifs; try discriminate; open_take Hb; try discriminate.
  all: injection Hb as <- <-.
  all: apply take_ok in Et; destruct Et as (tlv & _ & -> & Ha).
  all: split; [lia|exists tlv; exact Ha].
Qed.

(** The loop is left by [break] only after an End record was appended. *)
Lemma loop_body_break data cur_idx l l' :
  loop_body data cur_idx l = Ok (Break l') ->
  append (mkTLV EndOfLLDPDU []) l = (Ok tt, l').
Proof.
  unfold loop_body.
  destruct (getitem data cur_idx) as [d0|]; [|discriminate].
  destruct (getitem data (cur_idx + 1)) as [d1|]; [|discriminate].
  cbn [bind].
  set (n := Z.lor (Z.shiftl (Z.land d0 1) 8) d1) in *.
  destruct (cur_idx + n + 2 >? len data); [discriminate|].
  intros Hb.
  split_ifs; try discriminate; open_take Hb; try discriminate.
  injection Hb as <-.
  apply take_ok in Et. destruct Et as (tlv & [= <-] & _ & Ha). exact Ha.
Qed.

(** With the index inside the buffer a turn is always taken, and the
    bound of [from_bytes] on the number of turns is never reached. *)
Lemma loop_total fuel : forall data cur_idx l,
  0 <= cur_idx <= len data -> len data - cur_idx < Z.of_nat fuel ->
  exists r, loop fuel data cur_idx l = Some r.
Proof.
  induction fuel as [|fuel IH]; intros data cur_idx l Hc Hf; [lia|].
  cbn [loop].
  destruct (Z.ltb_spec cur_idx (len data + 1)); [|eexists; reflexivity].
  destruct (loop_body data cur_idx l) as [[i l'|l']|e] eqn:E;
    try (eexists; reflexivity).
  apply loop_body_continue in E. destruct E as [Hi _].
  apply IH; lia.
Qed.

(** Whatever the loop returns normally ends with an End record. *)
Lemma loop_ok_ends fuel : forall data cur_idx l l',
  0 <= cur_idx <= len data ->
  loop fuel data cur_idx l = Some (Ok l') ->
  exists pre n, l' = mk n (pre ++ [mkTLV EndOfLLDPDU []]).
Proof.
  induction fuel as [|fuel IH]; intros data cur_idx l l' Hc; [discriminate|].
  cbn [loop].
  destruct (Z.ltb_spec cur_idx (len data + 1)); [|lia].
  destruct (loop_body data cur_idx l) as [[i l1|l1]|e] eqn:E.
  - apply loop_body_continue in E. destruct E as [Hi _].
    apply IH. lia.
  - intros [= <-]. apply loop_body_break in E.
    rewrite AppendFacts.append_eq in E.
    destruct (Inv.refuses _ l); [discriminate|].
    injection E as <-. eexists _, _. reflexivity.
  - discriminate.
Qed.


End LoopFacts.

(** [from_bytes] always returns or raises: the bound on the turns of its
    loop is never reached. *)
Lemma from_bytes_total data : exists r, LLDPDU.from_bytes data = Some r.
Proof.
  unfold LLDPDU.from_bytes. apply LoopFacts.loop_total.
  - pose proof (len_nonneg data). lia.
  - unfold len. lia.
Qed.

(** No byte sequence decodes to an LLDPDU without a final End record. *)
Lemma from_bytes_ok_ends data l :
  LLDPDU.from_bytes data = Some (Ok l) ->
  exists pre n, l = LLDPDU.mk n (pre ++ [mkTLV EndOfLLDPDU []]).
Proof.
  unfold LLDPDU.from_bytes. apply LoopFacts.loop_ok_ends.
  pose proof (len_nonneg data). lia.
Qed.

(** ** C10: the End record and the mandatory prefix *)

Lemma append_end_complete tlv s s' :
  tlv_type tlv = Type_.END_OF_LLDPDU ->
  LLDPDU.append tlv s = (Ok tt, s') -> LLDPDU.complete s = true.
Proof.
  intros Ht. rewrite AppendFacts.append_eq. unfold Inv.refuses.
  rewrite Ht. cbn [Z.eqb Type_.END_OF_LLDPDU Type_.CHASSIS_ID Type_.PORT_ID
                     Type_.TTL].
  unfold LLDPDU.complete.
  destruct (len (TLV_bytes tlv) + LLDPDU.length s >? 1500); [discriminate|].
  destruct (LLDPDU.any LLDPDU.is_end s); [discriminate|].
  destruct (LLDPDU.any LLDPDU.is_chassis s); [|discriminate].
  destruct (LLDPDU.any LLDPDU.is_port s); [|discriminate].
  destruct (LLDPDU.any LLDPDU.is_ttl s); [reflexivity|discriminate].
Qed.

Lemma append_end_to_empty :
  LLDPDU.append (mkTLV EndOfLLDPDU []) (LLDPDU.mk 0 []) =
    (Raise ValueError, LLDPDU.mk 0 []).
Proof. reflexivity. Qed.

(** C10.  An End record is accepted by [append] only by an LLDPDU that
    has its Chassis-ID, Port-ID and TTL (on an LLDPDU that can exist these
    are its first three records, in this order); and [from_bytes] raises
    on every byte sequence whose first record has the type tag of End: it
    never returns an empty or End-only LLDPDU. *)
Theorem end_needs_prefix :
  (forall tlv s s',
      tlv_type tlv = Type_.END_OF_LLDPDU ->
      LLDPDU.append tlv s = (Ok tt, s') ->
      LLDPDU.complete s = true /\
      (Inv.reachable s -> Inv.I1 (LLDPDU.tlvs s))) /\
  (forall b0 b1 rest,
      Z.land (Z.shiftr (b2z b0) 1) 0x7F = Type_.END_OF_LLDPDU ->
      LLDPDU.from_bytes (b0 :: b1 :: rest) = Some (Raise ValueError)).
Proof.
  split.
  - intros tlv s s' Ht Ha.
    pose proof (append_end_complete tlv s s' Ht Ha) as Hc.
    split; [exact Hc|]. intros Hr.
    apply prefix_ok_complete.
    + apply AppendFacts.reachable_prefix_ok. exact Hr.
    + apply AppendFacts.any_ttl. unfold LLDPDU.complete in Hc.
      apply andb_prop in Hc. tauto.
  - intros b0 b1 rest Ht. unfold LLDPDU.from_bytes.
    cbn [List.length LLDPDU.loop].
    pose proof (len_nonneg (b0 :: b1 :: rest)).
    destruct (Z.ltb_spec 0 (len (b0 :: b1 :: rest) + 1)); [|lia].
    unfold LLDPDU.loop_body.
    rewrite LoopFacts.getitem_cons_0. change (0 + 1) with 1.
    rewrite LoopFacts.getitem_cons_1. cbn [bind].
    rewrite Ht.
    destruct (_ >? _); [reflexivity|].
    change (Type_.END_OF_LLDPDU =? Type_.END_OF_LLDPDU) with true.
    cbv iota. unfold LLDPDU.take, EndOfLLDPDUTLV.init. cbn [bind].
    rewrite append_end_to_empty. reflexivity.
Qed.

(** The theorem at the two octets [00 00] of an End record. *)
Lemma end_needs_prefix_witness :
  LLDPDU.from_bytes [Byte.x00; Byte.x00] = Some (Raise ValueError).
Proof.
  apply (proj2 end_needs_prefix Byte.x00 Byte.x00 []). reflexivity.
Defined.

(** ** C1, C2: decoding an LLDPDU that has no End record *)

Lemma scenario_I2 : Inv.I2 (LLDPDU.tlvs Scenario.lldpdu).
Proof.
  intros ty [<-|[<-|[<-|[<-|[]]]]]; cbn; lia.
Qed.

Lemma scenario_I3 : Inv.I3 (LLDPDU.tlvs Scenario.lldpdu).
Proof.
  intros pre x post E Hx.
  destruct pre as [|a [|b [|c pre]]]; cbn in E; injection E; intros; subst;
    first [vm_compute in Hx; discriminate|destruct pre; discriminate].
Qed.

(** C1 (fails on the code).  The LLDPDU of scenario S1, Chassis-ID, Port-ID
    and TTL without an End record, satisfies I1 to I4, yet decoding its
    encoding does not give it back: after the last record the loop of
    [from_bytes] takes one more turn and reads past the buffer, which
    raises [IndexError]. *)
Theorem roundtrip_without_end_raises :
  Inv.reachable Scenario.lldpdu /\
  Inv.I1 (LLDPDU.tlvs Scenario.lldpdu) /\
  Inv.I2 (LLDPDU.tlvs Scenario.lldpdu) /\
  Inv.I3 (LLDPDU.tlvs Scenario.lldpdu) /\
  Inv.I4 (LLDPDU.tlvs Scenario.lldpdu) /\
  LLDPDU.from_bytes (LLDPDU.to_bytes Scenario.lldpdu) =
    Some (Raise IndexError).
Proof.
  split; [exact scenario_reachable|].
  split; [reflexivity|].
  split; [exact scenario_I2|].
  split; [exact scenario_I3|].
  split; [unfold Inv.I4; vm_compute; discriminate|].
  vm_compute. reflexivity.
Qed.

(** C2 (fails on the code).  The twenty octets of scenario S1 are the
    encodings of a Chassis-ID, a Port-ID and a TTL, each of which its
    class decodes, and hold no End record; [from_bytes] does not return
    the LLDPDU when the buffer is exhausted but raises [IndexError]. *)
Theorem from_bytes_without_end_raises :
  LLDPDU.to_bytes Scenario.lldpdu = Scenario.payload /\
  ChassisIdTLV.from_bytes (slice Scenario.payload 0 9) =
    Ok Scenario.chassis_tlv /\
  PortIdTLV.from_bytes (slice Scenario.payload 9 16) = Ok Scenario.port_tlv /\
  TTLTLV.from_bytes (slice Scenario.payload 16 20) = Ok Scenario.ttl_tlv /\
  LLDPDU.complete Scenario.lldpdu = true /\
  LLDPDU.from_bytes Scenario.payload = Some (Raise IndexError).
Proof.
  repeat split; vm_compute; reflexivity.
Qed.

(** The defect behind both: whatever [from_bytes] returns ends with an End
    record, so no LLDPDU without one is ever decoded. *)
Lemma from_bytes_never_without_end data l :
  LLDPDU.from_bytes data = Some (Ok l) ->
  Inv.has Type_.END_OF_LLDPDU (LLDPDU.tlvs l).
Proof.
  intros H. apply from_bytes_ok_ends in H. destruct H as (pre & n & ->).
  exists (mkTLV EndOfLLDPDU []). split; [|reflexivity].
  cbn [LLDPDU.tlvs]. apply in_or_app. right. left. reflexivity.
Qed.

(** ** UTF-8: decoding undoes encoding *)

Module Utf8Facts.

Lemma mask6 a : Z.land a 0x3F = a mod 64.
Proof. apply (land_low a 6). lia. Qed.
Lemma mask5 a : Z.land a 0x1F = a mod 32.
Proof. apply (land_low a 5). lia. Qed.
Lemma mask4 a : Z.land a 0x0F = a mod 16.
Proof. apply (land_low a 4). lia. Qed.
Lemma mask3 a : Z.land a 0x07 = a mod 8.
Proof. apply (land_low a 3). lia. Qed.

Lemma lead_cont r : 0 <= r < 64 -> Z.lor 0x80 r = 128 + r.
Proof. intros H. apply (lor_field 2 r 6); lia. Qed.
Lemma lead2 q : 0 <= q < 32 -> Z.lor 0xC0 q = 192 + q.
Proof. intros H. apply (lor_field 6 q 5); lia. Qed.
Lemma lead3 q : 0 <= q < 16 -> Z.lor 0xE0 q = 224 + q.
Proof. intros H. apply (lor_field 14 q 4); lia. Qed.
Lemma lead4 q : 0 <= q < 8 -> Z.lor 0xF0 q = 240 + q.
Proof. intros H. apply (lor_field 30 q 3); lia. Qed.

Lemma join a b k :
  0 <= k -> 0 <= b < 2 ^ k -> Z.lor (Z.shiftl a k) b = a * 2 ^ k + b.
Proof. intros Hk Hb. rewrite shiftl_lit by lia. apply lor_field; lia. Qed.

(** The octets of a code point, as numbers. *)
Lemma cont_byte v : b2z (z2b (Z.lor 0x80 (Z.land v 0x3F))) = 128 + v mod 64.
Proof.
  rewrite mask6, lead_cont by lia. apply b2z_z2b. lia.
Qed.

Lemma decode1 b0 rest :
  b2z b0 < 0x80 ->
  utf8_decode (b0 :: rest) = bind (utf8_decode rest) (fun s => Ok (b2z b0 :: s)).
Proof.
  intros H. cbn [utf8_decode].
  destruct (Z.ltb_spec (b2z b0) 0x80); [reflexivity|lia].
Qed.

Lemma decode2 b0 b1 rest q r :
  b2z b0 = 192 + q -> 2 <= q < 32 -> b2z b1 = 128 + r -> 0 <= r < 64 ->
  utf8_decode (b0 :: b1 :: rest) =
    bind (utf8_decode rest) (fun s => Ok (q * 64 + r :: s)).
Proof.
  intros E0 Hq E1 Hr. cbn [utf8_decode]. rewrite E0, E1.
  unfold in_range, is_cont, cont.
  destruct (Z.ltb_spec (192 + q) 0x80); [lia|].
  destruct (Z.leb_spec 0xC2 (192 + q)); [|lia].
  destruct (Z.leb_spec (192 + q) 0xDF); [|lia].
  destruct (Z.leb_spec 0x80 (128 + r)); [|lia].
  destruct (Z.leb_spec (128 + r) 0xBF); [|lia].
  cbn [andb]. rewrite mask5, mask6.
  rewrite (join _ _ 6) by lia.
  replace ((192 + q) mod 32 * 2 ^ 6 + (128 + r) mod 64) with (q * 64 + r)
    by lia.
  reflexivity.
Qed.

Lemma decode3 b0 b1 b2 rest p q r :
  b2z b0 = 224 + p -> 0 <= p < 16 ->
  b2z b1 = 128 + q -> 0 <= q < 64 ->
  b2z b2 = 128 + r -> 0 <= r < 64 ->
  (p = 0 -> 32 <= q) -> (p = 13 -> q < 32) ->
  utf8_decode (b0 :: b1 :: b2 :: rest) =
    bind (utf8_decode rest) (fun s => Ok (p * 4096 + q * 64 + r :: s)).
Proof.
  intros E0 Hp E1 Hq E2 Hr Hlo Hhi. cbn [utf8_decode]. rewrite E0, E1, E2.
  unfold in_range, is_cont, cont.
  destruct (Z.ltb_spec (224 + p) 0x80); [lia|].
  destruct (Z.leb_spec 0xC2 (224 + p)); [|lia].
  destruct (Z.leb_spec (224 + p) 0xDF); [lia|].
  destruct (Z.leb_spec 0xE0 (224 + p)); [|lia].
  destruct (Z.leb_spec (224 + p) 0xEF); [|lia].
  cbn [andb].
  destruct (Z.eqb_spec (224 + p) 0xE0); destruct (Z.eqb_spec (224 + p) 0xED);
    try lia.
  all: repeat match goal with
         | |- context [?a <=? ?b] => destruct (Z.leb_spec a b); try lia
         end.
  all: cbn [andb]; rewrite mask4, !mask6.
  all: rewrite (join _ _ 6), (join _ _ 12) by lia.
  all: match goal with
       | |- context [Ok (?v :: _)] =>
           replace v with (p * 4096 + q * 64 + r) by lia
       end; reflexivity.
Qed.

Lemma decode4 b0 b1 b2 b3 rest o p q r :
  b2z b0 = 240 + o -> 0 <= o <= 4 ->
  b2z b1 = 128 + p -> 0 <= p < 64 ->
  b2z b2 = 128 + q -> 0 <= q < 64 ->
  b2z b3 = 128 + r -> 0 <= r < 64 ->
  (o = 0 -> 16 <= p) -> (o = 4 -> p < 16) ->
  utf8_decode (b0 :: b1 :: b2 :: b3 :: rest) =
    bind (utf8_decode rest)
         (fun s => Ok (o * 262144 + p * 4096 + q * 64 + r :: s)).
Proof.
  intros E0 Ho E1 Hp E2 Hq E3 Hr Hlo Hhi.
  cbn [utf8_decode]. rewrite E0, E1, E2, E3.
  unfold in_range, is_cont, cont.
  destruct (Z.ltb_spec (240 + o) 0x80); [lia|].
  destruct (Z.leb_spec 0xC2 (240 + o)); [|lia].
  destruct (Z.leb_spec (240 + o) 0xDF); [lia|].
  destruct (Z.leb_spec 0xE0 (240 + o)); [|lia].
  destruct (Z.leb_spec (240 + o) 0xEF); [lia|].
  destruct (Z.leb_spec 0xF0 (240 + o)); [|lia].
  destruct (Z.leb_spec (240 + o) 0xF4); [|lia].
  cbn [andb].
  destruct (Z.eqb_spec (240 + o) 0xF0); destruct (Z.eqb_spec (240 + o) 0xF4);
    try lia.
  all: repeat match goal with
         | |- context [?a <=? ?b] => destruct (Z.leb_spec a b); try lia
         end.
  all: cbn [andb]; rewrite mask3, !mask6.
  all: rewrite (join _ _ 6), (join _ _ 12), (join _ _ 18) by lia.
  all: match goal with
       | |- context [Ok (?v :: _)] =>
           replace v with (o * 262144 + p * 4096 + q * 64 + r) by lia
       end; reflexivity.
Qed.

End Utf8Facts.

Lemma utf8_decode_cp c bs rest :
  utf8_encode_cp c = Some bs ->
  utf8_decode (bs ++ rest) = bind (utf8_decode rest) (fun s => Ok (c :: s)).
Proof.
  unfold utf8_encode_cp, is_surrogate.
  destruct (Z.ltb_spec c 0); [discriminate|].
  destruct (Z.ltb_spec c 0x80).
  { intros [= <-]. cbn [app].
    rewrite Utf8Facts.decode1; rewrite b2z_z2b by lia; [reflexivity|lia]. }
  destruct (Z.ltb_spec c 0x800).
  { intros [= <-]. cbn [app].
    rewrite (Utf8Facts.decode2 _ _ rest (c / 64) (c mod 64)); try lia.
    - replace (c / 64 * 64 + c mod 64) with c by lia. reflexivity.
    - rewrite shiftr_lit, Utf8Facts.lead2 by lia. apply b2z_z2b. lia.
    - apply Utf8Facts.cont_byte. }
  destruct (Z.ltb_spec c 0x10000).
  { destruct (Z.leb_spec 0xD800 c); destruct (Z.leb_spec c 0xDFFF);
      cbn [andb]; try discriminate.
    all: intros [= <-]; cbn [app].
    all: rewrite (Utf8Facts.decode3 _ _ _ rest
                    (c / 4096) ((c / 64) mod 64) (c mod 64)); try lia.
    all: try (replace (c / 4096 * 4096 + (c / 64) mod 64 * 64 + c mod 64)
                with c by lia; reflexivity).
    all: try (rewrite shiftr_lit, Utf8Facts.lead3 by lia; apply b2z_z2b; lia).
    all: try (rewrite shiftr_lit by lia; apply Utf8Facts.cont_byte).
    all: apply Utf8Facts.cont_byte. }
  destruct (Z.ltb_spec c 0x110000); [|discriminate].
  intros [= <-]. cbn [app].
  rewrite (Utf8Facts.decode4 _ _ _ _ rest
             (c / 262144) ((c / 4096) mod 64) ((c / 64) mod 64) (c mod 64));
    try lia.
  - replace (c / 262144 * 262144 + (c / 4096) mod 64 * 4096
             + (c / 64) mod 64 * 64 + c mod 64) with c by lia.
    reflexivity.
  - rewrite shiftr_lit, Utf8Facts.lead4 by lia. apply b2z_z2b. lia.
  - rewrite shiftr_lit by lia. apply Utf8Facts.cont_byte.
  - rewrite shiftr_lit by lia. apply Utf8Facts.cont_byte.
  - apply Utf8Facts.cont_byte.
Qed.

(** Every string that has a UTF-8 encoding is decoded back from it. *)
Lemma utf8_roundtrip s : forall b,
  utf8_encode s = Ok b -> utf8_decode b = Ok s.
Proof.
  induction s as [|c s IH]; intros b; cbn [utf8_encode].
  - intros [= <-]. reflexivity.
  - destruct (utf8_encode_cp c) as [bs|] eqn:E; [|discriminate].
    destruct (utf8_encode s) as [r|]; [|discriminate].
    cbn [bind]. intros [= <-].
    rewrite (utf8_decode_cp c bs r E), (IH r eq_refl). reflexivity.
Qed.

(** ** Slices and the header of an encoded record *)

Lemma clamp_inside {A} (l : list A) i :
  0 <= i <= len l -> clamp l i = Z.to_nat i.
Proof.
  intros H. unfold clamp. destruct (Z.ltb_spec i 0); [lia|]. f_equal. lia.
Qed.

Lemma slice_to_end {A} (l : list A) a :
  0 <= a <= len l -> slice l a (len l) = skipn (Z.to_nat a) l.
Proof.
  intros H. unfold slice.
  rewrite (clamp_inside l a H), (clamp_inside l (len l)) by lia.
  unfold len. rewrite Nat2Z.id, firstn_all. reflexivity.
Qed.

Lemma slice_payload {A} (h0 h1 : A) (b : list A) :
  slice (h0 :: h1 :: b) 2 (len (h0 :: h1 :: b)) = b.
Proof.
  rewrite slice_to_end; [reflexivity|].
  unfold len. cbn [List.length]. lia.
Qed.

Lemma tlv_type_range t : 0 <= tlv_type t < 128.
Proof.
  unfold tlv_type. destruct (tlv_attrs t); cbv; split; congruence.
Qed.

Lemma check_header_encoded t :
  tlv_len t < 512 -> check_header (tlv_type t) (TLV_bytes t) = Ok (tlv_len t).
Proof.
  intros Hn. pose proof (tlv_type_range t) as Ht.
  assert (Hl : 0 <= tlv_len t < 512)
    by (pose proof (len_nonneg (tlv_bytes t)); unfold tlv_len in *; lia).
  unfold check_header, TLV_bytes.
  set (w := Z.lor (Z.shiftl (tlv_type t) 9) (tlv_len t)).
  set (data := z2b (Z.shiftr w 8) :: z2b (Z.land w 255) :: tlv_bytes t).
  assert (Hd : len data = tlv_len t + 2).
  { unfold data, len, tlv_len, len. cbn [List.length]. lia. }
  destruct (Z.ltb_spec (len data) 2); [lia|].
  unfold data at 1. rewrite LoopFacts.getitem_cons_0. cbn [bind].
  unfold w at 1. rewrite (header_type (tlv_type t) (tlv_len t) Ht Hl).
  rewrite Z.eqb_refl. cbn [negb].
  unfold data at 1. rewrite LoopFacts.getitem_cons_1. cbn [bind].
  unfold w. rewrite (header_length (tlv_type t) (tlv_len t) Ht Hl).
  rewrite Hd, Z.eqb_refl. reflexivity.
Qed.

(** ** C8: the string TLVs *)

Section StringTLV.

Variable ty : Z.
Variable cls : str -> attrs.
Hypothesis cls_type : forall s b, tlv_type (mkTLV (cls s) b) = ty.

(** The constructor checks no length: it succeeds on every string that
    has a UTF-8 encoding. *)
Lemma string_init_ok s b :
  utf8_encode s = Ok b -> string_init cls s = Ok (mkTLV (cls s) b).
Proof. intros E. unfold string_init. rewrite E. reflexivity. Qed.

Lemma string_init_only s t :
  string_init cls s = Ok t ->
  exists b, utf8_encode s = Ok b /\ t = mkTLV (cls s) b.
Proof.
  unfold string_init. destruct (utf8_encode s) as [b|]; [|discriminate].
  intros [= <-]. exists b. auto.
Qed.

Lemma string_roundtrip s b :
  utf8_encode s = Ok b -> len b < 512 ->
  string_from_bytes ty cls (TLV_bytes (mkTLV (cls s) b)) =
    Ok (mkTLV (cls s) b).
Proof.
  intros E Hl. unfold string_from_bytes.
  rewrite <- (cls_type s b) at 1.
  rewrite check_header_encoded by exact Hl. cbn [bind].
  unfold TLV_bytes at 1 2. cbn [tlv_bytes].
  rewrite slice_payload, (utf8_roundtrip s b E). cbn [bind].
  apply string_init_ok. exact E.
Qed.

End StringTLV.

(** C8 (fails on the code).  The classes of [string_tlv.py] document
    their string as 0 - 255 byte long.  A string of 256 letters [a] has a
    UTF-8 encoding of 256 octets, and the constructors of the three string
    TLVs accept it; nothing refuses it later either, the TLV is encoded
    and decoded back. *)
Lemma string_256_accepted :
  utf8_encode (repeat 0x61 256) = Ok (repeat Byte.x61 256) /\
  len (repeat Byte.x61 256) = 256 /\
  is_ok (PortDescriptionTLV.init (repeat 0x61 256)) = true /\
  is_ok (SystemNameTLV.init (repeat 0x61 256)) = true /\
  is_ok (SystemDescriptionTLV.init (repeat 0x61 256)) = true /\
  PortDescriptionTLV.from_bytes
    (TLV_bytes (mkTLV (PortDescription (repeat 0x61 256))
                      (repeat Byte.x61 256))) =
    Ok (mkTLV (PortDescription (repeat 0x61 256)) (repeat Byte.x61 256)).
Proof.
  repeat split; vm_compute; reflexivity.
Qed.

(** The string TLVs inside their documented range: the constructors of
    PortDescription, SystemName and SystemDescription return the TLV with
    the string and its UTF-8 octets (they check no length, which is the
    defect above), and for every string whose encoding is 0 to 255 octets
    long the TLV round-trips: decoding its encoding gives the same TLV. *)
Theorem string_tlv_construct_roundtrip (s : str) (b : bytes) :
  utf8_encode s = Ok b ->
  (PortDescriptionTLV.init s = Ok (mkTLV (PortDescription s) b) /\
   SystemNameTLV.init s = Ok (mkTLV (SystemName s) b) /\
   SystemDescriptionTLV.init s = Ok (mkTLV (SystemDescription s) b)) /\
  (0 <= len b <= 255 ->
   PortDescriptionTLV.from_bytes (TLV_bytes (mkTLV (PortDescription s) b)) =
     Ok (mkTLV (PortDescription s) b) /\
   SystemNameTLV.from_bytes (TLV_bytes (mkTLV (SystemName s) b)) =
     Ok (mkTLV (SystemName s) b) /\
   SystemDescriptionTLV.from_bytes
     (TLV_bytes (mkTLV (SystemDescription s) b)) =
     Ok (mkTLV (SystemDescription s) b)).
Proof.
  intros E. split.
  - repeat split; apply string_init_ok; exact E.
  - intros Hl. repeat split;
      apply string_roundtrip; try exact E; try lia; reflexivity.
Qed.

(** The round trip at the string ["eth0"]. *)
Lemma string_tlv_construct_roundtrip_witness :
  (PortDescriptionTLV.init Scenario.eth0 =
     Ok (mkTLV (PortDescription Scenario.eth0)
               (map z2b [0x65; 0x74; 0x68; 0x30])) /\
   SystemNameTLV.init Scenario.eth0 =
     Ok (mkTLV (SystemName Scenario.eth0)
               (map z2b [0x65; 0x74; 0x68; 0x30])) /\
   SystemDescriptionTLV.init Scenario.eth0 =
     Ok (mkTLV (SystemDescription Scenario.eth0)
               (map z2b [0x65; 0x74; 0x68; 0x30]))) /\
  (0 <= len (map z2b [0x65; 0x74; 0x68; 0x30]) <= 255 ->
   PortDescriptionTLV.from_bytes
     (TLV_bytes (mkTLV (PortDescription Scenario.eth0)
                       (map z2b [0x65; 0x74; 0x68; 0x30]))) =
     Ok (mkTLV (PortDescription Scenario.eth0)
               (map z2b [0x65; 0x74; 0x68; 0x30])) /\
   SystemNameTLV.from_bytes
     (TLV_bytes (mkTLV (SystemName Scenario.eth0)
                       (map z2b [0x65; 0x74; 0x68; 0x30]))) =
     Ok (mkTLV (SystemName Scenario.eth0)
               (map z2b [0x65; 0x74; 0x68; 0x30])) /\
   SystemDescriptionTLV.from_bytes
     (TLV_bytes (mkTLV (SystemDescription Scenario.eth0)
                       (map z2b [0x65; 0x74; 0x68; 0x30]))) =
     Ok (mkTLV (SystemDescription Scenario.eth0)
               (map z2b [0x65; 0x74; 0x68; 0x30]))).
Proof.
  apply (string_tlv_construct_roundtrip Scenario.eth0). reflexivity.
Defined.

(** ** C7: the address family of a network address *)

(** What the Chassis-ID decoder does check: an address of four octets
    under family 2, or of sixteen under family 1, or of another length,
    is refused. *)
Lemma chassis_family_mismatch_refused :
  ChassisIdTLV.from_bytes
    (map z2b [0x02; 0x06; 0x05; 0x02; 0xc0; 0x00; 0x02; 0x01]) =
    Raise ValueError /\
  ChassisIdTLV.from_bytes
    (map z2b [0x02; 0x07; 0x05; 0x01; 0xc0; 0x00; 0x02; 0x01; 0x00]) =
    Raise ValueError.
Proof. split; vm_compute; reflexivity. Qed.

(** C7 (fails on the code).  A Chassis-ID network address with the family
    octet 3 and four address octets is decoded as an IPv4 address; a
    ManagementAddress with the family octet 9, and one with the family
    octet 2 (IPv6) in front of four address octets, are decoded as well:
    none of them raises. *)
Theorem unknown_family_accepted :
  ChassisIdTLV.from_bytes Scenario.chassis_family_3 =
    Ok (mkTLV (ChassisId NETWORK_ADDRESS (IdIP Scenario.ipv4_192_0_2_1))
              (map z2b [0x05; 0x01; 0xc0; 0x00; 0x02; 0x01])) /\
  ManagementAddressTLV.from_bytes Scenario.mgmt_family_9 =
    Ok (mkTLV (ManagementAddress Scenario.ipv4_192_0_2_1 4 IF_INDEX None)
              (map z2b [0x05; 0x01; 0xc0; 0x00; 0x02; 0x01;
                        0x02; 0x00; 0x00; 0x00; 0x04; 0x00])) /\
  ManagementAddressTLV.from_bytes Scenario.mgmt_family_2_ipv4 =
    Ok (mkTLV (ManagementAddress Scenario.ipv4_192_0_2_1 4 IF_INDEX None)
              (map z2b [0x05; 0x01; 0xc0; 0x00; 0x02; 0x01;
                        0x02; 0x00; 0x00; 0x00; 0x04; 0x00])).
Proof. repeat split; vm_compute; reflexivity. Qed.

(** ** C3: a frame whose payload does not parse *)


(** C3 (fails on the code).  A frame from a neighbour to the LLDP
    multicast address with ethertype 0x88CC passes the three checks; its
    payload starts with a TTL record, so [LLDPDU.from_bytes] raises
    [ValueError].  The agent writes nothing for it and the exception
    leaves [run]: the loop ends, only the socket is closed, and the good
    frame that follows is never read (received alone, it is logged). *)
Theorem parse_error_ends_run :
  LLDPDU.from_bytes (slice Scenario.bad_frame 14 (len Scenario.bad_frame)) =
    Some (Raise ValueError) /\
  LLDPAgent.receive Scenario.agent Scenario.bad_frame =
    Some (Raise ValueError) /\
  LLDPAgent.run Scenario.agent false (float_of_int 0)
    [LLDPAgent.mkArrival (Some Scenario.bad_frame) (float_of_int 0);
     LLDPAgent.mkArrival (Some Scenario.good_frame) (float_of_int 0)] =
    Some (LLDPAgent.Escaped ValueError, [LLDPAgent.Closed]) /\
  LLDPAgent.run Scenario.agent false (float_of_int 0)
    [LLDPAgent.mkArrival (Some Scenario.good_frame) (float_of_int 0)] =
    Some (LLDPAgent.Interrupted,
          [LLDPAgent.Logged Scenario.good_lldpdu; LLDPAgent.Closed]).
Proof. repeat split; vm_compute; reflexivity. Qed.

(** ** C9: what [announce] sends *)

(** The constructor of [LLDPDU] accepts a Chassis-ID, a Port-ID and a TTL
    in this order when they fit into 1500 octets. *)
Lemma init_mandatory st1 v1 b1 st2 v2 b2 v3 b3 :
  let c := mkTLV (ChassisId st1 v1) b1 in
  let p := mkTLV (PortId st2 v2) b2 in
  let t := mkTLV (TTL v3) b3 in
  len (TLV_bytes c) + len (TLV_bytes p) + len (TLV_bytes t) <= 1500 ->
  LLDPDU.init [c; p; t] =
    Ok (LLDPDU.mk (0 + len (TLV_bytes c) + len (TLV_bytes p)
                   + len (TLV_bytes t)) [c; p; t]).
Proof.
  intros c p t Hs.
  pose proof (len_nonneg (TLV_bytes c)). pose proof (len_nonneg (TLV_bytes p)).
  pose proof (len_nonneg (TLV_bytes t)).
  unfold LLDPDU.init, LLDPDU.append_all, LLDPDU.mbind.
  rewrite AppendFacts.append_eq. unfold Inv.refuses at 1.
  cbn [LLDPDU.length LLDPDU.tlvs LLDPDU.any existsb orb].
  destruct (Z.gtb_spec (len (TLV_bytes c) + 0) 1500); [lia|].
  change (tlv_type c =? Type_.CHASSIS_ID) with true. cbv iota. cbn [orb app].
  rewrite AppendFacts.append_eq. unfold Inv.refuses at 1.
  cbn [LLDPDU.length LLDPDU.tlvs LLDPDU.any existsb orb].
  destruct (Z.gtb_spec (len (TLV_bytes p) + (0 + len (TLV_bytes c))) 1500);
    [lia|].
  change (tlv_type p =? Type_.CHASSIS_ID) with false.
  change (tlv_type p =? Type_.PORT_ID) with true.
  change (LLDPDU.is_end c) with false. change (LLDPDU.is_port c) with false.
  change (LLDPDU.is_chassis c) with true.
  cbv iota. cbn [orb negb app].
  rewrite AppendFacts.append_eq. unfold Inv.refuses at 1.
  cbn [LLDPDU.length LLDPDU.tlvs LLDPDU.any existsb orb].
  destruct (Z.gtb_spec
              (len (TLV_bytes t) + (0 + len (TLV_bytes c) + len (TLV_bytes p)))
              1500); [lia|].
  change (tlv_type t =? Type_.CHASSIS_ID) with false.
  change (tlv_type t =? Type_.PORT_ID) with false.
  change (tlv_type t =? Type_.TTL) with true.
  change (LLDPDU.is_end c) with false. change (LLDPDU.is_end p) with false.
  change (LLDPDU.is_ttl c) with false. change (LLDPDU.is_ttl p) with false.
  change (LLDPDU.is_chassis c) with true.
  change (LLDPDU.is_port c) with false. change (LLDPDU.is_port p) with true.
  cbv iota. cbn [orb negb app]. reflexivity.
Qed.

Lemma pack_6s_six mac : len mac = 6 -> LLDPAgent.pack_6s mac = mac.
Proof.
  intros H. unfold LLDPAgent.pack_6s. unfold len in H.
  rewrite firstn_app. replace (6 - List.length mac)%nat with 0%nat by lia.
  rewrite firstn_all2 by lia. cbn [firstn]. apply app_nil_r.
Qed.

(** C9.  For a MAC address of six octets and an interface name whose
    UTF-8 encoding has at most 255 octets, [announce] builds the LLDPDU
    of exactly ChassisId(MAC address, local MAC), PortId(interface name,
    name) and TTL(60), and sends the frame made of the destination
    01:80:c2:00:00:0e, the local MAC as source, the ethertype 0x88CC and
    the encoded LLDPDU.  With the MAC 02:04:df:88:a2:b4 and the name
    "eth0" the LLDPDU is encoded as
    02 07 04 02 04 df 88 a2 b4 04 05 06 65 74 68 30 06 02 00 3c, and a
    turn of the loop in which the announcement is due sends that frame. *)
Theorem announce_frame :
  (forall self b,
      len (LLDPAgent.mac_address self) = 6 ->
      utf8_encode (LLDPAgent.interface_name self) = Ok b ->
      len b <= 255 ->
      exists lldpdu,
        LLDPAgent.announce_lldpdu self = Ok lldpdu /\
        LLDPDU.tlvs lldpdu =
          [mkTLV (ChassisId MAC_ADDRESS (IdBytes (LLDPAgent.mac_address self)))
                 (z2b 4 :: LLDPAgent.mac_address self);
           mkTLV (PortId INTERFACE_NAME (IdStr (LLDPAgent.interface_name self)))
                 (z2b 6 :: b);
           mkTLV (TTL 60) (map z2b [0x00; 0x3c])] /\
        LLDPAgent.announce self =
          Ok (map z2b [0x01; 0x80; 0xc2; 0x00; 0x00; 0x0e]
              ++ LLDPAgent.mac_address self
              ++ map z2b [0x88; 0xCC]
              ++ LLDPDU.to_bytes lldpdu)) /\
  LLDPAgent.announce_lldpdu Scenario.agent = Ok Scenario.lldpdu /\
  LLDPDU.to_bytes Scenario.lldpdu = Scenario.payload /\
  LLDPAgent.run Scenario.agent false (float_of_int 0)
    [LLDPAgent.mkArrival None (float_of_int 2)] =
    Some (LLDPAgent.Interrupted,
          [LLDPAgent.Sent
             (map z2b [0x01; 0x80; 0xc2; 0x00; 0x00; 0x0e]
              ++ Scenario.local_mac ++ map z2b [0x88; 0xCC]
              ++ Scenario.payload);
           LLDPAgent.Closed]).
Proof.
  split; [|repeat split; vm_compute; reflexivity].
  intros self b Hm Hn Hb.
  assert (El : LLDPAgent.announce_lldpdu self =
               LLDPDU.init
                 [mkTLV (ChassisId MAC_ADDRESS
                           (IdBytes (LLDPAgent.mac_address self)))
                        (z2b 4 :: LLDPAgent.mac_address self);
                  mkTLV (PortId INTERFACE_NAME
                           (IdStr (LLDPAgent.interface_name self)))
                        (z2b 6 :: b);
                  mkTLV (TTL 60) (map z2b [0x00; 0x3c])]).
  { unfold LLDPAgent.announce_lldpdu, ChassisIdTLV.init, PortIdTLV.init,
      identifier_init.
    change (Subtype_value MAC_ADDRESS =? Subtype_value MAC_ADDRESS) with true.
    change (Subtype_value INTERFACE_NAME =? Subtype_value MAC_ADDRESS)
      with false.
    cbv iota. cbn [bind]. rewrite Hm.
    change (negb (6 =? 6)) with false. cbv iota. cbn [bind].
    change (int_to_bytes (Subtype_value MAC_ADDRESS) 1) with (Ok [z2b 4]).
    change (int_to_bytes (Subtype_value INTERFACE_NAME) 1) with (Ok [z2b 6]).
    cbn [bind]. rewrite Hn. cbn [bind].
    change (TTLTLV.init 60) with (Ok (mkTLV (TTL 60) (map z2b [0x00; 0x3c]))).
    cbn [bind app]. reflexivity. }
  rewrite init_mandatory in El.
  - eexists. split; [exact El|]. split; [reflexivity|].
    unfold LLDPAgent.announce. rewrite El. cbn [bind].
    rewrite (pack_6s_six _ Hm).
    change (LLDPAgent.pack_6s LLDPAgent.dst_addr)
      with (map z2b [0x01; 0x80; 0xc2; 0x00; 0x00; 0x0e]).
    change (be_bytes 2 LLDPAgent.ethertype) with (map z2b [0x88; 0xCC]).
    rewrite <- !app_assoc. reflexivity.
  - unfold TLV_bytes, len in *. cbn [tlv_bytes List.length map] in *. lia.
Qed.

(** The general part at the agent of scenario S1. *)
Lemma announce_frame_witness :
  exists lldpdu,
    LLDPAgent.announce_lldpdu Scenario.agent = Ok lldpdu /\
    LLDPDU.tlvs lldpdu =
      [mkTLV (ChassisId MAC_ADDRESS
                (IdBytes (LLDPAgent.mac_address Scenario.agent)))
             (z2b 4 :: LLDPAgent.mac_address Scenario.agent);
       mkTLV (PortId INTERFACE_NAME
                (IdStr (LLDPAgent.interface_name Scenario.agent)))
             (z2b 6 :: map z2b [0x65; 0x74; 0x68; 0x30]);
       mkTLV (TTL 60) (map z2b [0x00; 0x3c])] /\
    LLDPAgent.announce Scenario.agent =
      Ok (map z2b [0x01; 0x80; 0xc2; 0x00; 0x00; 0x0e]
          ++ LLDPAgent.mac_address Scenario.agent
          ++ map z2b [0x88; 0xCC]
          ++ LLDPDU.to_bytes lldpdu).
Proof.
  apply (proj1 announce_frame Scenario.agent
           (map z2b [0x65; 0x74; 0x68; 0x30])).
  - reflexivity.
  - reflexivity.
  - vm_compute. discriminate.
Defined.

(** ** Reading inside a concatenation *)

Module Layout.

Lemma getitem_at (pre : bytes) x post :
  getitem (pre ++ x :: post) (len pre) = Ok (b2z x).
Proof.
  unfold getitem. pose proof (len_nonneg pre).
  destruct (Z.ltb_spec (len pre) 0); [lia|].
  destruct (Z.ltb_spec (len pre) 0); [lia|].
  unfold len. rewrite Nat2Z.id, nth_error_app2 by lia.
  rewrite Nat.sub_diag. reflexivity.
Qed.

Lemma getitem_at' (pre : bytes) x post i :
  i = len pre -> getitem (pre ++ x :: post) i = Ok (b2z x).
Proof. intros ->. apply getitem_at. Qed.

Lemma slice_at {A} (pre mid post : list A) a b :
  a = len pre -> b = len pre + len mid ->
  slice (pre ++ mid ++ post) a b = mid.
Proof.
  intros -> ->. unfold slice.
  pose proof (len_nonneg pre). pose proof (len_nonneg mid).
  pose proof (len_nonneg post).
  rewrite !clamp_inside by (rewrite !len_app; lia).
  replace (Z.to_nat (len pre + len mid))
    with (List.length (pre ++ mid)) by (rewrite length_app; unfold len; lia).
  rewrite app_assoc, firstn_app, firstn_all, Nat.sub_diag.
  cbn [firstn]. rewrite app_nil_r.
  unfold len. rewrite Nat2Z.id, skipn_app, skipn_all, Nat.sub_diag.
  reflexivity.
Qed.

Lemma unpack_at n (pre mid post : bytes) off :
  off = len pre -> List.length mid = n ->
  unpack_from n (pre ++ mid ++ post) off = Ok (be_value mid).
Proof.
  intros -> Hn. unfold unpack_from.
  pose proof (len_nonneg pre). pose proof (len_nonneg post).
  destruct (Z.ltb_spec (len pre) 0); [lia|].
  destruct (Z.ltb_spec (len (pre ++ mid ++ post)) (len pre + Z.of_nat n)).
  { rewrite !len_app in *. unfold len in *. lia. }
  cbn [orb]. unfold len. rewrite Nat2Z.id.
  rewrite skipn_app, skipn_all, Nat.sub_diag. cbn [skipn app].
  rewrite firstn_app, <- Hn, firstn_all, Nat.sub_diag. cbn [firstn].
  rewrite app_nil_r. reflexivity.
Qed.

Lemma be_bytes_length n v : List.length (be_bytes n v) = n.
Proof.
  revert v. induction n as [|n IH]; intros v; cbn [be_bytes].
  - reflexivity.
  - rewrite length_app, IH. cbn. lia.
Qed.

Lemma be_value_be_bytes n : forall v,
  0 <= v < 256 ^ Z.of_nat n -> be_value (be_bytes n v) = v.
Proof.
  induction n as [|n IH]; intros v Hv.
  - change (256 ^ Z.of_nat 0) with 1 in Hv. cbn. lia.
  - rewrite Nat2Z.inj_succ, Z.pow_succ_r in Hv by lia.
    cbn [be_bytes]. rewrite be_value_app.
    change (len [z2b v]) with 1. change (256 ^ 1) with 256.
    rewrite IH by lia.
    replace (be_value [z2b v]) with (b2z (z2b v)) by (unfold be_value; cbn; lia).
    unfold z2b.
    destruct (Byte.of_N (Z.to_N (v mod 256))) as [b|] eqn:E.
    + apply Byte.to_of_N in E. unfold b2z. rewrite E. lia.
    + apply Byte.of_N_None_iff in E. lia.
Qed.

End Layout.

(** ** P1: a well-formed record is decoded back from its encoding *)

Module RoundTrip.
Import Inv.

Lemma TLV_bytes_split t :
  exists h0 h1, TLV_bytes t = [h0; h1] ++ tlv_bytes t.
Proof. unfold TLV_bytes. eexists _, _. reflexivity. Qed.

(** The identifier TLVs. *)
Section Identifier.

Variable ty : Z.
Variable cls : Subtype -> idval -> attrs.
Hypothesis cls_type : forall st v b, tlv_type (mkTLV (cls st v) b) = ty.

Lemma identifier_mac b :
  len b = 6 ->
  identifier_init cls MAC_ADDRESS (IdBytes b) =
    Ok (mkTLV (cls MAC_ADDRESS (IdBytes b)) (z2b 4 :: b)).
Proof.
  intros H. unfold identifier_init.
  change (Subtype_value MAC_ADDRESS =? Subtype_value MAC_ADDRESS) with true.
  cbv iota. cbn [bind]. rewrite H. reflexivity.
Qed.

Lemma identifier_len st v t :
  wf_id st v -> identifier_init cls st v = Ok t -> tlv_len t <= 511.
Proof.
  intros Hw Hi. unfold identifier_init, bind in Hi.
  destruct Hw as [b Hb|a Ha|st s b Hm Hn He Hl].
  - change (Subtype_value MAC_ADDRESS =? Subtype_value MAC_ADDRESS)
      with true in Hi. cbv iota in Hi. rewrite Hb in Hi.
    change (negb (6 =? 6)) with false in Hi. cbv iota in Hi.
    change (int_to_bytes (Subtype_value MAC_ADDRESS) 1) with (Ok [z2b 4]) in Hi.
    injection Hi as <-. unfold tlv_len, len in *.
    cbn [tlv_bytes List.length app] in *. lia.
  - change (Subtype_value NETWORK_ADDRESS =? Subtype_value MAC_ADDRESS)
      with false in Hi. cbv iota in Hi.
    change (int_to_bytes (Subtype_value NETWORK_ADDRESS) 1)
      with (Ok [z2b 5]) in Hi.
    destruct a as [p|p]; cbn [wf_ip] in Ha;
      [change (int_to_bytes 1 1) with (Ok [z2b 1]) in Hi
      |change (int_to_bytes 2 1) with (Ok [z2b 2]) in Hi];
      injection Hi as <-; unfold tlv_len, len in *;
      cbn [tlv_bytes List.length app] in *; lia.
  - rewrite He in Hi.
    destruct (Subtype_value st =? Subtype_value MAC_ADDRESS);
      [destruct (negb (len s =? 6)); [discriminate|]|];
      (destruct (int_to_bytes (Subtype_value st) 1) as [x|] eqn:Ex;
       [|discriminate]);
      injection Hi as <-;
      (assert (x = [z2b (Subtype_value st)])
        by (destruct st; cbv in Ex |- *; congruence)); subst x;
      unfold tlv_len, len in *; cbn [tlv_bytes List.length app] in *; lia.
Qed.

Lemma identifier_roundtrip st v t :
  wf_id st v -> identifier_init cls st v = Ok t ->
  identifier_from_bytes ty cls (TLV_bytes t) = Ok t.
Proof.
  intros Hw Hi. unfold identifier_from_bytes.
  destruct Hw as [b Hb|a Ha|st s b Hm Hn He Hl].
  - rewrite identifier_mac in Hi by exact Hb. injection Hi as <-.
    rewrite <- (cls_type MAC_ADDRESS (IdBytes b) (z2b 4 :: b)) at 1.
    rewrite check_header_encoded
      by (unfold tlv_len, len in *; cbn [tlv_bytes List.length]; lia).
    cbn [bind].
    destruct (TLV_bytes_split (mkTLV (cls MAC_ADDRESS (IdBytes b)) (z2b 4 :: b)))
      as (h0 & h1 & ->). cbn [tlv_bytes].
    rewrite (Layout.getitem_at' [h0; h1] (z2b 4) b 2 eq_refl). cbn [bind].
    change (b2z (z2b 4) =? Subtype_value MAC_ADDRESS) with true. cbv iota.
    replace (tlv_len (mkTLV (cls MAC_ADDRESS (IdBytes b)) (z2b 4 :: b)))
      with 7 by (unfold tlv_len, len in *; cbn [tlv_bytes List.length]; lia).
    change (negb (7 =? 7)) with false. cbv iota.
    change (Subtype_of (b2z (z2b 4))) with (Ok MAC_ADDRESS). cbn [bind].
    change ([h0; h1] ++ z2b 4 :: b) with ([h0; h1; z2b 4] ++ b).
    rewrite slice_to_end
      by (rewrite len_app; pose proof (len_nonneg b);
          change (len [h0; h1; z2b 4]) with 3; lia).
    change (Z.to_nat 3) with 3%nat. cbn [app skipn].
    apply identifier_mac. exact Hb.
  - assert (Ei : exists f,
               (f = 1 /\ version a = 4 \/ f = 2 /\ version a = 6) /\
               t = mkTLV (cls NETWORK_ADDRESS (IdIP a))
                         (z2b 5 :: z2b f :: packed a)).
    { unfold identifier_init in Hi.
      change (Subtype_value NETWORK_ADDRESS =? Subtype_value MAC_ADDRESS)
        with false in Hi. cbv iota in Hi. cbn [bind] in Hi.
      change (int_to_bytes (Subtype_value NETWORK_ADDRESS) 1)
        with (Ok [z2b 5]) in Hi. cbn [bind] in Hi.
      destruct a as [p|p]; cbn [bind] in Hi; injection Hi as <-;
        [exists 1|exists 2]; split; auto. }
    destruct Ei as (f & Hf & ->).
    rewrite <- (cls_type NETWORK_ADDRESS (IdIP a)
                  (z2b 5 :: z2b f :: packed a)) at 1.
    assert (Hp : len (packed a) = 4 /\ version a = 4 \/
                 len (packed a) = 16 /\ version a = 6).
    { destruct a; cbn in Ha |- *; auto. }
    rewrite check_header_encoded
      by (unfold tlv_len, len in *; cbn [tlv_bytes List.length]; lia).
    cbn [bind].
    destruct (TLV_bytes_split
                (mkTLV (cls NETWORK_ADDRESS (IdIP a))
                       (z2b 5 :: z2b f :: packed a))) as (h0 & h1 & ->).
    cbn [tlv_bytes].
    rewrite (Layout.getitem_at' [h0; h1] (z2b 5) (z2b f :: packed a) 2 eq_refl).
    cbn [bind].
    change (b2z (z2b 5) =? Subtype_value MAC_ADDRESS) with false.
    change (b2z (z2b 5) =? Subtype_value NETWORK_ADDRESS) with true.
    cbv iota.
    change ([h0; h1] ++ z2b 5 :: z2b f :: packed a)
      with ([h0; h1; z2b 5; z2b f] ++ packed a).
    rewrite slice_to_end
      by (rewrite len_app; pose proof (len_nonneg (packed a));
          change (len [h0; h1; z2b 5; z2b f]) with 4; lia).
    change (Z.to_nat 4) with 4%nat. cbn [app skipn].
    assert (Eip : ip_address (packed a) = Ok a).
    { unfold ip_address. destruct a as [p|p]; cbn in Ha |- *; rewrite Ha;
        reflexivity. }
    rewrite Eip. cbn [bind].
    change (getitem (h0 :: h1 :: z2b 5 :: z2b f :: packed a) 3)
      with (Ok (b2z (z2b f))).
    cbn [bind].
    change (Subtype_of (b2z (z2b 5))) with (Ok NETWORK_ADDRESS).
    destruct Hf as [[-> ->]|[-> ->]]; cbn [bind];
      change (b2z (z2b 1)) with 1; change (b2z (z2b 2)) with 2;
      cbn [Z.eqb Pos.eqb andb negb]; cbv iota.
    all: unfold identifier_init;
      change (Subtype_value NETWORK_ADDRESS =? Subtype_value MAC_ADDRESS)
        with false; cbv iota; cbn [bind];
      change (int_to_bytes (Subtype_value NETWORK_ADDRESS) 1) with (Ok [z2b 5]);
      cbn [bind]; destruct a as [p|p]; try discriminate; reflexivity.
  - assert (Ht : t = mkTLV (cls st (IdStr s)) (z2b (Subtype_value st) :: b) /\
                 (Subtype_value st =? Subtype_value MAC_ADDRESS) = false /\
                 (Subtype_value st =? Subtype_value NETWORK_ADDRESS) = false /\
                 0 <= Subtype_value st < 256 /\
                 Subtype_of (Subtype_value st) = Ok st).
    { unfold identifier_init in Hi.
      destruct st; try congruence;
        cbn [Subtype_value Z.eqb Pos.eqb] in Hi; cbv iota in Hi;
        cbn [bind] in Hi; rewrite He in Hi;
        repeat split; try reflexivity; try (cbn; lia);
        match type of Hi with
        | context [int_to_bytes ?n 1] =>
            change (int_to_bytes n 1) with (Ok [z2b n]) in Hi
        end; cbn [bind app] in Hi; cbn [Subtype_value]; congruence. }
    destruct Ht as (-> & Em & En & Hr & Est).
    rewrite <- (cls_type st (IdStr s) (z2b (Subtype_value st) :: b)) at 1.
    pose proof (len_nonneg b).
    rewrite check_header_encoded
      by (unfold tlv_len, len in *; cbn [tlv_bytes List.length]; lia).
    cbn [bind].
    destruct (TLV_bytes_split
                (mkTLV (cls st (IdStr s)) (z2b (Subtype_value st) :: b)))
      as (h0 & h1 & ->).
    cbn [tlv_bytes].
    rewrite (Layout.getitem_at' [h0; h1] _ b 2 eq_refl). cbn [bind].
    rewrite b2z_z2b by exact Hr. rewrite Em, En, Est. cbn [bind].
    change ([h0; h1] ++ z2b (Subtype_value st) :: b)
      with ([h0; h1; z2b (Subtype_value st)] ++ b).
    rewrite slice_to_end
      by (rewrite len_app;
          change (len [h0; h1; z2b (Subtype_value st)]) with 3; lia).
    change (Z.to_nat 3) with 3%nat. cbn [app skipn].
    rewrite (utf8_roundtrip s b He). cbn [bind].
    unfold identifier_init. rewrite Em. cbn [bind].
    replace (int_to_bytes (Subtype_value st) 1)
      with (Ok [z2b (Subtype_value st)] : res bytes)
      by (destruct st; reflexivity).
    cbn [bind]. rewrite He. reflexivity.
Qed.

End Identifier.

(** Fixed-width fields. *)

Lemma be_value_mod n : forall v,
  be_value (be_bytes n v) = v mod 256 ^ Z.of_nat n.
Proof.
  induction n as [|n IH]; intros v.
  - change (256 ^ Z.of_nat 0) with 1. rewrite Z.mod_1_r. reflexivity.
  - cbn [be_bytes]. rewrite be_value_app, IH.
    change (len [z2b v]) with 1. change (256 ^ 1) with 256.
    replace (be_value [z2b v]) with (b2z (z2b v))
      by (unfold be_value; cbn; lia).
    replace (b2z (z2b v)) with (v mod 256).
    2:{ unfold z2b.
        destruct (Byte.of_N (Z.to_N (v mod 256))) as [b|] eqn:E.
        - apply Byte.to_of_N in E. unfold b2z. rewrite E. lia.
        - apply Byte.of_N_None_iff in E. lia. }
    rewrite Nat2Z.inj_succ, Z.pow_succ_r by lia.
    rewrite (Z.rem_mul_r v 256 (256 ^ Z.of_nat n)) by lia. lia.
Qed.

Lemma be_bytes_4 v : be_bytes 4 v = be_bytes 2 (v / 65536) ++ be_bytes 2 v.
Proof.
  cbn [be_bytes app].
  replace (v / 256 / 256) with (v / 65536) by lia. reflexivity.
Qed.

Lemma ttl_roundtrip v t :
  TTLTLV.init v = Ok t -> TTLTLV.from_bytes (TLV_bytes t) = Ok t.
Proof.
  intros Hi.
  assert (Ht : 0 <= v < 65536 /\ t = mkTLV (TTL v) (be_bytes 2 v)).
  { unfold TTLTLV.init, int_to_bytes in Hi.
    destruct (Z.gtb_spec v 65535); [discriminate|].
    change (2 ^ (8 * Z.of_nat 2)) with 65536 in Hi.
    destruct (Z.ltb_spec v 0); [discriminate|].
    destruct (Z.leb_spec 65536 v); [discriminate|].
    cbn [orb bind] in Hi. injection Hi as <-. split; [lia|reflexivity]. }
  destruct Ht as (Hv & ->).
  unfold TTLTLV.from_bytes.
  change Type_.TTL with (tlv_type (mkTLV (TTL v) (be_bytes 2 v))) at 1.
  rewrite check_header_encoded by (vm_compute; reflexivity).
  cbn [bind]. change (tlv_len (mkTLV (TTL v) (be_bytes 2 v))) with 2.
  change (negb (2 =? 2)) with false. cbv iota.
  destruct (TLV_bytes_split (mkTLV (TTL v) (be_bytes 2 v))) as (h0 & h1 & ->).
  cbn [tlv_bytes].
  rewrite <- (app_nil_r (be_bytes 2 v)) at 1.
  rewrite (Layout.unpack_at 2 [h0; h1] (be_bytes 2 v) [] 2 eq_refl eq_refl).
  cbn [bind]. rewrite Layout.be_value_be_bytes by (change (256 ^ Z.of_nat 2) with 65536; lia).
  exact Hi.
Qed.

Lemma capabilities_roundtrip supported enabled t :
  SystemCapabilitiesTLV.init supported enabled = Ok t ->
  SystemCapabilitiesTLV.from_bytes (TLV_bytes t) = Ok t.
Proof.
  intros Hi. pose proof Hi as Hi'.
  apply CapabilityFacts.init_ok in Hi'. destruct Hi' as (Hg & Hs & He & ->).
  set (w := Z.lor enabled (Z.shiftl supported 16)) in *.
  assert (Hw : w = supported * 65536 + enabled)
    by (apply CapabilityFacts.stored_word; exact He).
  unfold SystemCapabilitiesTLV.from_bytes.
  change Type_.SYSTEM_CAPABILITIES
    with (tlv_type (mkTLV (SystemCapabilities w) (be_bytes 4 w))) at 1.
  rewrite check_header_encoded by (vm_compute; reflexivity).
  cbn [bind].
  destruct (TLV_bytes_split (mkTLV (SystemCapabilities w) (be_bytes 4 w)))
    as (h0 & h1 & ->).
  cbn [tlv_bytes]. rewrite be_bytes_4.
  rewrite (Layout.unpack_at 2 [h0; h1] (be_bytes 2 (w / 65536))
             (be_bytes 2 w) 2 eq_refl eq_refl).
  cbn [bind].
  replace ([h0; h1] ++ be_bytes 2 (w / 65536) ++ be_bytes 2 w)
    with (([h0; h1] ++ be_bytes 2 (w / 65536)) ++ be_bytes 2 w ++ [])
    by (rewrite app_nil_r, <- app_assoc; reflexivity).
  rewrite (Layout.unpack_at 2 ([h0; h1] ++ be_bytes 2 (w / 65536))
             (be_bytes 2 w) [] 4 eq_refl eq_refl).
  cbn [bind]. rewrite !be_value_mod.
  change (256 ^ Z.of_nat 2) with 65536. change (2 ^ 16) with 65536 in *.
  replace ((w / 65536) mod 65536) with supported by lia.
  replace (w mod 65536) with enabled by lia.
  rewrite <- be_bytes_4. exact Hi.
Qed.

(** The management address. *)

Lemma pack_1 v : 0 <= v < 256 -> ManagementAddressTLV.pack 1 v = Ok [z2b v].
Proof.
  intros H. unfold ManagementAddressTLV.pack.
  change (2 ^ (8 * Z.of_nat 1)) with 256.
  destruct (Z.ltb_spec v 0); [lia|]. destruct (Z.leb_spec 256 v); [lia|].
  reflexivity.
Qed.

Lemma to_bytes_1 v : 0 <= v < 256 -> int_to_bytes v 1 = Ok [z2b v].
Proof.
  intros H. unfold int_to_bytes. change (2 ^ (8 * Z.of_nat 1)) with 256.
  destruct (Z.ltb_spec v 0); [lia|]. destruct (Z.leb_spec 256 v); [lia|].
  reflexivity.
Qed.

Lemma ifsubtype_range st : 0 <= IFNumberingSubtype_value st < 256.
Proof. destruct st; cbn; lia. Qed.

Lemma ifsubtype_of_value st :
  IFNumberingSubtype_of (IFNumberingSubtype_value st) = Ok st.
Proof. destruct st; reflexivity. Qed.

(** The payload the constructor builds. *)
Lemma management_init_ok a n st oid t :
  wf_ip a -> oid <> Some [] ->
  ManagementAddressTLV.init a n st oid = Ok t ->
  exists af tail,
    t = mkTLV (ManagementAddress a n st oid)
              ([z2b (len (packed a) + 1); z2b af] ++ packed a
               ++ [z2b (IFNumberingSubtype_value st)] ++ be_bytes 4 n
               ++ tail) /\
    (len (packed a) = 4 \/ len (packed a) = 16) /\
    0 <= n < 2 ^ 32 /\
    (oid = None /\ tail = [Byte.x00] \/
     exists o, oid = Some o /\ tail = z2b (len o) :: o /\ 0 < len o < 256).
Proof.
  intros Ha Ho Hi. unfold ManagementAddressTLV.init in Hi.
  assert (El : max_prefixlen a / 8 + 1 = len (packed a) + 1 /\
               (len (packed a) = 4 \/ len (packed a) = 16)).
  { destruct a as [p|p]; cbn [max_prefixlen packed wf_ip] in *; rewrite Ha;
      split; auto. }
  destruct El as (El & Hk). rewrite El in Hi.
  rewrite pack_1 in Hi by lia. cbn [bind] in Hi.
  rewrite pack_1 in Hi by (destruct a; lia). cbn [bind] in Hi.
  rewrite pack_1 in Hi by apply ifsubtype_range. cbn [bind] in Hi.
  unfold ManagementAddressTLV.pack in Hi.
  change (2 ^ (8 * Z.of_nat 4)) with (2 ^ 32) in Hi.
  destruct (Z.ltb_spec n 0); [discriminate|].
  destruct (Z.leb_spec (2 ^ 32) n); [discriminate|].
  cbn [orb bind] in Hi.
  destruct oid as [o|].
  - unfold int_to_bytes in Hi. change (2 ^ (8 * Z.of_nat 1)) with 256 in Hi.
    pose proof (len_nonneg o).
    destruct (Z.ltb_spec (len o) 0); [lia|].
    destruct (Z.leb_spec 256 (len o)); [discriminate|].
    cbn [orb bind be_bytes app] in Hi. injection Hi as <-.
    eexists _, _. split; [reflexivity|]. split; [exact Hk|]. split; [lia|].
    right. exists o. repeat split; try lia.
    destruct o; [congruence|]. unfold len. cbn [List.length]. lia.
  - change (int_to_bytes 0 1) with (Ok [Byte.x00]) in Hi. cbn [bind] in Hi.
    injection Hi as <-.
    eexists _, _. split; [reflexivity|]. split; [exact Hk|]. split; [lia|].
    left. auto.
Qed.

Ltac lens :=
  rewrite ?len_app; unfold len in *; cbn [List.length] in *;
  rewrite ?Layout.be_bytes_length; lia.

Lemma management_roundtrip a n st oid t :
  wf_ip a -> oid <> Some [] ->
  ManagementAddressTLV.init a n st oid = Ok t ->
  ManagementAddressTLV.from_bytes (TLV_bytes t) = Ok t.
Proof.
  intros Ha Ho Hi.
  destruct (management_init_ok a n st oid t Ha Ho Hi)
    as (af & tail & Et & Hk & Hn & Ht).
  assert (Eip : ip_address (packed a) = Ok a).
  { unfold ip_address. destruct a as [q|q]; cbn [packed wf_ip] in *;
      rewrite Ha; reflexivity. }
  remember (packed a) as p eqn:Ep. remember (len p) as k eqn:Ek.
  remember (z2b (IFNumberingSubtype_value st)) as sb eqn:Esb.
  assert (Htl : exists ol o, tail = ol :: o /\ b2z ol = len o /\ len o < 256 /\
                  (oid = None /\ o = [] \/ oid = Some o /\ 0 < len o)).
  { destruct Ht as [[-> ->]|(o & -> & -> & Hl)].
    - exists Byte.x00, []. repeat split; auto; vm_compute; reflexivity.
    - exists (z2b (len o)), o. repeat split; try lia.
      + apply b2z_z2b. lia.
      + right. split; [reflexivity|lia]. }
  destruct Htl as (ol & o & -> & Hol & Hlo & Hoid).
  pose proof (len_nonneg o) as Hlo0.
  unfold ManagementAddressTLV.from_bytes.
  replace Type_.MANAGEMENT_ADDRESS with (tlv_type t)
    by (rewrite Et; reflexivity).
  assert (Hlen : tlv_len t = 2 + k + 1 + 4 + 1 + len o).
  { rewrite Et. unfold tlv_len. cbn [tlv_bytes]. lens. }
  rewrite check_header_encoded by lia. cbn [bind].
  destruct (TLV_bytes_split t) as (h0 & h1 & ->).
  replace (tlv_bytes t)
    with ([z2b (k + 1); z2b af] ++ p ++ [sb] ++ be_bytes 4 n ++ ol :: o)
    by (rewrite Et; reflexivity).
  set (D := [h0; h1] ++ [z2b (k + 1); z2b af] ++ p ++ [sb]
            ++ be_bytes 4 n ++ ol :: o).
  assert (E2 : getitem D 2 = Ok (k + 1)).
  { unfold D. change (getitem _ 2) with (Ok (b2z (z2b (k + 1)))).
    rewrite b2z_z2b by lia. reflexivity. }
  rewrite E2. cbn [bind]. replace (k + 1 - 1) with k by lia.
  assert (E9 : getitem D (9 + k) = Ok (len o)).
  { replace D with (([h0; h1; z2b (k + 1); z2b af] ++ p ++ [sb]
                     ++ be_bytes 4 n) ++ ol :: o)
      by (unfold D; rewrite <- !app_assoc; reflexivity).
    rewrite Layout.getitem_at'; [rewrite Hol; reflexivity|]. lens. }
  rewrite E9. cbn [bind].
  assert (E4 : slice D 4 (4 + k) = p).
  { replace D with ([h0; h1; z2b (k + 1); z2b af] ++ p
                    ++ ([sb] ++ be_bytes 4 n ++ ol :: o))
      by (unfold D; reflexivity).
    apply Layout.slice_at; [reflexivity|]. lens. }
  rewrite E4, Eip. cbn [bind].
  assert (E5 : unpack_from 4 D (5 + k) = Ok n).
  { replace D with (([h0; h1; z2b (k + 1); z2b af] ++ p ++ [sb])
                    ++ be_bytes 4 n ++ ol :: o)
      by (unfold D; rewrite <- !app_assoc; reflexivity).
    rewrite Layout.unpack_at.
    - rewrite Layout.be_value_be_bytes; [reflexivity|].
      change (256 ^ Z.of_nat 4) with (2 ^ 32). exact Hn.
    - lens.
    - apply Layout.be_bytes_length. }
  rewrite E5. cbn [bind].
  assert (E4' : getitem D (4 + k) = Ok (IFNumberingSubtype_value st)).
  { replace D with (([h0; h1; z2b (k + 1); z2b af] ++ p)
                    ++ sb :: be_bytes 4 n ++ ol :: o)
      by (unfold D; rewrite <- !app_assoc; reflexivity).
    rewrite Layout.getitem_at'.
    - rewrite Esb, b2z_z2b by apply ifsubtype_range. reflexivity.
    - lens. }
  rewrite E4'. cbn [bind]. rewrite ifsubtype_of_value. cbn [bind].
  destruct Hoid as [[-> ->]|[-> Hpos]].
  - change (len [] =? 0) with true. cbv iota. exact Hi.
  - destruct (Z.eqb_spec (len o) 0); [lia|].
    assert (Eo : slice D (10 + k) (10 + k + len o) = o).
    { replace D with (([h0; h1; z2b (k + 1); z2b af] ++ p ++ [sb]
                       ++ be_bytes 4 n ++ [ol]) ++ o ++ [])
        by (unfold D; rewrite app_nil_r, <- !app_assoc; reflexivity).
      apply Layout.slice_at; lens. }
    rewrite Eo. exact Hi.
Qed.

(** The organizationally specific TLV. *)
Lemma organizationally_roundtrip oui st v t :
  len oui = 3 -> len st = 1 ->
  OrganizationallySpecificTLV.init oui st v = Ok t -> tlv_len t <= 511 ->
  OrganizationallySpecificTLV.from_bytes (TLV_bytes t) = Ok t.
Proof.
  intros Hu Hs Hi Hl.
  assert (Et : exists vb,
             t = mkTLV (OrganizationallySpecific oui st vb)
                       (oui ++ st ++ vb)).
  { unfold OrganizationallySpecificTLV.init in Hi.
    destruct v as [s|b]; [destruct (utf8_encode s) as [b|]; [|discriminate]|];
      cbn [bind] in Hi; injection Hi as <-; eexists; reflexivity. }
  destruct Et as (vb & Et).
  destruct st as [|sb [|? ?]]; try (unfold len in Hs; cbn in Hs; lia).
  unfold OrganizationallySpecificTLV.from_bytes.
  replace Type_.ORGANIZATIONALLY_SPECIFIC with (tlv_type t)
    by (rewrite Et; reflexivity).
  rewrite check_header_encoded by lia. cbn [bind].
  destruct (TLV_bytes_split t) as (h0 & h1 & ->).
  replace (tlv_bytes t) with (oui ++ [sb] ++ vb) by (rewrite Et; reflexivity).
  set (D := [h0; h1] ++ oui ++ [sb] ++ vb).
  assert (E5 : getitem D 5 = Ok (b2z sb)).
  { replace D with (([h0; h1] ++ oui) ++ sb :: vb)
      by (unfold D; rewrite <- !app_assoc; reflexivity).
    apply Layout.getitem_at'. lens. }
  rewrite E5. cbn [bind].
  rewrite to_bytes_1 by apply b2z_range. cbn [bind]. rewrite z2b_b2z.
  assert (E2 : slice D 2 5 = oui).
  { apply Layout.slice_at; [reflexivity|]. lens. }
  rewrite E2.
  assert (E6 : slice D 6 (len D) = vb).
  { replace D with (([h0; h1] ++ oui ++ [sb]) ++ vb ++ [])
      by (unfold D; rewrite app_nil_r, <- !app_assoc; reflexivity).
    apply Layout.slice_at; lens. }
  rewrite E6. rewrite Et. reflexivity.
Qed.

(** The class of what a constructor returns. *)

Ltac invert_init H :=
  repeat match type of H with
    | context [match ?x with _ => _ end] => destruct x eqn:?
    | context [if ?x then _ else _] => destruct x eqn:?
    end;
  try discriminate H; injection H as <-; try reflexivity.

Lemma identifier_init_attrs cls st v t :
  identifier_init cls st v = Ok t -> tlv_attrs t = cls st v.
Proof.
  unfold identifier_init, bind. intros H. invert_init H.
Qed.

Lemma string_init_attrs cls s t :
  string_init cls s = Ok t -> tlv_attrs t = cls s.
Proof. unfold string_init, bind. intros H. invert_init H. Qed.

Lemma ttl_init_attrs v t : TTLTLV.init v = Ok t -> tlv_attrs t = TTL v.
Proof. unfold TTLTLV.init, bind. intros H. invert_init H. Qed.

Lemma capabilities_init_attrs s e t :
  SystemCapabilitiesTLV.init s e = Ok t ->
  exists v, tlv_attrs t = SystemCapabilities v.
Proof.
  unfold SystemCapabilitiesTLV.init, bind. intros H.
  destruct (negb _); [discriminate|]. destruct (int_to_bytes _ 4); [|discriminate].
  injection H as <-. eexists. reflexivity.
Qed.

Lemma management_init_attrs a n st oid t :
  ManagementAddressTLV.init a n st oid = Ok t ->
  tlv_attrs t = ManagementAddress a n st oid.
Proof.
  unfold ManagementAddressTLV.init, bind. intros H.
  repeat match type of H with
    | context [match ?x with Ok _ => _ | Raise _ => _ end] =>
        destruct x eqn:?; try discriminate H
    end.
  injection H as <-. reflexivity.
Qed.

Lemma organizationally_init_attrs oui st v t :
  OrganizationallySpecificTLV.init oui st v = Ok t ->
  exists vb, tlv_attrs t = OrganizationallySpecific oui st vb.
Proof.
  unfold OrganizationallySpecificTLV.init, bind. intros H.
  destruct (match v with
            | OrganizationallySpecificTLV.OrgStr s => utf8_encode s
            | OrganizationallySpecificTLV.OrgBytes b => Ok b
            end); [|discriminate].
  injection H as <-. eexists. reflexivity.
Qed.

(** P1.  Every well-formed record is what the decoder of its class
    returns on its encoding. *)
Lemma wf_roundtrip t : wf_tlv t -> from_bytes_of t (TLV_bytes t) = Ok t.
Proof.
  intros Hw. unfold from_bytes_of.
  destruct Hw as [|st v t Hv Hi|st v t Hv Hi|v t Hi|s t Hi Hl|s t Hi Hl
                 |s t Hi Hl|su en t Hi|a n st oid t Ha Ho Hi
                 |oui st v t Hu Hs Hi Hl].
  - reflexivity.
  - rewrite (identifier_init_attrs _ _ _ _ Hi).
    apply (identifier_roundtrip Type_.CHASSIS_ID ChassisId) with (2 := Hv);
      [reflexivity|exact Hi].
  - rewrite (identifier_init_attrs _ _ _ _ Hi).
    apply (identifier_roundtrip Type_.PORT_ID PortId) with (2 := Hv);
      [reflexivity|exact Hi].
  - rewrite (ttl_init_attrs _ _ Hi). apply ttl_roundtrip with (1 := Hi).
  - rewrite (string_init_attrs _ _ _ Hi).
    destruct (string_init_only _ _ _ Hi) as (b & E & ->).
    apply string_roundtrip; [reflexivity|exact E|].
    unfold tlv_len in Hl. cbn [tlv_bytes] in Hl. lia.
  - rewrite (string_init_attrs _ _ _ Hi).
    destruct (string_init_only _ _ _ Hi) as (b & E & ->).
    apply string_roundtrip; [reflexivity|exact E|].
    unfold tlv_len in Hl. cbn [tlv_bytes] in Hl. lia.
  - rewrite (string_init_attrs _ _ _ Hi).
    destruct (string_init_only _ _ _ Hi) as (b & E & ->).
    apply string_roundtrip; [reflexivity|exact E|].
    unfold tlv_len in Hl. cbn [tlv_bytes] in Hl. lia.
  - destruct (capabilities_init_attrs _ _ _ Hi) as (v & ->).
    apply capabilities_roundtrip with (1 := Hi).
  - rewrite (management_init_attrs _ _ _ _ _ Hi).
    apply management_roundtrip with (3 := Hi); assumption.
  - destruct (organizationally_init_attrs _ _ _ _ Hi) as (vb & ->).
    apply organizationally_roundtrip with (3 := Hi); assumption.
Qed.

(** A well-formed record has a payload that the length field can hold. *)
Lemma wf_len t : wf_tlv t -> tlv_len t <= 511.
Proof.
  intros Hw.
  destruct Hw as [|st v t Hv Hi|st v t Hv Hi|v t Hi|s t Hi Hl|s t Hi Hl
                 |s t Hi Hl|su en t Hi|a n st oid t Ha Ho Hi
                 |oui st v t Hu Hs Hi Hl]; try lia.
  - vm_compute. discriminate.
  - apply identifier_len with (1 := Hv) (2 := Hi).
  - apply identifier_len with (1 := Hv) (2 := Hi).
  - unfold TTLTLV.init, bind, int_to_bytes in Hi.
    destruct (v >? 65535); [discriminate|].
    destruct (_ || _); [discriminate|]. injection Hi as <-.
    vm_compute. discriminate.
  - apply CapabilityFacts.init_ok in Hi. destruct Hi as (_ & _ & _ & ->).
    vm_compute. discriminate.
  - destruct (management_init_ok a n st oid t Ha Ho Hi)
      as (af & tail & -> & Hk & Hn & Ht).
    unfold tlv_len. cbn [tlv_bytes].
    destruct Ht as [[_ ->]|(o & _ & -> & Hl)]; lens.
Qed.

End RoundTrip.

(** ** P2 for the LLDPDUs that end with an End record *)

Module Decode.
Import LLDPDU Inv.

Lemma append_all_app l1 : forall l2 s,
  append_all (l1 ++ l2) s =
    match append_all l1 s with
    | (Ok _, s') => append_all l2 s'
    | (Raise e, s') => (Raise e, s')
    end.
Proof.
  induction l1 as [|x l1 IH]; intros l2 s; cbn [app append_all].
  - reflexivity.
  - unfold mbind. destruct (append x s) as [[[]|e] s']; [apply IH|reflexivity].
Qed.

(** An LLDPDU that can exist is what appending its records in turn to the
    empty LLDPDU gives. *)
Lemma reachable_append_all s :
  reachable s -> append_all (tlvs s) (mk 0 []) = (Ok tt, s).
Proof.
  induction 1 as [|s tlv s' Hr IH Ha]; [reflexivity|].
  pose proof Ha as Ha'. rewrite AppendFacts.append_eq in Ha'.
  destruct (Inv.refuses tlv s); [discriminate|].
  injection Ha' as <-. cbn [tlvs].
  rewrite append_all_app, IH. cbn [append_all]. unfold mbind.
  rewrite Ha. reflexivity.
Qed.

Lemma len_TLV_bytes t : len (TLV_bytes t) = tlv_len t + 2.
Proof. unfold TLV_bytes, tlv_len, len. cbn [List.length]. lia. Qed.

(** A turn of the loop in front of the encoding of a well-formed record:
    the record is decoded and appended. *)
Lemma loop_body_wf P t R s :
  wf_tlv t ->
  loop_body (P ++ TLV_bytes t ++ R) (len P) s =
    match append t s with
    | (Ok _, s') =>
        Ok (if is_end t then Break s'
            else Continue (len P + (tlv_len t + 2)) s')
    | (Raise e, _) => Raise e
    end.
Proof.
  intros Hw. pose proof (RoundTrip.wf_len t Hw) as Hl.
  pose proof (RoundTrip.wf_roundtrip t Hw) as Hrt.
  pose proof (tlv_type_range t) as Hty.
  pose proof (len_nonneg (tlv_bytes t)) as Hn0.
  pose proof (len_nonneg P). pose proof (len_nonneg R).
  assert (Hn : 0 <= tlv_len t < 512) by (unfold tlv_len in *; lia).
  unfold loop_body.
  assert (E0 : getitem (P ++ TLV_bytes t ++ R) (len P) =
               Ok (b2z (z2b (Z.shiftr (Z.lor (Z.shiftl (tlv_type t) 9)
                                             (tlv_len t)) 8)))).
  { unfold TLV_bytes. cbn [app]. apply Layout.getitem_at. }
  assert (E1 : getitem (P ++ TLV_bytes t ++ R) (len P + 1) =
               Ok (b2z (z2b (Z.land (Z.lor (Z.shiftl (tlv_type t) 9)
                                           (tlv_len t)) 0xFF)))).
  { unfold TLV_bytes. cbn [app].
    match goal with
    | |- getitem (P ++ ?a :: ?b :: ?r) _ = _ =>
        replace (P ++ a :: b :: r) with ((P ++ [a]) ++ b :: r)
          by (rewrite <- app_assoc; reflexivity)
    end.
    apply Layout.getitem_at'. rewrite len_app. reflexivity. }
  rewrite E0. cbn [bind]. rewrite E1. cbn [bind].
  rewrite (header_type (tlv_type t) (tlv_len t) Hty Hn).
  rewrite (header_length (tlv_type t) (tlv_len t) Hty Hn).
  destruct (Z.gtb_spec (len P + tlv_len t + 2) (len (P ++ TLV_bytes t ++ R))).
  { rewrite !len_app, len_TLV_bytes in *. lia. }
  rewrite (Layout.slice_at P (TLV_bytes t) R)
    by (rewrite ?len_TLV_bytes; lia).
  unfold from_bytes_of in Hrt. unfold tlv_type, is_end.
  unfold take.
  destruct (tlv_attrs t) eqn:Ha;
    cbv [Type_.END_OF_LLDPDU Type_.CHASSIS_ID Type_.PORT_ID Type_.TTL
         Type_.PORT_DESCRIPTION Type_.SYSTEM_NAME Type_.SYSTEM_DESCRIPTION
         Type_.SYSTEM_CAPABILITIES Type_.MANAGEMENT_ADDRESS
         Type_.ORGANIZATIONALLY_SPECIFIC];
    cbn [Z.eqb Pos.eqb]; cbv iota; rewrite Hrt; cbn [bind];
    destruct (append t s) as [[[]|e] s']; reflexivity.
Qed.

Lemma to_bytes_tlvs s : to_bytes s = to_bytes (mk 0 (tlvs s)).
Proof. destruct s. reflexivity. Qed.

Lemma loop_decodes suf : forall s fuel l,
  Forall wf_tlv suf ->
  (exists mid, suf = mid ++ [mkTLV EndOfLLDPDU []]) ->
  append_all suf s = (Ok tt, l) ->
  len (to_bytes (mk 0 suf)) < Z.of_nat fuel ->
  loop fuel (to_bytes s ++ to_bytes (mk 0 suf)) (len (to_bytes s)) s =
    Some (Ok l).
Proof.
  induction suf as [|t rest IH]; intros s fuel l Hwf (mid & Hmid) Ha Hf.
  { destruct mid; discriminate. }
  pose proof (len_nonneg (to_bytes (mk 0 rest))) as Hr0.
  pose proof (len_nonneg (to_bytes s)) as Hs0.
  rewrite (AppendFacts.to_bytes_cons 0 0) in Hf |- *.
  rewrite len_app, len_TLV_bytes in Hf.
  pose proof (len_nonneg (tlv_bytes t)) as Ht0. fold (tlv_len t) in Ht0.
  destruct fuel as [|fuel]; [lia|].
  cbn [loop].
  destruct (Z.ltb_spec (len (to_bytes s))
              (len (to_bytes s ++ TLV_bytes t ++ to_bytes (mk 0 rest)) + 1))
    as [Hc|Hc].
  2:{ rewrite !len_app, len_TLV_bytes in Hc. lia. }
  inversion Hwf as [|? ? Hwt Hwr]; subst.
  rewrite (loop_body_wf _ _ _ _ Hwt).
  cbn [append_all] in Ha. unfold mbind in Ha.
  destruct (append t s) as [[[]|e] s'] eqn:Eap; [|discriminate].
  assert (Es' : s' = mk (length s + len (TLV_bytes t)) (tlvs s ++ [t])).
  { rewrite AppendFacts.append_eq in Eap.
    destruct (Inv.refuses t s); [discriminate|].
    injection Eap as <-. reflexivity. }
  destruct (is_end t) eqn:Ee.
  - destruct rest as [|r rest].
    + cbn [append_all] in Ha. injection Ha as <-. reflexivity.
    + exfalso. cbn [append_all] in Ha. unfold mbind in Ha.
      rewrite AppendFacts.append_eq in Ha.
      assert (Er : Inv.refuses r s' = true).
      { unfold Inv.refuses.
        assert (any is_end s' = true) as ->.
        { rewrite Es'. unfold any. cbn [tlvs]. rewrite existsb_app.
          cbn [existsb]. rewrite Ee. rewrite orb_true_r. reflexivity. }
        rewrite orb_true_r. reflexivity. }
      rewrite Er in Ha. discriminate.
  - assert (Hrest : exists mid', rest = mid' ++ [mkTLV EndOfLLDPDU []]).
    { destruct mid as [|m mid]; cbn [app] in Hmid; injection Hmid as -> Hr.
      - discriminate.
      - exists mid. exact Hr. }
    assert (Eb : to_bytes s' = to_bytes s ++ TLV_bytes t).
    { rewrite Es'. apply (AppendFacts.to_bytes_snoc _ (length s)). }
    replace (to_bytes s ++ TLV_bytes t ++ to_bytes (mk 0 rest))
      with (to_bytes s' ++ to_bytes (mk 0 rest))
      by (rewrite Eb, <- app_assoc; reflexivity).
    replace (len (to_bytes s) + (tlv_len t + 2)) with (len (to_bytes s'))
      by (rewrite Eb, len_app, len_TLV_bytes; reflexivity).
    apply IH; try assumption. lia.
Qed.

End Decode.

(** P2 holds on the LLDPDUs that end with an End record: every LLDPDU
    that can exist, is made of well-formed records and ends with an End
    record is what [from_bytes] returns on its encoding. *)
Lemma roundtrip_with_end (l : LLDPDU.t) :
  Inv.reachable l ->
  Forall Inv.wf_tlv (LLDPDU.tlvs l) ->
  (exists pre, LLDPDU.tlvs l = pre ++ [mkTLV EndOfLLDPDU []]) ->
  LLDPDU.from_bytes (LLDPDU.to_bytes l) = Some (Ok l).
Proof.
  intros Hr Hw He. unfold LLDPDU.from_bytes.
  rewrite (Decode.to_bytes_tlvs l).
  apply (Decode.loop_decodes (LLDPDU.tlvs l) (LLDPDU.mk 0 [])).
  - exact Hw.
  - exact He.
  - apply Decode.reachable_append_all. exact Hr.
  - unfold len. lia.
Qed.



(** ** [append] keeps I1 to I4 *)

Module Kept.
Import LLDPDU Inv.

Lemma count_snoc ty l t :
  count ty (l ++ [t]) =
    (count ty l + (if (tlv_type t =? ty)%Z then 1 else 0))%nat.
Proof.
  unfold count. rewrite filter_app, length_app. cbn [filter].
  destruct (tlv_type t =? ty); reflexivity.
Qed.

Lemma count_none ty l : ~ has ty l -> count ty l = 0%nat.
Proof.
  unfold count, has. induction l as [|x l IH]; intros Hn; [reflexivity|].
  cbn [filter]. destruct (Z.eqb_spec (tlv_type x) ty) as [E|E].
  - exfalso. apply Hn. exists x. split; [left; reflexivity|exact E].
  - apply IH. intros (y & Hy & Ey). apply Hn. exists y. split; [right|]; auto.
Qed.

Lemma reachable_size s : reachable s -> length s <= 1500.
Proof.
  induction 1 as [|s tlv s' Hr IH Ha]; [cbn; lia|].
  rewrite AppendFacts.append_eq in Ha. unfold refuses in Ha.
  destruct (Z.gtb_spec (len (TLV_bytes tlv) + length s) 1500);
    [discriminate|].
  destruct (_ || _); [discriminate|]. injection Ha as <-. cbn [length]. lia.
Qed.

Lemma reachable_I4 s : reachable s -> I4 (tlvs s).
Proof.
  intros Hr. unfold I4. rewrite <- Decode.to_bytes_tlvs.
  rewrite <- (AppendFacts.reachable_length s Hr). apply reachable_size, Hr.
Qed.

Lemma snoc_split {A} (a : list A) t pre x post :
  a ++ [t] = pre ++ x :: post ->
  post = [] \/ exists post', post = post' ++ [t] /\ a = pre ++ x :: post'.
Proof.
  intros E. destruct (exists_last (l := x :: post) ltac:(discriminate))
    as (q & y & Eq).
  destruct post as [|p post] using rev_ind; [left; reflexivity|].
  right. clear IHpost. exists post.
  rewrite app_comm_cons, app_assoc in E.
  apply app_inj_tail in E. destruct E as [-> ->]. auto.
Qed.

Lemma reachable_I3 s : reachable s -> I3 (tlvs s).
Proof.
  induction 1 as [|s tlv s' Hr IH Ha].
  - intros pre x post E. destruct pre; discriminate.
  - rewrite AppendFacts.append_eq in Ha. unfold refuses in Ha.
    destruct (len (TLV_bytes tlv) + length s >? 1500); [discriminate|].
    destruct (any is_end s) eqn:Ee; [discriminate|].
    destruct (if tlv_type tlv =? Type_.CHASSIS_ID then _ else _);
      [discriminate|].
    injection Ha as <-. cbn [tlvs].
    intros pre x post E Hx.
    destruct (snoc_split _ _ _ _ _ E) as [->|(post' & -> & Es)];
      [reflexivity|].
    exfalso. assert (Hh : any is_end s = true).
    { apply AppendFacts.any_end. exists x. split; [|exact Hx].
      rewrite Es. apply in_or_app. right. left. reflexivity. }
    congruence.
Qed.

Lemma reachable_I2 s : reachable s -> I2 (tlvs s).
Proof.
  induction 1 as [|s tlv s' Hr IH Ha].
  - intros ty _. cbn. lia.
  - rewrite AppendFacts.append_eq in Ha.
    destruct (refuses tlv s) eqn:Er; [discriminate|].
    injection Ha as <-. cbn [tlvs].
    intros ty Hty. rewrite count_snoc.
    specialize (IH ty Hty).
    destruct (Z.eqb_spec (tlv_type tlv) ty) as [E|E]; [|lia].
    rewrite count_none; [lia|].
    intros Hh. unfold refuses in Er.
    apply orb_false_elim in Er. destruct Er as [Er Ec].
    apply orb_false_elim in Er. destruct Er as [_ Ee].
    cbn [In mandatory_prefix] in Hty.
    destruct Hty as [<-|[<-|[<-|[<-|[]]]]]; rewrite E in Ec;
      cbn [Z.eqb Pos.eqb Type_.END_OF_LLDPDU Type_.CHASSIS_ID Type_.PORT_ID
             Type_.TTL] in Ec; cbv iota in Ec.
    + apply AppendFacts.any_end in Hh. congruence.
    + apply AppendFacts.any_chassis in Hh. congruence.
    + apply AppendFacts.any_port in Hh. rewrite Hh in Ec. discriminate.
    + apply AppendFacts.any_ttl in Hh. rewrite Hh in Ec. discriminate.
Qed.

End Kept.

(** Every LLDPDU that can exist satisfies I2, I3, I4 and I1 as far as it
    has grown; once it is complete it satisfies I1. *)
Lemma reachable_invariants (s : LLDPDU.t) :
  Inv.reachable s ->
  Inv.prefix_ok (LLDPDU.tlvs s) /\ Inv.I2 (LLDPDU.tlvs s) /\
  Inv.I3 (LLDPDU.tlvs s) /\ Inv.I4 (LLDPDU.tlvs s) /\
  (LLDPDU.complete s = true -> Inv.I1 (LLDPDU.tlvs s)).
Proof.
  intros Hr.
  split; [apply AppendFacts.reachable_prefix_ok, Hr|].
  split; [apply Kept.reachable_I2, Hr|].
  split; [apply Kept.reachable_I3, Hr|].
  split; [apply Kept.reachable_I4, Hr|].
  intros Hc. apply prefix_ok_complete.
  - apply AppendFacts.reachable_prefix_ok, Hr.
  - apply AppendFacts.any_ttl. unfold LLDPDU.complete in Hc.
    apply andb_prop in Hc. tauto.
Qed.

(** * Further properties of the code *)

(** ** What a checked header tells about the slice *)

Lemma check_header_inv ty data n :
  check_header ty data = Ok n ->
  exists b0 b1 payload,
    data = b0 :: b1 :: payload /\ n = len payload /\ 0 <= n < 512 /\
    ty = b2z b0 / 2 /\ b2z b0 = 2 * ty + n / 256 /\ b2z b1 = n mod 256.
Proof.
  unfold check_header.
  destruct (Z.ltb_spec (len data) 2); [discriminate|].
  destruct data as [|b0 [|b1 payload]];
    try (unfold len in *; cbn [List.length] in *; lia).
  rewrite LoopFacts.getitem_cons_0. cbn [bind].
  rewrite LoopFacts.getitem_cons_1. cbn [bind].
  pose proof (b2z_range b0) as R0. pose proof (b2z_range b1) as R1.
  assert (Ety : Z.land (Z.shiftr (b2z b0) 1) 0x7F = (b2z b0 / 2) mod 128).
  { rewrite shiftr_lit by lia. change 0x7F with (2 ^ 7 - 1).
    rewrite land_low by lia. reflexivity. }
  assert (En : Z.lor (Z.shiftl (Z.land (b2z b0) 1) 8) (b2z b1) =
               b2z b0 mod 2 * 256 + b2z b1).
  { rewrite shiftl_lit by lia. change 1 with (2 ^ 1 - 1).
    rewrite land_low by lia. change (2 ^ 1) with 2.
    rewrite (lor_field _ (b2z b1) 8) by lia. reflexivity. }
  rewrite Ety, En.
  destruct (Z.eqb_spec ((b2z b0 / 2) mod 128) ty) as [Et|]; [|discriminate].
  cbn [negb].
  destruct (Z.eqb_spec (len (b0 :: b1 :: payload))
              (b2z b0 mod 2 * 256 + b2z b1 + 2)) as [El|]; [|discriminate].
  cbn [negb]. intros [= <-].
  exists b0, b1, payload. unfold len in *. cbn [List.length] in El.
  repeat split; try lia.
Qed.

(** A record of the checked type whose payload is the rest of the slice
    is encoded as the slice itself. *)
Lemma header_canonical ty data n t :
  check_header ty data = Ok n -> tlv_type t = ty ->
  tlv_bytes t = skipn 2 data -> TLV_bytes t = data.
Proof.
  intros Hc Ht Hb.
  destruct (check_header_inv ty data n Hc)
    as (b0 & b1 & payload & -> & Hn & Hr & Hty & H0 & H1).
  cbn [skipn] in Hb. unfold TLV_bytes. rewrite Hb, Ht.
  replace (tlv_len t) with n by (unfold tlv_len; rewrite Hb; exact Hn).
  pose proof (b2z_range b0).
  assert (Hy : 0 <= ty < 128) by lia.
  f_equal; [|f_equal]; apply b2z_inj.
  - rewrite (header_h0 ty n Hy Hr). lia.
  - rewrite (header_h1 ty n Hy Hr). lia.
Qed.

(** ** The TTL record ([ttl_tlv.py]) *)

Lemma be_bytes_of_value (bs : bytes) :
  be_bytes (List.length bs) (be_value bs) = bs.
Proof.
  induction bs as [|b bs IH] using rev_ind; [reflexivity|].
  rewrite length_app. cbn [List.length].
  replace (List.length bs + 1)%nat with (S (List.length bs)) by lia.
  cbn [be_bytes]. rewrite be_value_app.
  change (len [b]) with 1. change (256 ^ 1) with 256.
  replace (be_value [b]) with (b2z b) by (unfold be_value; cbn; lia).
  pose proof (b2z_range b).
  replace ((be_value bs * 256 + b2z b) / 256) with (be_value bs) by lia.
  rewrite IH. f_equal. f_equal.
  rewrite <- (z2b_b2z b) at 2. unfold z2b.
  replace ((be_value bs * 256 + b2z b) mod 256) with (b2z b mod 256) by lia.
  reflexivity.
Qed.

Lemma ttl_init_in_range (ttl : Z) :
  0 <= ttl <= 65535 ->
  TTLTLV.init ttl = Ok (mkTLV (TTL ttl) (be_bytes 2 ttl)).
Proof.
  intros H. unfold TTLTLV.init, int_to_bytes.
  change (2 ^ (8 * Z.of_nat 2)) with 65536.
  destruct (Z.gtb_spec ttl 65535); [lia|].
  destruct (Z.ltb_spec ttl 0); [lia|].
  destruct (Z.leb_spec 65536 ttl); [lia|]. reflexivity.
Qed.

(** X1.  [TTLTLV(ttl)] is built exactly for 0 <= ttl <= 65535: a larger
    value raises [ValueError], a negative one [OverflowError]; and a TTL
    record that was built is what [TTLTLV.from_bytes] returns on its
    encoding. *)
Theorem ttl_construct_decode (ttl : Z) :
  (0 <= ttl <= 65535 ->
   TTLTLV.init ttl = Ok (mkTLV (TTL ttl) (be_bytes 2 ttl)) /\
   TTLTLV.from_bytes (TLV_bytes (mkTLV (TTL ttl) (be_bytes 2 ttl))) =
     Ok (mkTLV (TTL ttl) (be_bytes 2 ttl))) /\
  (65535 < ttl -> TTLTLV.init ttl = Raise ValueError) /\
  (ttl < 0 -> TTLTLV.init ttl = Raise OverflowError).
Proof.
  pose proof (ttl_init_in_range ttl) as Hi.
  split; [|split].
  - intros H. split; [exact (Hi H)|].
    apply RoundTrip.ttl_roundtrip with (v := ttl). exact (Hi H).
  - intros H. unfold TTLTLV.init.
    destruct (Z.gtb_spec ttl 65535); [reflexivity|lia].
  - intros H. unfold TTLTLV.init, int_to_bytes.
    destruct (Z.gtb_spec ttl 65535); [lia|].
    destruct (Z.ltb_spec ttl 0); [reflexivity|lia].
Qed.

(** X1 at the largest TTL. *)
Lemma ttl_construct_decode_witness :
  TTLTLV.init 65535 = Ok (mkTLV (TTL 65535) (be_bytes 2 65535)) /\
  TTLTLV.from_bytes (TLV_bytes (mkTLV (TTL 65535) (be_bytes 2 65535))) =
    Ok (mkTLV (TTL 65535) (be_bytes 2 65535)).
Proof.
  apply (proj1 (ttl_construct_decode 65535)). lia.
Defined.

(** X2.  Whatever [TTLTLV.from_bytes] accepts is a slice of exactly four
    octets (a header length other than 2 is refused); the TTL it returns
    is the big-endian value of the last two, and the record is encoded as
    the very slice it was decoded from. *)
Theorem ttl_decode_exact (data : bytes) (t : TLV) :
  TTLTLV.from_bytes data = Ok t ->
  len data = 4 /\
  exists v, 0 <= v <= 65535 /\ unpack_from 2 data 2 = Ok v /\
            t = mkTLV (TTL v) (be_bytes 2 v) /\ TLV_bytes t = data.
Proof.
  unfold TTLTLV.from_bytes. intros H.
  destruct (check_header Type_.TTL data) as [n|] eqn:Hc; [|discriminate].
  cbn [bind] in H.
  destruct (Z.eqb_spec n 2) as [->|]; [|discriminate]. cbn [negb] in H.
  destruct (check_header_inv _ _ _ Hc)
    as (b0 & b1 & payload & Ed & Hn & _).
  assert (Hp : exists x y, payload = [x; y]).
  { destruct payload as [|x [|y [|? ?]]];
      try (unfold len in Hn; cbn [List.length] in Hn; lia).
    eexists _, _. reflexivity. }
  destruct Hp as (x & y & ->).
  destruct (unpack_from 2 data 2) as [v|] eqn:Hu; [|discriminate].
  cbn [bind] in H.
  pose proof (unpack_from_range 2 data 2 v Hu) as Hv.
  change (256 ^ Z.of_nat 2) with 65536 in Hv.
  assert (Et : t = mkTLV (TTL v) (be_bytes 2 v)).
  { pose proof (ttl_init_in_range v ltac:(lia)) as Ei. congruence. }
  split; [rewrite Ed; reflexivity|].
  exists v. repeat split; try lia; try exact Et.
  apply (header_canonical Type_.TTL data 2 t Hc).
  - rewrite Et. reflexivity.
  - rewrite Et, Ed. cbn [tlv_bytes skipn].
    rewrite Ed in Hu. unfold unpack_from in Hu. cbn in Hu.
    injection Hu as <-. apply (be_bytes_of_value [x; y]).
Qed.

(** X2 at the TTL record of scenario S1. *)
Lemma ttl_decode_exact_witness :
  len (map z2b [0x06; 0x02; 0x00; 0x3c]) = 4 /\
  exists v, 0 <= v <= 65535 /\
            unpack_from 2 (map z2b [0x06; 0x02; 0x00; 0x3c]) 2 = Ok v /\
            Scenario.ttl_tlv = mkTLV (TTL v) (be_bytes 2 v) /\
            TLV_bytes Scenario.ttl_tlv = map z2b [0x06; 0x02; 0x00; 0x3c].
Proof.
  apply (ttl_decode_exact (map z2b [0x06; 0x02; 0x00; 0x3c])).
  reflexivity.
Defined.

(** ** The Chassis-ID record ([chassisid_tlv.py]) *)

Lemma chassis_mac_init (b : bytes) :
  ChassisIdTLV.init MAC_ADDRESS (IdBytes b) =
    if len b =? 6
    then Ok (mkTLV (ChassisId MAC_ADDRESS (IdBytes b)) (z2b 4 :: b))
    else Raise ValueError.
Proof.
  unfold ChassisIdTLV.init, identifier_init.
  change (Subtype_value MAC_ADDRESS =? Subtype_value MAC_ADDRESS) with true.
  cbv iota. cbn [bind]. destruct (len b =? 6); reflexivity.
Qed.

(** X3.  A MAC-address Chassis-ID is built from exactly six octets: any
    other number of octets makes the constructor raise [ValueError]; and
    the decoder refuses a MAC-address record whose header length is not 7
    (the subtype octet and six address octets). *)
Theorem chassis_mac_six_octets :
  (forall b, len b = 6 ->
     ChassisIdTLV.init MAC_ADDRESS (IdBytes b) =
       Ok (mkTLV (ChassisId MAC_ADDRESS (IdBytes b)) (z2b 4 :: b))) /\
  (forall b, len b <> 6 ->
     ChassisIdTLV.init MAC_ADDRESS (IdBytes b) = Raise ValueError) /\
  (forall data n,
     check_header Type_.CHASSIS_ID data = Ok n ->
     getitem data 2 = Ok 4 -> n <> 7 ->
     ChassisIdTLV.from_bytes data = Raise ValueError).
Proof.
  split; [|split].
  - intros b H. rewrite chassis_mac_init, H. reflexivity.
  - intros b H. rewrite chassis_mac_init.
    destruct (Z.eqb_spec (len b) 6); [contradiction|reflexivity].
  - intros data n Hc Hg Hn.
    unfold ChassisIdTLV.from_bytes, identifier_from_bytes.
    rewrite Hc. cbn [bind]. rewrite Hg. cbn [bind].
    change (4 =? Subtype_value MAC_ADDRESS) with true. cbv iota.
    destruct (Z.eqb_spec n 7); [contradiction|reflexivity].
Qed.

(** X3 at five and at seven octets. *)
Lemma chassis_mac_six_octets_witness :
  ChassisIdTLV.init MAC_ADDRESS (IdBytes (map z2b [1; 2; 3; 4; 5])) =
    Raise ValueError /\
  ChassisIdTLV.init MAC_ADDRESS (IdBytes (map z2b [1; 2; 3; 4; 5; 6; 7])) =
    Raise ValueError /\
  ChassisIdTLV.from_bytes (map z2b [0x02; 0x06; 0x04; 1; 2; 3; 4; 5]) =
    Raise ValueError.
Proof.
  split; [|split].
  - apply (proj1 (proj2 chassis_mac_six_octets)). vm_compute. discriminate.
  - apply (proj1 (proj2 chassis_mac_six_octets)). vm_compute. discriminate.
  - apply (proj2 (proj2 chassis_mac_six_octets) _ 6).
    + reflexivity.
    + reflexivity.
    + discriminate.
Defined.

(** X4.  A Chassis-ID built from a well-typed identifier (six octets for
    the MAC subtype, an IPv4 or IPv6 address for the network subtype, a
    string of at most 255 encoded octets for the other subtypes) is what
    [ChassisIdTLV.from_bytes] returns on its encoding. *)
Theorem chassis_roundtrip (st : Subtype) (v : idval) (t : TLV) :
  Inv.wf_id st v -> ChassisIdTLV.init st v = Ok t ->
  ChassisIdTLV.from_bytes (TLV_bytes t) = Ok t.
Proof.
  intros Hw Hi.
  apply (RoundTrip.identifier_roundtrip Type_.CHASSIS_ID ChassisId)
    with (2 := Hw); [reflexivity|exact Hi].
Qed.

(** X4 at a network address. *)
Lemma chassis_roundtrip_witness :
  ChassisIdTLV.from_bytes
    (TLV_bytes
       (mkTLV (ChassisId NETWORK_ADDRESS (IdIP Scenario.ipv4_192_0_2_1))
              (map z2b [0x05; 0x01; 0xc0; 0x00; 0x02; 0x01]))) =
    Ok (mkTLV (ChassisId NETWORK_ADDRESS (IdIP Scenario.ipv4_192_0_2_1))
              (map z2b [0x05; 0x01; 0xc0; 0x00; 0x02; 0x01])).
Proof.
  apply (chassis_roundtrip NETWORK_ADDRESS (IdIP Scenario.ipv4_192_0_2_1)).
  - apply Inv.wf_net. reflexivity.
  - reflexivity.
Defined.

(** X5.  The decoder refuses a Chassis-ID whose subtype octet is outside
    1..7 with a [ValueError]. *)
Theorem chassis_unknown_subtype (data : bytes) (n v : Z) :
  check_header Type_.CHASSIS_ID data = Ok n ->
  getitem data 2 = Ok v -> v < 1 \/ 7 < v ->
  ChassisIdTLV.from_bytes data = Raise ValueError.
Proof.
  intros Hc Hg Hv.
  unfold ChassisIdTLV.from_bytes, identifier_from_bytes.
  rewrite Hc. cbn [bind]. rewrite Hg. cbn [bind].
  change (Subtype_value MAC_ADDRESS) with 4.
  change (Subtype_value NETWORK_ADDRESS) with 5.
  destruct (Z.eqb_spec v 4); [lia|]. destruct (Z.eqb_spec v 5); [lia|].
  assert (E : Subtype_of v = Raise ValueError).
  { unfold Subtype_of. destruct v as [|p|p]; try reflexivity.
    do 3 (destruct p as [p|p|]; try reflexivity; try lia). }
  rewrite E. reflexivity.
Qed.

(** X5 at the reserved subtypes 0 and 8. *)
Lemma chassis_unknown_subtype_witness :
  ChassisIdTLV.from_bytes (map z2b [0x02; 0x02; 0x00; 0x61]) =
    Raise ValueError /\
  ChassisIdTLV.from_bytes (map z2b [0x02; 0x02; 0x08; 0x61]) =
    Raise ValueError.
Proof.
  split.
  - apply (chassis_unknown_subtype _ 2 0); [reflexivity|reflexivity|lia].
  - apply (chassis_unknown_subtype _ 2 8); [reflexivity|reflexivity|lia].
Defined.

(** X6.  What the decoder does check on a network-address Chassis-ID:
    whenever it returns, the address after the family octet has four or
    sixteen octets and is the value of the record, family 1 stands in
    front of four octets only and family 2 in front of sixteen only. *)
Theorem chassis_network_checked (data : bytes) (t : TLV) :
  ChassisIdTLV.from_bytes data = Ok t -> getitem data 2 = Ok 5 ->
  exists a f,
    getitem data 3 = Ok f /\
    ip_address (slice data 4 (len data)) = Ok a /\
    tlv_attrs t = ChassisId NETWORK_ADDRESS (IdIP a) /\
    (len (packed a) = 4 /\ version a = 4 \/
     len (packed a) = 16 /\ version a = 6) /\
    (f = 1 -> version a = 4) /\ (f = 2 -> version a = 6).
Proof.
  unfold ChassisIdTLV.from_bytes, identifier_from_bytes. intros H Hg.
  destruct (check_header Type_.CHASSIS_ID data) as [n|]; [|discriminate].
  cbn [bind] in H. rewrite Hg in H. cbn [bind] in H.
  change (5 =? Subtype_value MAC_ADDRESS) with false in H.
  change (5 =? Subtype_value NETWORK_ADDRESS) with true in H.
  cbv iota in H.
  destruct (ip_address (slice data 4 (len data))) as [a|] eqn:Ea;
    [|discriminate].
  cbn [bind] in H.
  destruct (getitem data 3) as [f|]; [|discriminate]. cbn [bind] in H.
  destruct ((f =? 1) && negb (version a =? 4)) eqn:C1; [discriminate|].
  destruct ((f =? 2) && negb (version a =? 6)) eqn:C2; [discriminate|].
  change (Subtype_of 5) with (Ok NETWORK_ADDRESS) in H. cbn [bind] in H.
  exists a, f. split; [reflexivity|]. split; [reflexivity|].
  split; [apply (RoundTrip.identifier_init_attrs _ _ _ _ H)|].
  split.
  - unfold ip_address in Ea.
    destruct (Z.eqb_spec (len (slice data 4 (len data))) 4);
      [injection Ea as <-; left; auto|].
    destruct (Z.eqb_spec (len (slice data 4 (len data))) 16);
      [injection Ea as <-; right; auto|discriminate].
  - split; intros ->; cbn [Z.eqb Pos.eqb andb] in C1, C2.
    + destruct (Z.eqb_spec (version a) 4); [assumption|discriminate].
    + destruct (Z.eqb_spec (version a) 6); [assumption|discriminate].
Qed.

(** X6 at the address 192.0.2.1 under family 1. *)
Lemma chassis_network_checked_witness :
  exists a f,
    getitem (map z2b [0x02; 0x06; 0x05; 0x01; 0xc0; 0x00; 0x02; 0x01]) 3 =
      Ok f /\
    ip_address
      (slice (map z2b [0x02; 0x06; 0x05; 0x01; 0xc0; 0x00; 0x02; 0x01]) 4
             (len (map z2b [0x02; 0x06; 0x05; 0x01; 0xc0; 0x00; 0x02; 0x01])))
      = Ok a /\
    tlv_attrs
      (mkTLV (ChassisId NETWORK_ADDRESS (IdIP Scenario.ipv4_192_0_2_1))
             (map z2b [0x05; 0x01; 0xc0; 0x00; 0x02; 0x01])) =
      ChassisId NETWORK_ADDRESS (IdIP a) /\
    (len (packed a) = 4 /\ version a = 4 \/
     len (packed a) = 16 /\ version a = 6) /\
    (f = 1 -> version a = 4) /\ (f = 2 -> version a = 6).
Proof.
  apply (chassis_network_checked
           (map z2b [0x02; 0x06; 0x05; 0x01; 0xc0; 0x00; 0x02; 0x01])).
  - reflexivity.
  - reflexivity.
Defined.

(** ** The management address ([managementaddress_tlv.py]) *)

(** X7.  A management address built from an IPv4 or IPv6 address, an
    interface number and numbering subtype, and no OID or an OID that is
    not empty, is what [ManagementAddressTLV.from_bytes] returns on its
    encoding. *)
Theorem management_address_roundtrip (a : ip) (n : Z)
    (st : IFNumberingSubtype) (oid : option bytes) (t : TLV) :
  Inv.wf_ip a -> oid <> Some [] ->
  ManagementAddressTLV.init a n st oid = Ok t ->
  ManagementAddressTLV.from_bytes (TLV_bytes t) = Ok t.
Proof.
  intros Ha Ho Hi. exact (RoundTrip.management_roundtrip a n st oid t Ha Ho Hi).
Qed.

(** X7 at the example of the class: 192.0.2.1, interface 4 by ifIndex,
    OID 00 08 15. *)
Lemma management_address_roundtrip_witness :
  ManagementAddressTLV.from_bytes
    (TLV_bytes
       (mkTLV (ManagementAddress Scenario.ipv4_192_0_2_1 4 IF_INDEX
                 (Some (map z2b [0x00; 0x08; 0x15])))
              (map z2b [0x05; 0x01; 0xc0; 0x00; 0x02; 0x01;
                        0x02; 0x00; 0x00; 0x00; 0x04;
                        0x03; 0x00; 0x08; 0x15]))) =
    Ok (mkTLV (ManagementAddress Scenario.ipv4_192_0_2_1 4 IF_INDEX
                 (Some (map z2b [0x00; 0x08; 0x15])))
              (map z2b [0x05; 0x01; 0xc0; 0x00; 0x02; 0x01;
                        0x02; 0x00; 0x00; 0x00; 0x04;
                        0x03; 0x00; 0x08; 0x15])).
Proof.
  apply (management_address_roundtrip Scenario.ipv4_192_0_2_1 4 IF_INDEX
           (Some (map z2b [0x00; 0x08; 0x15]))).
  - reflexivity.
  - discriminate.
  - reflexivity.
Defined.

Lemma management_init_payload a n st oid :
  ManagementAddressTLV.init a n st oid =
    if (n <? 0) || (2 ^ 32 <=? n) then Raise StructError
    else
      match oid with
      | Some o =>
          if 256 <=? len o then Raise OverflowError
          else
            Ok (mkTLV (ManagementAddress a n st oid)
                  ([z2b (max_prefixlen a / 8 + 1)]
                   ++ [z2b (match a with
                            | IPv4Address _ => 1
                            | IPv6Address _ => 2
                            end)]
                   ++ packed a ++ [z2b (IFNumberingSubtype_value st)]
                   ++ be_bytes 4 n ++ [z2b (len o)] ++ o))
      | None =>
          Ok (mkTLV (ManagementAddress a n st oid)
                ([z2b (max_prefixlen a / 8 + 1)]
                 ++ [z2b (match a with
                          | IPv4Address _ => 1
                          | IPv6Address _ => 2
                          end)]
                 ++ packed a ++ [z2b (IFNumberingSubtype_value st)]
                 ++ be_bytes 4 n ++ [Byte.x00]))
      end.
Proof.
  unfold ManagementAddressTLV.init.
  rewrite RoundTrip.pack_1 by (destruct a; cbn [max_prefixlen]; lia).
  cbn [bind].
  rewrite RoundTrip.pack_1 by (destruct a; lia). cbn [bind].
  rewrite RoundTrip.pack_1 by apply RoundTrip.ifsubtype_range. cbn [bind].
  unfold ManagementAddressTLV.pack.
  change (2 ^ (8 * Z.of_nat 4)) with (2 ^ 32).
  destruct ((n <? 0) || (2 ^ 32 <=? n)); [reflexivity|]. cbn [bind].
  destruct oid as [o|].
  - unfold int_to_bytes. change (2 ^ (8 * Z.of_nat 1)) with 256.
    pose proof (len_nonneg o).
    destruct (Z.ltb_spec (len o) 0); [lia|]. cbn [orb].
    destruct (256 <=? len o); reflexivity.
  - reflexivity.
Qed.

(** X8.  An empty OID is not kept apart from no OID: a management
    address built with the OID [b""] has the same encoding as the one
    built without OID, and decoding it gives the record without OID. *)
Theorem management_empty_oid_decodes_to_none (a : ip) (n : Z)
    (st : IFNumberingSubtype) (t : TLV) :
  Inv.wf_ip a ->
  ManagementAddressTLV.init a n st (Some []) = Ok t ->
  exists t',
    ManagementAddressTLV.init a n st None = Ok t' /\
    TLV_bytes t' = TLV_bytes t /\
    tlv_attrs t' = ManagementAddress a n st None /\
    ManagementAddressTLV.from_bytes (TLV_bytes t) = Ok t' /\
    t' <> t.
Proof.
  intros Ha Hi.
  rewrite management_init_payload in Hi.
  pose proof (management_init_payload a n st None) as Hn.
  destruct ((n <? 0) || (2 ^ 32 <=? n)); [discriminate|].
  change (256 <=? len []) with false in Hi. cbv iota in Hi.
  injection Hi as <-.
  eexists. split; [exact Hn|].
  split; [reflexivity|]. split; [reflexivity|].
  split.
  - change (TLV_bytes
              (mkTLV (ManagementAddress a n st (Some []))
                 ([z2b (max_prefixlen a / 8 + 1)]
                  ++ [z2b (match a with
                           | IPv4Address _ => 1
                           | IPv6Address _ => 2
                           end)]
                  ++ packed a ++ [z2b (IFNumberingSubtype_value st)]
                  ++ be_bytes 4 n ++ [z2b (len [])] ++ [])))
      with (TLV_bytes
              (mkTLV (ManagementAddress a n st None)
                 ([z2b (max_prefixlen a / 8 + 1)]
                  ++ [z2b (match a with
                           | IPv4Address _ => 1
                           | IPv6Address _ => 2
                           end)]
                  ++ packed a ++ [z2b (IFNumberingSubtype_value st)]
                  ++ be_bytes 4 n ++ [Byte.x00]))).
    apply RoundTrip.management_roundtrip with (3 := Hn);
      [exact Ha|discriminate].
  - discriminate.
Qed.

(** X8 at 192.0.2.1. *)
Lemma management_empty_oid_decodes_to_none_witness :
  exists t',
    ManagementAddressTLV.init Scenario.ipv4_192_0_2_1 4 IF_INDEX None =
      Ok t' /\
    TLV_bytes t' =
      TLV_bytes
        (mkTLV (ManagementAddress Scenario.ipv4_192_0_2_1 4 IF_INDEX (Some []))
               (map z2b [0x05; 0x01; 0xc0; 0x00; 0x02; 0x01;
                         0x02; 0x00; 0x00; 0x00; 0x04; 0x00])) /\
    tlv_attrs t' = ManagementAddress Scenario.ipv4_192_0_2_1 4 IF_INDEX None /\
    ManagementAddressTLV.from_bytes
      (TLV_bytes
        (mkTLV (ManagementAddress Scenario.ipv4_192_0_2_1 4 IF_INDEX (Some []))
               (map z2b [0x05; 0x01; 0xc0; 0x00; 0x02; 0x01;
                         0x02; 0x00; 0x00; 0x00; 0x04; 0x00]))) = Ok t' /\
    t' <>
      mkTLV (ManagementAddress Scenario.ipv4_192_0_2_1 4 IF_INDEX (Some []))
            (map z2b [0x05; 0x01; 0xc0; 0x00; 0x02; 0x01;
                      0x02; 0x00; 0x00; 0x00; 0x04; 0x00]).
Proof.
  apply (management_empty_oid_decodes_to_none Scenario.ipv4_192_0_2_1 4
           IF_INDEX).
  - reflexivity.
  - reflexivity.
Defined.

(** X9.  The constructor of the management address accepts exactly the
    interface numbers of 32 bits and the OIDs of at most 255 octets: a
    number outside raises [struct.error], a longer OID [OverflowError].
    The payload starts with the address string length, 5 for an IPv4 and
    17 for an IPv6 address, then the family, 1 or 2, then the address. *)
Theorem management_init_accepts (a : ip) (n : Z) (st : IFNumberingSubtype) :
  Inv.wf_ip a ->
  (n < 0 \/ 2 ^ 32 <= n ->
   forall oid, ManagementAddressTLV.init a n st oid = Raise StructError) /\
  (0 <= n < 2 ^ 32 ->
   forall o, 256 <= len o ->
     ManagementAddressTLV.init a n st (Some o) = Raise OverflowError) /\
  (0 <= n < 2 ^ 32 ->
   forall oid, (forall o, oid = Some o -> len o <= 255) ->
   exists al af rest,
     ManagementAddressTLV.init a n st oid =
       Ok (mkTLV (ManagementAddress a n st oid)
                 (z2b al :: z2b af :: packed a ++ rest)) /\
     (version a = 4 /\ al = 5 /\ af = 1 \/
      version a = 6 /\ al = 17 /\ af = 2)).
Proof.
  intros Ha. split; [|split].
  - intros H oid. rewrite management_init_payload.
    destruct (Z.ltb_spec n 0); [reflexivity|].
    destruct (Z.leb_spec (2 ^ 32) n); [reflexivity|lia].
  - intros H o Ho. rewrite management_init_payload.
    destruct (Z.ltb_spec n 0); [lia|].
    destruct (Z.leb_spec (2 ^ 32) n); [lia|]. cbn [orb].
    destruct (Z.leb_spec 256 (len o)); [reflexivity|lia].
  - intros H oid Ho. rewrite management_init_payload.
    destruct (Z.ltb_spec n 0); [lia|].
    destruct (Z.leb_spec (2 ^ 32) n); [lia|]. cbn [orb].
    assert (Hk : version a = 4 /\ max_prefixlen a / 8 + 1 = 5 /\
                 match a with IPv4Address _ => 1 | IPv6Address _ => 2 end = 1
                 \/
                 version a = 6 /\ max_prefixlen a / 8 + 1 = 17 /\
                 match a with IPv4Address _ => 1 | IPv6Address _ => 2 end = 2).
    { destruct a as [p|p]; cbn [max_prefixlen version]; [left|right];
        repeat split. }
    destruct oid as [o|].
    + specialize (Ho o eq_refl).
      destruct (Z.leb_spec 256 (len o)); [lia|].
      eexists _, _, _. split; [cbn [app]; reflexivity|exact Hk].
    + eexists _, _, _. split; [cbn [app]; reflexivity|exact Hk].
Qed.

(** X9 at an interface number of 33 bits. *)
Lemma management_init_accepts_witness :
  ManagementAddressTLV.init Scenario.ipv4_192_0_2_1 (2 ^ 32) IF_INDEX None =
    Raise StructError.
Proof.
  apply (proj1 (management_init_accepts Scenario.ipv4_192_0_2_1 (2 ^ 32)
                  IF_INDEX eq_refl)). right. lia.
Defined.

(** ** The organizationally specific record
    ([organizationallyspecific_tlv.py]) *)

Lemma organizationally_init_eq oui st v :
  OrganizationallySpecificTLV.init oui st v =
    match v with
    | OrganizationallySpecificTLV.OrgStr s =>
        match utf8_encode s with
        | Ok b => Ok (mkTLV (OrganizationallySpecific oui st b)
                            (oui ++ st ++ b))
        | Raise e => Raise e
        end
    | OrganizationallySpecificTLV.OrgBytes b =>
        Ok (mkTLV (OrganizationallySpecific oui st b) (oui ++ st ++ b))
    end.
Proof.
  unfold OrganizationallySpecificTLV.init.
  destruct v as [s|b]; [destruct (utf8_encode s)|]; reflexivity.
Qed.

(** X10.  An organizationally specific record with an OUI of three
    octets, a subtype of one octet and at most 507 octets of value is
    what the decoder returns on its encoding; a [str] value gives the same
    record as its UTF-8 octets. *)
Theorem organizationally_specific_roundtrip
    (oui st : bytes) (v : OrganizationallySpecificTLV.orgvalue) (t : TLV) :
  len oui = 3 -> len st = 1 ->
  OrganizationallySpecificTLV.init oui st v = Ok t -> tlv_len t <= 511 ->
  OrganizationallySpecificTLV.from_bytes (TLV_bytes t) = Ok t /\
  (forall s b, v = OrganizationallySpecificTLV.OrgStr s ->
     utf8_encode s = Ok b ->
     OrganizationallySpecificTLV.init oui st
       (OrganizationallySpecificTLV.OrgBytes b) = Ok t).
Proof.
  intros Hu Hs Hi Hl. split.
  - exact (RoundTrip.organizationally_roundtrip oui st v t Hu Hs Hi Hl).
  - intros s b -> Hb. rewrite organizationally_init_eq in Hi |- *.
    rewrite Hb in Hi. exact Hi.
Qed.

(** X10 at the largest value, 507 octets. *)
Lemma organizationally_specific_roundtrip_witness :
  OrganizationallySpecificTLV.from_bytes
    (TLV_bytes
       (mkTLV (OrganizationallySpecific (map z2b [0x00; 0x12; 0x0f])
                 [Byte.x01] (repeat Byte.x61 507))
              (map z2b [0x00; 0x12; 0x0f] ++ [Byte.x01]
               ++ repeat Byte.x61 507))) =
    Ok (mkTLV (OrganizationallySpecific (map z2b [0x00; 0x12; 0x0f])
                 [Byte.x01] (repeat Byte.x61 507))
              (map z2b [0x00; 0x12; 0x0f] ++ [Byte.x01]
               ++ repeat Byte.x61 507)).
Proof.
  apply (proj1 (organizationally_specific_roundtrip
                  (map z2b [0x00; 0x12; 0x0f]) [Byte.x01]
                  (OrganizationallySpecificTLV.OrgBytes (repeat Byte.x61 507))
                  _ eq_refl eq_refl eq_refl
                  ltac:(vm_compute; discriminate))).
Defined.

(** X11.  The decoder of the organizationally specific record reads the
    subtype at the sixth octet of the slice without a check of the
    length: a payload of fewer than four octets raises [IndexError].
    Whatever it returns has the first three payload octets as OUI, the
    fourth as subtype and the rest as value, and is encoded as the very
    slice it was decoded from. *)
Theorem organizationally_specific_decode :
  (forall data n,
      check_header Type_.ORGANIZATIONALLY_SPECIFIC data = Ok n -> n < 4 ->
      OrganizationallySpecificTLV.from_bytes data = Raise IndexError) /\
  (forall data t,
      OrganizationallySpecificTLV.from_bytes data = Ok t ->
      t = mkTLV (OrganizationallySpecific (slice data 2 5) (slice data 5 6)
                   (slice data 6 (len data)))
                (skipn 2 data) /\
      len (slice data 2 5) = 3 /\ len (slice data 5 6) = 1 /\
      TLV_bytes t = data).
Proof.
  split.
  - intros data n Hc Hn. unfold OrganizationallySpecificTLV.from_bytes.
    rewrite Hc. cbn [bind].
    destruct (check_header_inv _ _ _ Hc) as (b0 & b1 & p & -> & Hp & _).
    rewrite LoopFacts.getitem_past; [reflexivity|].
    unfold len in *. cbn [List.length]. lia.
  - intros data t H. unfold OrganizationallySpecificTLV.from_bytes in H.
    destruct (check_header Type_.ORGANIZATIONALLY_SPECIFIC data) as [n|] eqn:Hc;
      [|discriminate].
    cbn [bind] in H.
    destruct (getitem data 5) as [d5|] eqn:H5; [|discriminate].
    cbn [bind] in H.
    assert (Hd : exists a b c d e f rest,
               data = a :: b :: c :: d :: e :: f :: rest /\ d5 = b2z f).
    { destruct data as [|a [|b [|c [|d [|e [|f rest]]]]]];
        try (vm_compute in H5; discriminate).
      exists a, b, c, d, e, f, rest. split; [reflexivity|].
      assert (G : getitem (a :: b :: c :: d :: e :: f :: rest) 5 =
                  Ok (b2z f)) by reflexivity.
      congruence. }
    destruct Hd as (a & b & c & d & e & f & rest & -> & ->).
    rewrite RoundTrip.to_bytes_1 in H by apply b2z_range.
    cbn [bind] in H. rewrite z2b_b2z in H.
    assert (E1 : slice (a :: b :: c :: d :: e :: f :: rest) 2 5 = [c; d; e]).
    { apply (Layout.slice_at [a; b] [c; d; e] (f :: rest)); reflexivity. }
    assert (E2 : slice (a :: b :: c :: d :: e :: f :: rest) 5 6 = [f]).
    { apply (Layout.slice_at [a; b; c; d; e] [f] rest); reflexivity. }
    assert (E3 : slice (a :: b :: c :: d :: e :: f :: rest) 6
                   (len (a :: b :: c :: d :: e :: f :: rest)) = rest).
    { rewrite slice_to_end; [reflexivity|].
      unfold len. cbn [List.length]. lia. }
    rewrite E1, E2, E3 in *.
    rewrite organizationally_init_eq in H. injection H as <-.
    cbn [app skipn]. repeat split.
    apply (header_canonical Type_.ORGANIZATIONALLY_SPECIFIC _ n); auto.
Qed.

(** X11 at a record of three payload octets. *)
Lemma organizationally_specific_decode_witness :
  OrganizationallySpecificTLV.from_bytes
    (map z2b [0xfe; 0x03; 0x00; 0x12; 0x0f]) = Raise IndexError.
Proof.
  apply (proj1 organizationally_specific_decode _ 3); [reflexivity|lia].
Defined.

(** ** The capability queries ([systemcapabilities_tlv.py]) *)

(** X12.  On a SystemCapabilities record built from the bitmaps
    [supported] and [enabled], [supports(c)] holds exactly when every bit
    of [c] is in [supported], [enabled(c)] exactly when every bit of [c]
    is in [enabled], and whatever is enabled is supported. *)
Theorem capabilities_queries (supported enabled : Z) (t : TLV) :
  SystemCapabilitiesTLV.init supported enabled = Ok t ->
  exists value,
    tlv_attrs t = SystemCapabilities value /\
    forall c,
      (SystemCapabilitiesTLV.supports value c = true <->
       Z.land c (Z.lnot supported) = 0) /\
      (SystemCapabilitiesTLV.enabled value c = true <->
       Z.land c (Z.lnot enabled) = 0) /\
      (SystemCapabilitiesTLV.enabled value c = true ->
       SystemCapabilitiesTLV.supports value c = true).
Proof.
  intros Hi. apply CapabilityFacts.init_ok in Hi.
  destruct Hi as (Hg & Hs & He & ->).
  eexists. split; [reflexivity|]. intros c.
  unfold SystemCapabilitiesTLV.supports, SystemCapabilitiesTLV.enabled.
  rewrite CapabilityFacts.supported_of_stored,
    CapabilityFacts.enabled_of_stored by assumption.
  rewrite !Z.eqb_eq, !CapabilityFacts.guard_iff.
  repeat split; try tauto.
  intros H. apply CapabilityFacts.guard_iff.
  apply CapabilityFacts.guard_iff in H.
  rewrite <- Hg at 1. rewrite Z.lor_assoc, H. exact Hg.
Qed.

(** X12 at a bridge and router of which only the bridge is enabled. *)
Lemma capabilities_queries_witness :
  exists value,
    tlv_attrs (mkTLV (SystemCapabilities 1310724) (map z2b [0; 20; 0; 4])) =
      SystemCapabilities value /\
    forall c,
      (SystemCapabilitiesTLV.supports value c = true <->
       Z.land c (Z.lnot 20) = 0) /\
      (SystemCapabilitiesTLV.enabled value c = true <->
       Z.land c (Z.lnot 4) = 0) /\
      (SystemCapabilitiesTLV.enabled value c = true ->
       SystemCapabilitiesTLV.supports value c = true).
Proof.
  apply (capabilities_queries 20 4). reflexivity.
Defined.

(** X13.  The decoder of SystemCapabilities does not compare the header
    length with 4: a payload of fewer than four octets raises
    [struct.error], and of a longer payload only the first four octets
    are read, so that the record returned always has a payload of four
    octets and is not encoded as the slice it came from. *)
Theorem capabilities_decode_length :
  (forall data n,
      check_header Type_.SYSTEM_CAPABILITIES data = Ok n -> n < 4 ->
      SystemCapabilitiesTLV.from_bytes data = Raise StructError) /\
  (forall data t,
      SystemCapabilitiesTLV.from_bytes data = Ok t ->
      len (tlv_bytes t) = 4 /\ 6 <= len data /\
      (6 < len data -> TLV_bytes t <> data)).
Proof.
  split.
  - intros data n Hc Hn. unfold SystemCapabilitiesTLV.from_bytes.
    rewrite Hc. cbn [bind].
    destruct (check_header_inv _ _ _ Hc) as (b0 & b1 & p & -> & Hp & _).
    unfold unpack_from.
    change (2 <? 0) with false. change (4 <? 0) with false. cbn [orb].
    change (Z.of_nat 2) with 2.
    destruct (Z.ltb_spec (len (b0 :: b1 :: p)) (2 + 2)); [reflexivity|].
    cbn [bind].
    destruct (Z.ltb_spec (len (b0 :: b1 :: p)) (4 + 2)); [reflexivity|].
    unfold len in *. cbn [List.length] in *. lia.
  - intros data t H. unfold SystemCapabilitiesTLV.from_bytes in H.
    destruct (check_header Type_.SYSTEM_CAPABILITIES data) as [n|];
      [|discriminate].
    cbn [bind] in H.
    destruct (unpack_from 2 data 2) as [s|]; [|discriminate].
    destruct (unpack_from 2 data 4) as [e|] eqn:He; [|discriminate].
    cbn [bind] in H.
    apply CapabilityFacts.init_ok in H. destruct H as (_ & _ & _ & ->).
    cbn [tlv_bytes].
    assert (L4 : len (be_bytes 4 (Z.lor e (Z.shiftl s 16))) = 4).
    { unfold len. rewrite Layout.be_bytes_length. reflexivity. }
    assert (L6 : 6 <= len data).
    { unfold unpack_from in He.
      destruct (Z.ltb_spec (len data) (4 + Z.of_nat 2));
        [rewrite orb_true_r in He; discriminate|].
      change (Z.of_nat 2) with 2 in *. lia. }
    repeat split; try assumption.
    intros Hlong E. rewrite <- E in Hlong.
    rewrite Decode.len_TLV_bytes in Hlong. unfold tlv_len in Hlong.
    cbn [tlv_bytes] in Hlong. lia.
Qed.

(** X13 at a payload of five octets. *)
Lemma capabilities_decode_length_witness :
  len (tlv_bytes
         (mkTLV (SystemCapabilities 393220) (map z2b [0; 6; 0; 4]))) = 4 /\
  6 <= len (map z2b [0x0e; 0x05; 0x00; 0x06; 0x00; 0x04; 0xff]) /\
  (6 < len (map z2b [0x0e; 0x05; 0x00; 0x06; 0x00; 0x04; 0xff]) ->
   TLV_bytes (mkTLV (SystemCapabilities 393220) (map z2b [0; 6; 0; 4])) <>
     map z2b [0x0e; 0x05; 0x00; 0x06; 0x00; 0x04; 0xff]).
Proof.
  apply (proj2 capabilities_decode_length
           (map z2b [0x0e; 0x05; 0x00; 0x06; 0x00; 0x04; 0xff])).
  reflexivity.
Defined.

(** ** What every class decoder checks first *)

Module DecoderFacts.

Lemma attrs_type t a ty :
  tlv_attrs t = a -> tlv_type (mkTLV a []) = ty -> tlv_type t = ty.
Proof. unfold tlv_type. cbn [tlv_attrs]. intros ->. auto. Qed.

Lemma header_len ty data n :
  check_header ty data = Ok n -> n = len data - 2.
Proof.
  intros Hc. destruct (check_header_inv _ _ _ Hc)
    as (b0 & b1 & p & -> & Hp & _).
  unfold len in *. cbn [List.length]. lia.
Qed.

Lemma identifier_decoded ty cls data t :
  (forall st v, tlv_type (mkTLV (cls st v) []) = ty) ->
  identifier_from_bytes ty cls data = Ok t ->
  check_header ty data = Ok (len data - 2) /\ tlv_type t = ty.
Proof.
  intros Hcls H. unfold identifier_from_bytes in H.
  destruct (check_header ty data) as [n|] eqn:Hc; [|discriminate].
  rewrite <- (header_len _ _ _ Hc). split; [reflexivity|].
  cbn [bind] in H.
  assert (G : exists st v, identifier_init cls st v = Ok t).
  { destruct (getitem data 2) as [v2|]; [|discriminate]. cbn [bind] in H.
    destruct (v2 =? Subtype_value MAC_ADDRESS).
    - destruct (negb (n =? 7)); [discriminate|].
      destruct (Subtype_of v2); [|discriminate]. cbn [bind] in H. eauto.
    - destruct (v2 =? Subtype_value NETWORK_ADDRESS).
      + destruct (ip_address _); [|discriminate]. cbn [bind] in H.
        destruct (getitem data 3); [|discriminate]. cbn [bind] in H.
        destruct (_ && _); [discriminate|].
        destruct (_ && _); [discriminate|].
        destruct (Subtype_of v2); [|discriminate]. cbn [bind] in H. eauto.
      + destruct (Subtype_of v2); [|discriminate]. cbn [bind] in H.
        destruct (utf8_decode _); [|discriminate]. cbn [bind] in H. eauto. }
  destruct G as (st & v & G).
  apply (attrs_type t (cls st v)); [|apply Hcls].
  apply (RoundTrip.identifier_init_attrs _ _ _ _ G).
Qed.

Lemma string_decoded ty cls data t :
  (forall s, tlv_type (mkTLV (cls s) []) = ty) ->
  string_from_bytes ty cls data = Ok t ->
  check_header ty data = Ok (len data - 2) /\ tlv_type t = ty.
Proof.
  intros Hcls H. unfold string_from_bytes in H.
  destruct (check_header ty data) as [n|] eqn:Hc; [|discriminate].
  rewrite <- (header_len _ _ _ Hc). split; [reflexivity|].
  cbn [bind] in H.
  destruct (utf8_decode _) as [s|]; [|discriminate]. cbn [bind] in H.
  apply (attrs_type t (cls s)); [|apply Hcls].
  apply (RoundTrip.string_init_attrs _ _ _ H).
Qed.

Lemma ttl_decoded data t :
  TTLTLV.from_bytes data = Ok t ->
  check_header Type_.TTL data = Ok (len data - 2) /\ tlv_type t = Type_.TTL.
Proof.
  unfold TTLTLV.from_bytes. intros H.
  destruct (check_header Type_.TTL data) as [n|] eqn:Hc; [|discriminate].
  rewrite <- (header_len _ _ _ Hc). split; [reflexivity|].
  cbn [bind] in H. destruct (negb _); [discriminate|].
  destruct (unpack_from 2 data 2) as [v|]; [|discriminate].
  cbn [bind] in H.
  apply (attrs_type t (TTL v)); [|reflexivity].
  apply (RoundTrip.ttl_init_attrs _ _ H).
Qed.

Lemma capabilities_decoded data t :
  SystemCapabilitiesTLV.from_bytes data = Ok t ->
  check_header Type_.SYSTEM_CAPABILITIES data = Ok (len data - 2) /\
  tlv_type t = Type_.SYSTEM_CAPABILITIES.
Proof.
  unfold SystemCapabilitiesTLV.from_bytes. intros H.
  destruct (check_header Type_.SYSTEM_CAPABILITIES data) as [n|] eqn:Hc;
    [|discriminate].
  rewrite <- (header_len _ _ _ Hc). split; [reflexivity|].
  cbn [bind] in H.
  destruct (unpack_from 2 data 2) as [s|]; [|discriminate].
  destruct (unpack_from 2 data 4) as [e|]; [|discriminate].
  cbn [bind] in H.
  destruct (RoundTrip.capabilities_init_attrs _ _ _ H) as (v & Hv).
  apply (attrs_type t _ _ Hv). reflexivity.
Qed.

Lemma management_decoded data t :
  ManagementAddressTLV.from_bytes data = Ok t ->
  check_header Type_.MANAGEMENT_ADDRESS data = Ok (len data - 2) /\
  tlv_type t = Type_.MANAGEMENT_ADDRESS.
Proof.
  unfold ManagementAddressTLV.from_bytes. intros H.
  destruct (check_header Type_.MANAGEMENT_ADDRESS data) as [n|] eqn:Hc;
    [|discriminate].
  rewrite <- (header_len _ _ _ Hc). split; [reflexivity|].
  cbn [bind] in H.
  destruct (getitem data 2) as [d2|]; [|discriminate]. cbn [bind] in H.
  destruct (getitem data (9 + (d2 - 1))) as [ol|]; [|discriminate].
  cbn [bind] in H.
  destruct (ip_address _) as [a|]; [|discriminate]. cbn [bind] in H.
  destruct (unpack_from 4 data _) as [num|]; [|discriminate].
  cbn [bind] in H.
  destruct (getitem data (4 + (d2 - 1))) as [sv|]; [|discriminate].
  cbn [bind] in H.
  destruct (IFNumberingSubtype_of sv) as [st|]; [|discriminate].
  cbn [bind] in H.
  destruct (ol =? 0);
    apply RoundTrip.management_init_attrs in H;
    apply (attrs_type t _ _ H); reflexivity.
Qed.

Lemma organizationally_decoded data t :
  OrganizationallySpecificTLV.from_bytes data = Ok t ->
  check_header Type_.ORGANIZATIONALLY_SPECIFIC data = Ok (len data - 2) /\
  tlv_type t = Type_.ORGANIZATIONALLY_SPECIFIC.
Proof.
  unfold OrganizationallySpecificTLV.from_bytes. intros H.
  destruct (check_header Type_.ORGANIZATIONALLY_SPECIFIC data) as [n|] eqn:Hc;
    [|discriminate].
  rewrite <- (header_len _ _ _ Hc). split; [reflexivity|].
  cbn [bind] in H.
  destruct (getitem data 5) as [d5|]; [|discriminate]. cbn [bind] in H.
  destruct (int_to_bytes d5 1) as [sb|]; [|discriminate]. cbn [bind] in H.
  destruct (RoundTrip.organizationally_init_attrs _ _ _ _ H) as (v & Hv).
  apply (attrs_type t _ _ Hv). reflexivity.
Qed.

End DecoderFacts.

(** X14.  Every class decoder accepts only slices of its own: whatever
    [from_bytes] of a class returns, the slice has at least two octets,
    carries the type tag of the class in its header, its header length is
    the number of octets that follow the header, and the record returned
    is of that class. *)
Theorem decoders_check_header (data : bytes) (t : TLV) :
  (ChassisIdTLV.from_bytes data = Ok t ->
   check_header Type_.CHASSIS_ID data = Ok (len data - 2) /\
   tlv_type t = Type_.CHASSIS_ID) /\
  (TTLTLV.from_bytes data = Ok t ->
   check_header Type_.TTL data = Ok (len data - 2) /\
   tlv_type t = Type_.TTL) /\
  (PortDescriptionTLV.from_bytes data = Ok t ->
   check_header Type_.PORT_DESCRIPTION data = Ok (len data - 2) /\
   tlv_type t = Type_.PORT_DESCRIPTION) /\
  (SystemNameTLV.from_bytes data = Ok t ->
   check_header Type_.SYSTEM_NAME data = Ok (len data - 2) /\
   tlv_type t = Type_.SYSTEM_NAME) /\
  (SystemDescriptionTLV.from_bytes data = Ok t ->
   check_header Type_.SYSTEM_DESCRIPTION data = Ok (len data - 2) /\
   tlv_type t = Type_.SYSTEM_DESCRIPTION) /\
  (SystemCapabilitiesTLV.from_bytes data = Ok t ->
   check_header Type_.SYSTEM_CAPABILITIES data = Ok (len data - 2) /\
   tlv_type t = Type_.SYSTEM_CAPABILITIES) /\
  (ManagementAddressTLV.from_bytes data = Ok t ->
   check_header Type_.MANAGEMENT_ADDRESS data = Ok (len data - 2) /\
   tlv_type t = Type_.MANAGEMENT_ADDRESS) /\
  (OrganizationallySpecificTLV.from_bytes data = Ok t ->
   check_header Type_.ORGANIZATIONALLY_SPECIFIC data = Ok (len data - 2) /\
   tlv_type t = Type_.ORGANIZATIONALLY_SPECIFIC).
Proof.
  repeat match goal with |- _ /\ _ => split end.
  - apply DecoderFacts.identifier_decoded. reflexivity.
  - apply DecoderFacts.ttl_decoded.
  - apply DecoderFacts.string_decoded. reflexivity.
  - apply DecoderFacts.string_decoded. reflexivity.
  - apply DecoderFacts.string_decoded. reflexivity.
  - apply DecoderFacts.capabilities_decoded.
  - apply DecoderFacts.management_decoded.
  - apply DecoderFacts.organizationally_decoded.
Qed.

(** X14 at the Chassis-ID record of scenario S1. *)
Lemma decoders_check_header_witness :
  check_header Type_.CHASSIS_ID (slice Scenario.payload 0 9) =
    Ok (len (slice Scenario.payload 0 9) - 2) /\
  tlv_type Scenario.chassis_tlv = Type_.CHASSIS_ID.
Proof.
  apply (proj1 (decoders_check_header (slice Scenario.payload 0 9)
                  Scenario.chassis_tlv)).
  reflexivity.
Defined.

(** ** The assembler beyond [append] ([lldpdu.py]) *)

(** X15.  Every LLDPDU that [append] has built keeps its counter [length]
    equal to the size of its encoding, which is at most 1500 octets; it
    has at most one Chassis-ID, Port-ID, TTL and End record, nothing
    after an End record, and the records among its first three are
    Chassis-ID, Port-ID, TTL in this order. *)
Theorem built_lldpdu_invariants (s : LLDPDU.t) :
  Inv.reachable s ->
  LLDPDU.length s = len (LLDPDU.to_bytes s) /\
  len (LLDPDU.to_bytes s) <= 1500 /\
  Inv.prefix_ok (LLDPDU.tlvs s) /\
  Inv.I2 (LLDPDU.tlvs s) /\ Inv.I3 (LLDPDU.tlvs s).
Proof.
  intros Hr.
  split; [apply AppendFacts.reachable_length, Hr|].
  split; [rewrite <- (AppendFacts.reachable_length s Hr);
          apply Kept.reachable_size, Hr|].
  split; [apply AppendFacts.reachable_prefix_ok, Hr|].
  split; [apply Kept.reachable_I2, Hr|apply Kept.reachable_I3, Hr].
Qed.

(** X15 at the LLDPDU of scenario S1. *)
Lemma built_lldpdu_invariants_witness :
  LLDPDU.length Scenario.lldpdu = len (LLDPDU.to_bytes Scenario.lldpdu) /\
  len (LLDPDU.to_bytes Scenario.lldpdu) <= 1500 /\
  Inv.prefix_ok (LLDPDU.tlvs Scenario.lldpdu) /\
  Inv.I2 (LLDPDU.tlvs Scenario.lldpdu) /\
  Inv.I3 (LLDPDU.tlvs Scenario.lldpdu).
Proof.
  exact (built_lldpdu_invariants Scenario.lldpdu scenario_reachable).
Defined.

(** X16.  On an LLDPDU that [append] has built, [complete()] is true
    exactly when it holds at least three records, and exactly when its
    first three records are Chassis-ID, Port-ID and TTL. *)
Theorem complete_iff (s : LLDPDU.t) :
  Inv.reachable s ->
  (LLDPDU.complete s = true <-> 3 <= Items.len_ s) /\
  (LLDPDU.complete s = true <-> Inv.I1 (LLDPDU.tlvs s)).
Proof.
  intros Hr.
  pose proof (AppendFacts.reachable_prefix_ok s Hr) as Hp.
  assert (A : LLDPDU.complete s = true -> Inv.I1 (LLDPDU.tlvs s)).
  { intros Hc. apply prefix_ok_complete; [exact Hp|].
    apply AppendFacts.any_ttl. unfold LLDPDU.complete in Hc.
    apply andb_prop in Hc. tauto. }
  assert (B : Inv.I1 (LLDPDU.tlvs s) -> LLDPDU.complete s = true).
  { intros Hi. destruct (I1_has _ Hi) as (_ & H1 & H2 & H3).
    unfold LLDPDU.complete.
    apply AppendFacts.any_chassis in H1. apply AppendFacts.any_port in H2.
    apply AppendFacts.any_ttl in H3. rewrite H1, H2, H3. reflexivity. }
  split; [|split; assumption].
  unfold Items.len_, len. split.
  - intros Hc. destruct (I1_has _ (A Hc)) as (Hl & _). lia.
  - intros Hl. apply B, prefix_ok_long; [exact Hp|lia].
Qed.

(** X16 at the LLDPDU of scenario S1. *)
Lemma complete_iff_witness :
  (LLDPDU.complete Scenario.lldpdu = true <-> 3 <= Items.len_ Scenario.lldpdu)
  /\
  (LLDPDU.complete Scenario.lldpdu = true <->
   Inv.I1 (LLDPDU.tlvs Scenario.lldpdu)).
Proof.
  exact (complete_iff Scenario.lldpdu scenario_reachable).
Defined.

Lemma items_getitem_nth s i :
  0 <= i < Items.len_ s ->
  Items.getitem s i =
    match nth_error (LLDPDU.tlvs s) (Z.to_nat i) with
    | Some x => Ok x
    | None => Raise IndexError
    end.
Proof.
  intros H. unfold Items.getitem.
  destruct (Z.ltb_spec i 0); [lia|]. destruct (Z.ltb_spec i 0); [lia|].
  reflexivity.
Qed.

(** X17.  After a successful [append] the LLDPDU is one record longer,
    the new record is its last one (at the old length and at position
    -1), and every record that was there is still at its position. *)
Theorem append_then_read (tlv : TLV) (s s' : LLDPDU.t) :
  LLDPDU.append tlv s = (Ok tt, s') ->
  Items.len_ s' = Items.len_ s + 1 /\
  Items.getitem s' (Items.len_ s) = Ok tlv /\
  Items.getitem s' (-1) = Ok tlv /\
  (forall i, 0 <= i < Items.len_ s ->
             Items.getitem s' i = Items.getitem s i).
Proof.
  rewrite AppendFacts.append_eq.
  destruct (Inv.refuses tlv s); [discriminate|]. intros [= <-].
  pose proof (len_nonneg (LLDPDU.tlvs s)) as Hl.
  assert (L : Items.len_
                (LLDPDU.mk (LLDPDU.length s + len (TLV_bytes tlv))
                           (LLDPDU.tlvs s ++ [tlv])) = Items.len_ s + 1).
  { unfold Items.len_. cbn [LLDPDU.tlvs]. rewrite len_app. reflexivity. }
  assert (G : Items.getitem
                (LLDPDU.mk (LLDPDU.length s + len (TLV_bytes tlv))
                           (LLDPDU.tlvs s ++ [tlv])) (Items.len_ s) = Ok tlv).
  { rewrite items_getitem_nth by (rewrite L; unfold Items.len_; lia).
    cbn [LLDPDU.tlvs]. unfold Items.len_, len. rewrite Nat2Z.id.
    rewrite nth_error_app2 by lia. rewrite Nat.sub_diag. reflexivity. }
  split; [exact L|]. split; [exact G|]. split.
  - unfold Items.getitem in G |- *. cbn [LLDPDU.tlvs] in G |- *.
    change (-1 <? 0) with true. cbv iota.
    rewrite len_app. change (len [tlv]) with 1.
    replace (-1 + (len (LLDPDU.tlvs s) + 1)) with (len (LLDPDU.tlvs s)) by lia.
    unfold Items.len_ in G. revert G.
    destruct (Z.ltb_spec (len (LLDPDU.tlvs s)) 0); [lia|].
    destruct (len (LLDPDU.tlvs s) <? 0) eqn:E0; [lia|]. trivial.
  - intros i Hi.
    rewrite !items_getitem_nth by (rewrite ?L; lia).
    cbn [LLDPDU.tlvs]. rewrite nth_error_app1; [reflexivity|].
    unfold Items.len_, len in Hi. lia.
Qed.

(** X17 at the first record of scenario S1. *)
Lemma append_then_read_witness :
  Items.len_ (LLDPDU.mk 9 [Scenario.chassis_tlv]) =
    Items.len_ (LLDPDU.mk 0 []) + 1 /\
  Items.getitem (LLDPDU.mk 9 [Scenario.chassis_tlv])
    (Items.len_ (LLDPDU.mk 0 [])) = Ok Scenario.chassis_tlv /\
  Items.getitem (LLDPDU.mk 9 [Scenario.chassis_tlv]) (-1) =
    Ok Scenario.chassis_tlv /\
  (forall i, 0 <= i < Items.len_ (LLDPDU.mk 0 []) ->
             Items.getitem (LLDPDU.mk 9 [Scenario.chassis_tlv]) i =
             Items.getitem (LLDPDU.mk 0 []) i).
Proof.
  apply (append_then_read Scenario.chassis_tlv (LLDPDU.mk 0 [])).
  reflexivity.
Defined.

(** X18.  [lldpdu[i]] returns a record exactly for
    -len(lldpdu) <= i < len(lldpdu) and raises [IndexError] otherwise (on
    the empty LLDPDU always); a negative position -k names the record at
    len(lldpdu) - k. *)
Theorem getitem_bounds (s : LLDPDU.t) (i : Z) :
  (- Items.len_ s <= i < Items.len_ s ->
   exists x, Items.getitem s i = Ok x /\ In x (LLDPDU.tlvs s)) /\
  (i < - Items.len_ s \/ Items.len_ s <= i ->
   Items.getitem s i = Raise IndexError) /\
  (- Items.len_ s <= i < 0 ->
   Items.getitem s i = Items.getitem s (Items.len_ s + i)).
Proof.
  unfold Items.len_. pose proof (len_nonneg (LLDPDU.tlvs s)) as Hl.
  split; [|split].
  - intros H. unfold Items.getitem.
    set (j := if i <? 0 then i + len (LLDPDU.tlvs s) else i).
    assert (Hj : 0 <= j < len (LLDPDU.tlvs s))
      by (unfold j; destruct (Z.ltb_spec i 0); lia).
    destruct (Z.ltb_spec j 0); [lia|].
    destruct (nth_error (LLDPDU.tlvs s) (Z.to_nat j)) as [x|] eqn:E.
    + exists x. split; [reflexivity|]. eapply nth_error_In, E.
    + apply nth_error_None in E. unfold len in Hj. lia.
  - intros H. unfold Items.getitem.
    set (j := if i <? 0 then i + len (LLDPDU.tlvs s) else i).
    assert (Hj : j < 0 \/ len (LLDPDU.tlvs s) <= j)
      by (unfold j; destruct (Z.ltb_spec i 0); lia).
    destruct (Z.ltb_spec j 0); [reflexivity|].
    destruct (nth_error (LLDPDU.tlvs s) (Z.to_nat j)) as [x|] eqn:E;
      [|reflexivity].
    assert (nth_error (LLDPDU.tlvs s) (Z.to_nat j) <> None) as N
      by congruence.
    apply nth_error_Some in N. unfold len in Hj. lia.
  - intros H. unfold Items.getitem.
    destruct (Z.ltb_spec i 0); [|lia].
    destruct (Z.ltb_spec (len (LLDPDU.tlvs s) + i) 0); [lia|].
    replace (i + len (LLDPDU.tlvs s)) with (len (LLDPDU.tlvs s) + i) by lia.
    reflexivity.
Qed.

(** X18 at position 3 of the three records of scenario S1. *)
Lemma getitem_bounds_witness :
  Items.getitem Scenario.lldpdu 3 = Raise IndexError.
Proof.
  apply (proj1 (proj2 (getitem_bounds Scenario.lldpdu 3))).
  right. vm_compute. discriminate.
Defined.

(** X19.  The constructor [LLDPDU(tlv, ...)] either raises [ValueError]
    or returns an LLDPDU that holds exactly the given records in their
    order and has all the properties of one built by [append]; and every
    LLDPDU built by [append] is what the constructor returns for its
    records. *)
Theorem constructor_appends_all :
  (forall l s, LLDPDU.init l = Ok s ->
               LLDPDU.tlvs s = l /\ Inv.reachable s) /\
  (forall l e, LLDPDU.init l = Raise e -> e = ValueError) /\
  (forall s, Inv.reachable s -> LLDPDU.init (LLDPDU.tlvs s) = Ok s).
Proof.
  assert (G : forall l s0,
             Inv.reachable s0 ->
             match LLDPDU.append_all l s0 with
             | (Ok _, s) => LLDPDU.tlvs s = LLDPDU.tlvs s0 ++ l /\
                            Inv.reachable s
             | (Raise e, _) => e = ValueError
             end).
  { induction l as [|x l IH]; intros s0 Hr; cbn [LLDPDU.append_all].
    - unfold LLDPDU.ret. rewrite app_nil_r. auto.
    - unfold LLDPDU.mbind.
      destruct (LLDPDU.append x s0) as [[[]|e] s1] eqn:Ea.
      + assert (Hr1 : Inv.reachable s1)
          by (apply Inv.reach_append with (1 := Hr) (2 := Ea)).
        specialize (IH s1 Hr1).
        assert (E1 : LLDPDU.tlvs s1 = LLDPDU.tlvs s0 ++ [x]).
        { rewrite AppendFacts.append_eq in Ea.
          destruct (Inv.refuses x s0); [discriminate|].
          injection Ea as <-. reflexivity. }
        destruct (LLDPDU.append_all l s1) as [[[]|e] s2]; [|exact IH].
        rewrite E1, <- app_assoc in IH. exact IH.
      + rewrite AppendFacts.append_eq in Ea.
        destruct (Inv.refuses x s0); [|discriminate]. congruence. }
  split; [|split].
  - intros l s H. unfold LLDPDU.init in H.
    specialize (G l (LLDPDU.mk 0 []) Inv.reach_new).
    destruct (LLDPDU.append_all l (LLDPDU.mk 0 [])) as [[[]|e] s1];
      [|discriminate].
    injection H as <-. exact G.
  - intros l e H. unfold LLDPDU.init in H.
    specialize (G l (LLDPDU.mk 0 []) Inv.reach_new).
    destruct (LLDPDU.append_all l (LLDPDU.mk 0 [])) as [[[]|e'] s1];
      [discriminate|].
    injection H as <-. exact G.
  - intros s Hr. unfold LLDPDU.init.
    rewrite (Decode.reachable_append_all s Hr). reflexivity.
Qed.

(** X19 at the records of scenario S1. *)
Lemma constructor_appends_all_witness :
  LLDPDU.init (LLDPDU.tlvs Scenario.lldpdu) = Ok Scenario.lldpdu.
Proof.
  apply (proj2 (proj2 constructor_appends_all)). exact scenario_reachable.
Defined.

(** ** The decoder [LLDPDU.from_bytes] ([lldpdu.py]) *)

Module Stream.
Import LLDPDU Inv LoopFacts.

(** The record a turn appends has the type tag read from the buffer. *)
Lemma loop_body_tagged data cur_idx l i l' :
  loop_body data cur_idx l = Ok (Continue i l') ->
  exists d0 tlv,
    getitem data cur_idx = Ok d0 /\ append tlv l = (Ok tt, l') /\
    tlv_type tlv = Z.land (Z.shiftr d0 1) 0x7F.
Proof.
  unfold loop_body.
  destruct (getitem data cur_idx) as [d0|] eqn:E0; [|discriminate].
  destruct (getitem data (cur_idx + 1)) as [d1|] eqn:E1; [|discriminate].
  cbn [bind].
  set (n := Z.lor (Z.shiftl (Z.land d0 1) 8) d1) in *.
  destruct (cur_idx + n + 2 >? len data); [discriminate|].
  intros Hb.
  split_ifs; try discriminate; open_take Hb; try discriminate.
  all: injection Hb as <- <-.
  all: apply take_ok in Et; destruct Et as (tlv & Hr & _ & Ha).
  all: exists d0, tlv; split; [reflexivity|split; [exact Ha|]].
  all: match goal with
       | H : (_ =? _) = true |- _ => apply Z.eqb_eq in H; rewrite H
       end.
  - exact (proj2 (DecoderFacts.identifier_decoded
                    Type_.CHASSIS_ID ChassisId _ _
                    (fun _ _ => eq_refl) Hr)).
  - exact (proj2 (DecoderFacts.identifier_decoded
                    Type_.PORT_ID PortId _ _ (fun _ _ => eq_refl) Hr)).
  - exact (proj2 (DecoderFacts.ttl_decoded _ _ Hr)).
  - exact (proj2 (DecoderFacts.string_decoded
                    Type_.PORT_DESCRIPTION PortDescription _ _
                    (fun _ => eq_refl) Hr)).
  - exact (proj2 (DecoderFacts.string_decoded
                    Type_.SYSTEM_NAME SystemName _ _
                    (fun _ => eq_refl) Hr)).
  - exact (proj2 (DecoderFacts.string_decoded
                    Type_.SYSTEM_DESCRIPTION SystemDescription _ _
                    (fun _ => eq_refl) Hr)).
  - exact (proj2 (DecoderFacts.capabilities_decoded _ _ Hr)).
  - exact (proj2 (DecoderFacts.management_decoded _ _ Hr)).
  - exact (proj2 (DecoderFacts.organizationally_decoded _ _ Hr)).
Qed.

Lemma loop_body_break_tag data cur_idx l l' :
  loop_body data cur_idx l = Ok (Break l') ->
  exists d0, getitem data cur_idx = Ok d0 /\
             Z.land (Z.shiftr d0 1) 0x7F = Type_.END_OF_LLDPDU.
Proof.
  unfold loop_body.
  destruct (getitem data cur_idx) as [d0|]; [|discriminate].
  destruct (getitem data (cur_idx + 1)) as [d1|]; [|discriminate].
  cbn [bind].
  set (n := Z.lor (Z.shiftl (Z.land d0 1) 8) d1) in *.
  destruct (cur_idx + n + 2 >? len data); [discriminate|].
  intros Hb. exists d0. split; [reflexivity|].
  destruct (Z.eqb_spec (Z.land (Z.shiftr d0 1) 127) Type_.END_OF_LLDPDU)
    as [E|E]; [exact E|].
  exfalso. split_ifs; try discriminate; open_take Hb; discriminate.
Qed.

(** The empty LLDPDU takes a Chassis-ID record and nothing else. *)
Lemma append_first tlv s' :
  append tlv (mk 0 []) = (Ok tt, s') -> tlv_type tlv = Type_.CHASSIS_ID.
Proof.
  rewrite AppendFacts.append_eq. unfold refuses, any. cbn [tlvs existsb].
  destruct (len (TLV_bytes tlv) + length (mk 0 []) >? 1500);
    [discriminate|].
  cbn [orb negb].
  destruct (Z.eqb_spec (tlv_type tlv) Type_.CHASSIS_ID) as [E|E];
    [intros _; exact E|].
  destruct (tlv_type tlv =? Type_.PORT_ID); [discriminate|].
  destruct (tlv_type tlv =? Type_.TTL); discriminate.
Qed.

(** The loop returns only by [break], after it appended an End record to
    an LLDPDU built by [append]. *)
Lemma loop_returns fuel : forall data cur_idx l l',
  0 <= cur_idx <= len data -> reachable l ->
  loop fuel data cur_idx l = Some (Ok l') ->
  exists s, reachable s /\ append (mkTLV EndOfLLDPDU []) s = (Ok tt, l').
Proof.
  induction fuel as [|fuel IH]; intros data cur_idx l l' Hc Hr;
    [discriminate|].
  cbn [loop].
  destruct (Z.ltb_spec cur_idx (len data + 1)); [|lia].
  destruct (loop_body data cur_idx l) as [[i l1|l1]|e] eqn:E.
  - apply loop_body_continue in E. destruct E as [Hi (tlv & Ha)].
    apply IH; [lia|]. exact (reach_append tlv Hr Ha).
  - intros [= <-]. apply loop_body_break in E. exists l. auto.
  - discriminate.
Qed.

(** The loop in front of the encodings of well-formed records that are
    no End records: it decodes and appends them all and goes on behind
    them. *)
Lemma loop_prefix suf : forall s fuel l R k,
  Forall wf_tlv suf ->
  Forall (fun t => is_end t = false) suf ->
  append_all suf s = (Ok tt, l) ->
  0 <= k ->
  len (to_bytes (mk 0 suf)) + k < Z.of_nat fuel ->
  exists fuel',
    k < Z.of_nat fuel' /\
    loop fuel (to_bytes s ++ to_bytes (mk 0 suf) ++ R)
         (len (to_bytes s)) s =
    loop fuel' (to_bytes l ++ R) (len (to_bytes l)) l.
Proof.
  induction suf as [|t rest IH]; intros s fuel l R k Hwf Hne Ha Hk Hf.
  { cbn [append_all] in Ha. injection Ha as <-.
    exists fuel. split; [|reflexivity].
    change (len (to_bytes (mk 0 []))) with 0 in Hf. lia. }
  pose proof (len_nonneg (to_bytes (mk 0 rest))) as Hr0.
  pose proof (len_nonneg (to_bytes s)) as Hs0.
  pose proof (len_nonneg R) as HR0.
  rewrite (AppendFacts.to_bytes_cons 0 0) in Hf |- *.
  rewrite len_app, Decode.len_TLV_bytes in Hf.
  pose proof (len_nonneg (tlv_bytes t)) as Ht0. fold (tlv_len t) in Ht0.
  destruct fuel as [|fuel]; [lia|].
  cbn [loop].
  rewrite <- (app_assoc (TLV_bytes t)).
  destruct (Z.ltb_spec (len (to_bytes s))
              (len (to_bytes s ++ TLV_bytes t
                    ++ to_bytes (mk 0 rest) ++ R) + 1)) as [Hc|Hc].
  2:{ rewrite !len_app, Decode.len_TLV_bytes in Hc. lia. }
  inversion Hwf as [|? ? Hwt Hwr]; subst.
  inversion Hne as [|? ? Het Her]; subst.
  rewrite (Decode.loop_body_wf _ _ _ _ Hwt), Het.
  cbn [append_all] in Ha. unfold mbind in Ha.
  destruct (append t s) as [[[]|e] s'] eqn:Eap; [|discriminate].
  assert (Eb : to_bytes s' = to_bytes s ++ TLV_bytes t).
  { rewrite AppendFacts.append_eq in Eap.
    destruct (refuses t s); [discriminate|].
    injection Eap as <-. apply (AppendFacts.to_bytes_snoc _ (length s)). }
  replace (to_bytes s ++ TLV_bytes t ++ to_bytes (mk 0 rest) ++ R)
    with (to_bytes s' ++ to_bytes (mk 0 rest) ++ R)
    by (rewrite Eb, <- app_assoc; reflexivity).
  replace (len (to_bytes s) + (tlv_len t + 2)) with (len (to_bytes s'))
    by (rewrite Eb, len_app, Decode.len_TLV_bytes; reflexivity).
  apply IH; try assumption. lia.
Qed.

(** [from_bytes] on the encoding of an LLDPDU of well-formed records
    without End record, followed by anything: the loop reaches the
    octets that follow with the LLDPDU rebuilt. *)
Lemma from_bytes_prefix l R :
  reachable l ->
  Forall wf_tlv (tlvs l) ->
  Forall (fun t => is_end t = false) (tlvs l) ->
  exists fuel,
    from_bytes (to_bytes l ++ R) =
    loop (S fuel) (to_bytes l ++ R) (len (to_bytes l)) l.
Proof.
  intros Hr Hw Hne. unfold from_bytes.
  destruct (loop_prefix (tlvs l) (mk 0 [])
              (S (List.length (to_bytes l ++ R))) l R 0 Hw Hne
              (Decode.reachable_append_all l Hr) ltac:(lia))
    as (fuel' & Hf & E).
  { rewrite <- Decode.to_bytes_tlvs. rewrite length_app.
    unfold len. lia. }
  destruct fuel' as [|fuel']; [lia|].
  exists fuel'. rewrite <- E. rewrite <- Decode.to_bytes_tlvs. reflexivity.
Qed.

Lemma scenario_wf : Forall wf_tlv (tlvs Scenario.lldpdu).
Proof.
  repeat constructor.
  - apply (@wf_chassis MAC_ADDRESS (IdBytes Scenario.local_mac));
      [constructor|]; reflexivity.
  - apply (@wf_port INTERFACE_NAME (IdStr Scenario.eth0));
      [|reflexivity].
    apply (@wf_text _ _ (map z2b [0x65; 0x74; 0x68; 0x30]));
      first [discriminate|reflexivity|vm_compute; discriminate].
  - apply (@wf_ttl 60). reflexivity.
Defined.

Lemma scenario_no_end :
  Forall (fun t => is_end t = false) (tlvs Scenario.lldpdu).
Proof. repeat constructor. Defined.

End Stream.

(** X20.  [from_bytes] always returns or raises, and what it returns is
    an LLDPDU as [append] builds them: it is complete, it starts with
    Chassis-ID, Port-ID and TTL, its last record is the End record (so it
    has at least four records), and the buffer started with the header
    of a Chassis-ID record. *)
Theorem from_bytes_returns_built (data : bytes) :
  (exists r, LLDPDU.from_bytes data = Some r) /\
  (forall l,
      LLDPDU.from_bytes data = Some (Ok l) ->
      Inv.reachable l /\ LLDPDU.complete l = true /\
      Inv.I1 (LLDPDU.tlvs l) /\
      (exists pre, LLDPDU.tlvs l = pre ++ [mkTLV EndOfLLDPDU []] /\
                   3 <= len pre) /\
      Items.getitem l (-1) = Ok (mkTLV EndOfLLDPDU []) /\
      exists d0, getitem data 0 = Ok d0 /\
                 Z.land (Z.shiftr d0 1) 0x7F = Type_.CHASSIS_ID).
Proof.
  split; [apply from_bytes_total|].
  intros l H.
  assert (Hd : exists d0, getitem data 0 = Ok d0 /\
                 Z.land (Z.shiftr d0 1) 0x7F = Type_.CHASSIS_ID).
  { unfold LLDPDU.from_bytes in H. cbn [LLDPDU.loop] in H.
    pose proof (len_nonneg data).
    destruct (Z.ltb_spec 0 (len data + 1)); [|lia].
    destruct (LLDPDU.loop_body data 0 (LLDPDU.mk 0 []))
      as [[i l1|l1]|e] eqn:E; [| |discriminate].
    - apply Stream.loop_body_tagged in E.
      destruct E as (d0 & tlv & E0 & Ha & Ht).
      exists d0. split; [exact E0|]. rewrite <- Ht.
      exact (Stream.append_first _ _ Ha).
    - apply LoopFacts.loop_body_break in E.
      rewrite append_end_to_empty in E. discriminate. }
  unfold LLDPDU.from_bytes in H.
  apply Stream.loop_returns in H;
    [|pose proof (len_nonneg data); lia|exact Inv.reach_new].
  destruct H as (s & Hr & Ha).
  assert (Hl : Inv.reachable l) by exact (Inv.reach_append _ Hr Ha).
  pose proof (append_end_complete (mkTLV EndOfLLDPDU []) s l eq_refl Ha)
    as Hc.
  pose proof (proj2 (proj2 (proj2 (proj2 (reachable_invariants s Hr)))) Hc)
    as Hi.
  destruct (I1_has _ Hi) as (Hn & _).
  rewrite AppendFacts.append_eq in Ha.
  destruct (Inv.refuses (mkTLV EndOfLLDPDU []) s); [discriminate|].
  injection Ha as El.
  assert (Hcl : LLDPDU.complete l = true).
  { unfold LLDPDU.complete, LLDPDU.any in Hc |- *. rewrite <- El.
    cbn [LLDPDU.tlvs]. rewrite !existsb_app.
    apply andb_prop in Hc. destruct Hc as [Hc H3].
    apply andb_prop in Hc. destruct Hc as [H1 H2].
    rewrite H1, H2, H3. reflexivity. }
  split; [exact Hl|]. split; [exact Hcl|].
  split; [exact (proj2 (proj2 (proj2 (proj2 (reachable_invariants l Hl))))
                   Hcl)|].
  split; [exists (LLDPDU.tlvs s); rewrite <- El; split;
          [reflexivity|unfold len; lia]|].
  split; [|exact Hd].
  rewrite <- El. unfold Items.getitem. cbn [LLDPDU.tlvs].
  change (-1 <? 0) with true. cbv iota. rewrite len_app.
  change (len [mkTLV EndOfLLDPDU []]) with 1.
  replace (-1 + (len (LLDPDU.tlvs s) + 1)) with (len (LLDPDU.tlvs s))
    by lia.
  pose proof (len_nonneg (LLDPDU.tlvs s)).
  destruct (Z.ltb_spec (len (LLDPDU.tlvs s)) 0); [lia|].
  unfold len. rewrite Nat2Z.id, nth_error_app2 by lia.
  rewrite Nat.sub_diag. reflexivity.
Qed.

(** X20 at the payload of scenario S1 closed by an End record. *)
Lemma from_bytes_returns_built_witness :
  Inv.reachable Scenario.good_lldpdu /\
  LLDPDU.complete Scenario.good_lldpdu = true.
Proof.
  pose proof (proj2 (from_bytes_returns_built
                       (Scenario.payload ++ map z2b [0x00; 0x00]))
                Scenario.good_lldpdu eq_refl) as H.
  exact (conj (proj1 H) (proj1 (proj2 H))).
Defined.

(** X21.  What follows the End record in the buffer is never read: the
    encoding of an LLDPDU of well-formed records that ends with an End
    record decodes to this LLDPDU whatever octets come after it. *)
Theorem from_bytes_ignores_trailing (l : LLDPDU.t) (junk : bytes) :
  Inv.reachable l ->
  Forall Inv.wf_tlv (LLDPDU.tlvs l) ->
  (exists pre, LLDPDU.tlvs l = pre ++ [mkTLV EndOfLLDPDU []]) ->
  LLDPDU.from_bytes (LLDPDU.to_bytes l ++ junk) = Some (Ok l).
Proof.
  intros Hr Hw (pre & Hpre).
  inversion Hr as [E0|s tlv s' Hrs Ha Es'].
  { rewrite <- E0 in Hpre. destruct pre; discriminate. }
  subst s'. pose proof Ha as Ha'.
  rewrite AppendFacts.append_eq in Ha'.
  destruct (Inv.refuses tlv s) eqn:Eref; [discriminate|].
  injection Ha' as El. rewrite <- El in Hpre. cbn [LLDPDU.tlvs] in Hpre.
  apply app_inj_tail in Hpre. destruct Hpre as [Hs ->].
  assert (Hws : Forall Inv.wf_tlv (LLDPDU.tlvs s)).
  { rewrite <- El in Hw. cbn [LLDPDU.tlvs] in Hw.
    apply Forall_app in Hw. tauto. }
  assert (Hne : Forall (fun t => LLDPDU.is_end t = false) (LLDPDU.tlvs s)).
  { apply Forall_forall. intros x Hx.
    destruct (LLDPDU.is_end x) eqn:Ex; [|reflexivity].
    unfold Inv.refuses in Eref.
    assert (LLDPDU.any LLDPDU.is_end s = true) as Hany.
    { unfold LLDPDU.any. apply existsb_exists. exists x. auto. }
    rewrite Hany, orb_true_r in Eref. discriminate. }
  assert (Eb : LLDPDU.to_bytes l =
               LLDPDU.to_bytes s ++ TLV_bytes (mkTLV EndOfLLDPDU [])).
  { rewrite <- El. apply (AppendFacts.to_bytes_snoc _ (LLDPDU.length s)). }
  rewrite Eb, <- app_assoc.
  destruct (Stream.from_bytes_prefix s
              (TLV_bytes (mkTLV EndOfLLDPDU []) ++ junk) Hrs Hws Hne)
    as (fuel & ->).
  cbn [LLDPDU.loop].
  pose proof (len_nonneg (LLDPDU.to_bytes s)).
  pose proof (len_nonneg junk).
  destruct (Z.ltb_spec (len (LLDPDU.to_bytes s))
              (len (LLDPDU.to_bytes s
                    ++ TLV_bytes (mkTLV EndOfLLDPDU []) ++ junk) + 1))
    as [Hc|Hc].
  2:{ pose proof (len_nonneg (TLV_bytes (mkTLV EndOfLLDPDU []))).
      rewrite !len_app in Hc. lia. }
  rewrite (Decode.loop_body_wf _ _ _ _ Inv.wf_end), Ha. reflexivity.
Qed.

(** X21 at the LLDPDU of scenario S1 closed by an End record and followed
    by two octets. *)
Lemma from_bytes_ignores_trailing_witness :
  LLDPDU.from_bytes
    (LLDPDU.to_bytes Scenario.good_lldpdu ++ map z2b [0xff; 0xff]) =
  Some (Ok Scenario.good_lldpdu).
Proof.
  apply (from_bytes_ignores_trailing Scenario.good_lldpdu).
  - apply (@Inv.reach_append Scenario.lldpdu Scenario.end_tlv);
      [exact scenario_reachable|reflexivity].
  - apply Forall_app with (l1 := LLDPDU.tlvs Scenario.lldpdu)
                          (l2 := [Scenario.end_tlv]).
    split; [exact Stream.scenario_wf|].
    constructor; [exact Inv.wf_end|constructor].
  - exists (LLDPDU.tlvs Scenario.lldpdu). reflexivity.
Defined.

Module Headers.
Import LLDPDU Inv.

Lemma loop_turn fuel data i l e :
  0 <= i <= len data -> loop_body data i l = Raise e ->
  loop (S fuel) data i l = Some (Raise e).
Proof.
  intros Hi E. cbn [loop].
  destruct (Z.ltb_spec i (len data + 1)); [|lia]. rewrite E. reflexivity.
Qed.

Lemma header_read (P : bytes) b0 b1 rest :
  getitem (P ++ b0 :: b1 :: rest) (len P) = Ok (b2z b0) /\
  getitem (P ++ b0 :: b1 :: rest) (len P + 1) = Ok (b2z b1).
Proof.
  split; [apply Layout.getitem_at|].
  replace (P ++ b0 :: b1 :: rest) with ((P ++ [b0]) ++ b1 :: rest)
    by (rewrite <- app_assoc; reflexivity).
  apply Layout.getitem_at'. rewrite len_app. reflexivity.
Qed.

(** Fewer than two octets left: reading the header raises. *)
Lemma loop_body_short (P R : bytes) l :
  len R < 2 -> loop_body (P ++ R) (len P) l = Raise IndexError.
Proof.
  intros HR. unfold loop_body.
  destruct R as [|b0 [|b1 rest]].
  - rewrite LoopFacts.getitem_past by (rewrite len_app; unfold len at 2;
      cbn [List.length]; lia). reflexivity.
  - rewrite Layout.getitem_at. cbn [bind].
    rewrite LoopFacts.getitem_past by (rewrite len_app; unfold len at 2;
      cbn [List.length]; lia). reflexivity.
  - unfold len in HR. cbn [List.length] in HR. lia.
Qed.

(** A header that announces more octets than the buffer holds. *)
Lemma loop_body_overrun (P : bytes) b0 b1 rest l :
  len rest < Z.lor (Z.shiftl (Z.land (b2z b0) 1) 8) (b2z b1) ->
  loop_body (P ++ b0 :: b1 :: rest) (len P) l = Raise ValueError.
Proof.
  intros Hn. unfold loop_body.
  destruct (header_read P b0 b1 rest) as [-> ->]. cbn [bind].
  set (n := Z.lor (Z.shiftl (Z.land (b2z b0) 1) 8) (b2z b1)) in *.
  destruct (Z.gtb_spec (len P + n + 2) (len (P ++ b0 :: b1 :: rest)))
    as [|Hfit]; [reflexivity|].
  rewrite len_app in Hfit. unfold len at 3 in Hfit.
  cbn [List.length] in Hfit. unfold len in Hn. lia.
Qed.

(** A type tag that names no class. *)
Lemma loop_body_unknown (P : bytes) b0 b1 rest l :
  8 < Z.land (Z.shiftr (b2z b0) 1) 0x7F < 127 ->
  loop_body (P ++ b0 :: b1 :: rest) (len P) l = Raise ValueError.
Proof.
  intros Ht. unfold loop_body.
  destruct (header_read P b0 b1 rest) as [-> ->]. cbn [bind].
  destruct (_ >? _); [reflexivity|].
  unfold Type_.END_OF_LLDPDU, Type_.CHASSIS_ID, Type_.PORT_ID, Type_.TTL,
    Type_.PORT_DESCRIPTION, Type_.SYSTEM_NAME, Type_.SYSTEM_DESCRIPTION,
    Type_.SYSTEM_CAPABILITIES, Type_.MANAGEMENT_ADDRESS,
    Type_.ORGANIZATIONALLY_SPECIFIC.
  repeat match goal with
    | |- context [?a =? ?b] => destruct (Z.eqb_spec a b); [lia|]
    end.
  reflexivity.
Qed.

Lemma at_end (P R : bytes) : 0 <= len P <= len (P ++ R).
Proof.
  rewrite len_app. pose proof (len_nonneg P). pose proof (len_nonneg R). lia.
Qed.

End Headers.

(** X22.  A record whose type tag is none of 0 to 8 and 127 makes
    [from_bytes] raise [ValueError], also when it comes after records
    that were decoded and appended. *)
Theorem unknown_type_raises
    (l : LLDPDU.t) (b0 b1 : byte) (rest : bytes) :
  Inv.reachable l ->
  Forall Inv.wf_tlv (LLDPDU.tlvs l) ->
  Forall (fun t => LLDPDU.is_end t = false) (LLDPDU.tlvs l) ->
  8 < Z.land (Z.shiftr (b2z b0) 1) 0x7F < 127 ->
  LLDPDU.from_bytes (LLDPDU.to_bytes l ++ b0 :: b1 :: rest) =
    Some (Raise ValueError).
Proof.
  intros Hr Hw Hne Ht.
  destruct (Stream.from_bytes_prefix l (b0 :: b1 :: rest) Hr Hw Hne)
    as (fuel & ->).
  apply Headers.loop_turn; [apply Headers.at_end|].
  apply Headers.loop_body_unknown. exact Ht.
Qed.

(** X22 after the three records of scenario S1, with a record of type
    tag 9. *)
Lemma unknown_type_raises_witness :
  LLDPDU.from_bytes
    (LLDPDU.to_bytes Scenario.lldpdu ++ map z2b [0x12; 0x00]) =
  Some (Raise ValueError).
Proof.
  apply (unknown_type_raises Scenario.lldpdu (z2b 0x12) (z2b 0x00) []).
  - exact scenario_reachable.
  - exact Stream.scenario_wf.
  - exact Stream.scenario_no_end.
  - vm_compute. split; reflexivity.
Defined.

(** X23.  A buffer that stops short makes [from_bytes] raise: with
    [IndexError] when fewer than two octets are left where a record
    header is read (the empty buffer among them), and with [ValueError]
    when a header announces more payload octets than are left. *)
Theorem truncated_buffer_raises (l : LLDPDU.t) (R : bytes) :
  Inv.reachable l ->
  Forall Inv.wf_tlv (LLDPDU.tlvs l) ->
  Forall (fun t => LLDPDU.is_end t = false) (LLDPDU.tlvs l) ->
  (len R < 2 ->
   LLDPDU.from_bytes (LLDPDU.to_bytes l ++ R) = Some (Raise IndexError)) /\
  (forall b0 b1 rest,
      R = b0 :: b1 :: rest ->
      len rest < Z.lor (Z.shiftl (Z.land (b2z b0) 1) 8) (b2z b1) ->
      LLDPDU.from_bytes (LLDPDU.to_bytes l ++ R) = Some (Raise ValueError)).
Proof.
  intros Hr Hw Hne.
  destruct (Stream.from_bytes_prefix l R Hr Hw Hne) as (fuel & ->).
  split.
  - intros HR. apply Headers.loop_turn; [apply Headers.at_end|].
    apply Headers.loop_body_short. exact HR.
  - intros b0 b1 rest -> Hn.
    apply Headers.loop_turn; [apply Headers.at_end|].
    apply Headers.loop_body_overrun. exact Hn.
Qed.

(** X23 at the empty buffer. *)
Lemma truncated_buffer_raises_witness :
  LLDPDU.from_bytes [] = Some (Raise IndexError).
Proof.
  apply (proj1 (truncated_buffer_raises (LLDPDU.mk 0 []) []
                  Inv.reach_new (Forall_nil _) (Forall_nil _))).
  vm_compute. reflexivity.
Defined.

(** ** The agent ([agent.py]) *)

Module Frames.
Import LLDPAgent.

Lemma bytes_eqb_eq a : forall b, bytes_eqb a b = true <-> a = b.
Proof.
  induction a as [|x a IH]; intros [|y b]; cbn [bytes_eqb];
    try (split; [discriminate|discriminate]); [tauto|].
  rewrite andb_true_iff, IH. split.
  - intros [Hx ->]. apply Byte.byte_dec_bl in Hx. congruence.
  - intros [= -> ->]. split; [apply Byte.byte_dec_lb|]; reflexivity.
Qed.

Lemma bytes_eqb_neq a b : a <> b -> bytes_eqb a b = false.
Proof.
  intros H. destruct (bytes_eqb a b) eqn:E; [|reflexivity].
  apply bytes_eqb_eq in E. contradiction.
Qed.


Lemma unpack_6s_at (pre mid post : bytes) off :
  off = len pre -> len mid = 6 ->
  unpack_6s (pre ++ mid ++ post) off = Ok mid.
Proof.
  intros -> Hm. unfold unpack_6s.
  pose proof (len_nonneg pre). pose proof (len_nonneg post).
  destruct (Z.ltb_spec (len (pre ++ mid ++ post)) (len pre + 6)).
  { rewrite !len_app in *. lia. }
  unfold len in *. rewrite Nat2Z.id.
  rewrite skipn_app, skipn_all, Nat.sub_diag. cbn [skipn app].
  rewrite firstn_app. replace (6 - List.length mid)%nat with 0%nat by lia.
  rewrite firstn_all2 by lia. cbn [firstn]. rewrite app_nil_r. reflexivity.
Qed.

(** Where [run] finds the fields of a frame. *)
Lemma fields (dst src ety payload : bytes) :
  len dst = 6 -> len src = 6 -> len ety = 2 ->
  let data := dst ++ src ++ ety ++ payload in
  unpack_6s data 0 = Ok dst /\
  unpack_6s data 6 = Ok src /\
  unpack_from 2 data 12 = Ok (be_value ety) /\
  slice data 14 (len data) = payload.
Proof.
  intros Hd Hs He data. subst data.
  split; [exact (unpack_6s_at [] dst _ 0 eq_refl Hd)|].
  split; [apply (unpack_6s_at dst src); [lia|exact Hs]|].
  split.
  - replace (dst ++ src ++ ety ++ payload)
      with ((dst ++ src) ++ ety ++ payload)
      by (rewrite <- app_assoc; reflexivity).
    apply Layout.unpack_at; [rewrite len_app; lia|].
    unfold len in He. lia.
  - pose proof (len_nonneg payload).
    rewrite slice_to_end by (rewrite !len_app; lia).
    replace (dst ++ src ++ ety ++ payload)
      with ((dst ++ src ++ ety) ++ payload)
      by (rewrite <- !app_assoc; reflexivity).
    rewrite skipn_app.
    assert (El : List.length (dst ++ src ++ ety) = 14%nat)
      by (rewrite !length_app; unfold len in *; lia).
    change (Z.to_nat 14) with 14%nat.
    rewrite <- El at 1. rewrite skipn_all, El. reflexivity.
Qed.

(** Two octets with the value 0x88CC. *)
Lemma ethertype_octets (ety : bytes) :
  len ety = 2 ->
  (be_value ety =? 0x88CC) = true <-> ety = map z2b [0x88; 0xcc].
Proof.
  intros He. rewrite Z.eqb_eq. split.
  - intros Hv. rewrite <- (be_bytes_of_value ety), Hv.
    replace (List.length ety) with 2%nat by (unfold len in He; lia).
    reflexivity.
  - intros ->. reflexivity.
Qed.

(** What a turn adds to the events is never the closing of the socket. *)
Lemma maybe_announce_events self now st oe st' :
  maybe_announce self now st = (oe, st') ->
  exists evs, out st' = out st ++ evs /\ ~ In Closed evs.
Proof.
  unfold maybe_announce.
  destruct (due self now (t_previous st)).
  - destruct (announce self) as [f|e]; intros [= <- <-].
    + exists [Sent f]. split; [reflexivity|].
      cbn [In]. intros [H|[]]. discriminate.
    + exists []. rewrite app_nil_r. auto.
  - intros [= <- <-]. exists []. rewrite app_nil_r. auto.
Qed.

Lemma turn_events self a st oe st' :
  turn self a st = Some (oe, st') ->
  exists evs, out st' = out st ++ evs /\ ~ In Closed evs.
Proof.
  unfold turn. destruct (frame a) as [data|].
  - destruct (receive self data) as [[[msg|l]|e]|]; [| | |discriminate].
    + intros [= <- <-]. exists [Printed msg]. split; [reflexivity|].
      cbn [In]. intros [H|[]]. discriminate.
    + intros [= H]. apply maybe_announce_events in H.
      destruct H as (evs & -> & Hn). cbn [out].
      exists (Logged l :: evs). rewrite <- app_assoc. split; [reflexivity|].
      cbn [In]. intros [H|H]; [discriminate|auto].
    + intros [= <- <-]. exists []. rewrite app_nil_r. auto.
  - intros [= H]. exact (maybe_announce_events _ _ _ _ _ H).
Qed.

Lemma receive_total self data : exists r, receive self data = Some r.
Proof.
  unfold receive.
  destruct (unpack_6s data 0); [|eexists; reflexivity].
  destruct (negb _); [eexists; reflexivity|].
  destruct (unpack_6s data 6); [|eexists; reflexivity].
  destruct (bytes_eqb _ _); [eexists; reflexivity|].
  destruct (unpack_from 2 data 12); [|eexists; reflexivity].
  destruct (negb _); [eexists; reflexivity|].
  destruct (from_bytes_total (slice data 14 (len data))) as ([l|e] & ->);
    eexists; reflexivity.
Qed.

Lemma turn_total self a st : exists r, turn self a st = Some r.
Proof.
  unfold turn. destruct (frame a) as [data|]; [|eexists; reflexivity].
  destruct (receive_total self data) as ([[msg|l]|e] & ->);
    eexists; reflexivity.
Qed.

End Frames.

(** X24.  The three checks of a received frame, in their order: a frame
    whose destination (octets 0 to 5) is none of the LLDP multicast
    addresses, else whose source (octets 6 to 11) is the agent's own
    address, else whose ethertype (octets 12 and 13) is not 0x88CC, is
    skipped with the message of its check.  The turn then ends at once:
    nothing is logged, nothing is announced even when the interval has
    passed, and the time of the last announcement is kept. *)
Theorem filtered_frame_turn
    (self : LLDPAgent.t) (dst src ety payload : bytes)
    (now : float) (st : LLDPAgent.loop_state) :
  len dst = 6 -> len src = 6 -> len ety = 2 ->
  let data := dst ++ src ++ ety ++ payload in
  let skipped msg :=
    LLDPAgent.turn self (LLDPAgent.mkArrival (Some data) now) st =
      Some (None,
            LLDPAgent.mkLoop (LLDPAgent.received st)
              (LLDPAgent.t_previous st)
              (LLDPAgent.out st ++ [LLDPAgent.Printed msg])) in
  (LLDPAgent.lldp_multicast dst = false ->
   skipped "Error: invalid destination address!"%string) /\
  (LLDPAgent.lldp_multicast dst = true ->
   src = LLDPAgent.mac_address self ->
   skipped "Error: message origin is self!"%string) /\
  (LLDPAgent.lldp_multicast dst = true ->
   src <> LLDPAgent.mac_address self ->
   ety <> map z2b [0x88; 0xcc] ->
   skipped "Error: wrong ethertype!"%string).
Proof.
  intros Hd Hs He data skipped. subst skipped. cbv beta.
  destruct (Frames.fields dst src ety payload Hd Hs He)
    as (E0 & E6 & E12 & _).
  fold data in E0, E6, E12.
  unfold LLDPAgent.turn, LLDPAgent.receive. cbn [LLDPAgent.frame].
  rewrite E0, E6, E12.
  split; [|split].
  - intros ->. reflexivity.
  - intros -> ->. cbn [negb].
    rewrite (proj2 (Frames.bytes_eqb_eq _ _) eq_refl). reflexivity.
  - intros -> Hsrc Hety. cbn [negb].
    rewrite (Frames.bytes_eqb_neq _ _ Hsrc).
    destruct (be_value ety =? 0x88CC) eqn:Ev; [|reflexivity].
    apply (Frames.ethertype_octets ety He) in Ev. contradiction.
Qed.

(** X24 at the agent of scenario S1 and its own announcement coming
    back, at a time when an announcement is due. *)
Lemma filtered_frame_turn_witness :
  LLDPAgent.turn Scenario.agent
    (LLDPAgent.mkArrival
       (Some (LLDPAgent.dst_addr ++ Scenario.local_mac
              ++ map z2b [0x88; 0xcc] ++ Scenario.payload))
       (float_of_int 5))
    (LLDPAgent.mkLoop false (float_of_int 0) []) =
  Some (None,
        LLDPAgent.mkLoop false (float_of_int 0)
          [LLDPAgent.Printed "Error: message origin is self!"%string]).
Proof.
  apply (proj1 (proj2 (filtered_frame_turn Scenario.agent
                         LLDPAgent.dst_addr Scenario.local_mac
                         (map z2b [0x88; 0xcc]) Scenario.payload
                         (float_of_int 5)
                         (LLDPAgent.mkLoop false (float_of_int 0) [])
                         eq_refl eq_refl eq_refl)));
    reflexivity.
Defined.



Lemma run_loop_closes self run_once arrivals : forall st,
  ~ In LLDPAgent.Closed (LLDPAgent.out st) ->
  exists e pre,
    LLDPAgent.run_loop self run_once arrivals st =
      Some (e, pre ++ [LLDPAgent.Closed]) /\
    ~ In LLDPAgent.Closed pre.
Proof.
  induction arrivals as [|a rest IH]; intros st Hst; cbn [LLDPAgent.run_loop].
  - destruct (negb run_once || negb (LLDPAgent.received st)); eauto.
  - destruct (negb run_once || negb (LLDPAgent.received st)); [|eauto].
    destruct (Frames.turn_total self a st) as ([oe st'] & Et). rewrite Et.
    destruct (Frames.turn_events _ _ _ _ _ Et) as (evs & Eo & Hn).
    assert (Hst' : ~ In LLDPAgent.Closed (LLDPAgent.out st')).
    { rewrite Eo. intros H. apply in_app_or in H. tauto. }
    destruct oe as [e|]; [eauto|]. apply IH. exact Hst'.
Qed.

(** X26.  Every run ends by closing the socket, whatever arrives and
    however the loop is left (loop test, interrupt or an exception that
    escapes): the closing is the last thing the run does, and it happens
    exactly once. *)
Theorem run_closes_socket
    (self : LLDPAgent.t) (run_once : bool) (t_start : float)
    (arrivals : list LLDPAgent.arrival) :
  exists e pre,
    LLDPAgent.run self run_once t_start arrivals =
      Some (e, pre ++ [LLDPAgent.Closed]) /\
    ~ In LLDPAgent.Closed pre.
Proof.
  unfold LLDPAgent.run. apply run_loop_closes. cbn [LLDPAgent.out In]. tauto.
Qed.



Lemma maybe_announce_fails self now st e :
  LLDPAgent.announce self = Raise e ->
  LLDPAgent.maybe_announce self now st =
    if LLDPAgent.due self now (LLDPAgent.t_previous st)
    then (Some e, st) else (None, st).
Proof.
  intros Ha. unfold LLDPAgent.maybe_announce. rewrite Ha. reflexivity.
Qed.

(** An agent that cannot announce sends nothing in a turn. *)
Lemma turn_sends_nothing self a st e oe st' :
  LLDPAgent.announce self = Raise e ->
  LLDPAgent.turn self a st = Some (oe, st') ->
  exists evs, LLDPAgent.out st' = LLDPAgent.out st ++ evs /\
              forall f, ~ In (LLDPAgent.Sent f) evs.
Proof.
  intros Ha. unfold LLDPAgent.turn.
  assert (N1 : forall ev f, ev <> LLDPAgent.Sent f ->
                 ~ In (LLDPAgent.Sent f) [ev])
    by (intros ev f Hne [H|[]]; congruence).
  destruct (LLDPAgent.frame a) as [data|].
  - destruct (LLDPAgent.receive self data) as [[[msg|l]|e']|];
      [| | |discriminate].
    + intros [= <- <-]. exists [LLDPAgent.Printed msg].
      split; [reflexivity|]. intros f. apply N1. discriminate.
    + rewrite (maybe_announce_fails _ _ _ _ Ha).
      cbn [LLDPAgent.t_previous].
      destruct (LLDPAgent.due self _ _); intros [= <- <-];
        exists [LLDPAgent.Logged l];
        (split; [reflexivity|]); intros f; apply N1; discriminate.
    + intros [= <- <-]. exists []. rewrite app_nil_r. auto.
  - rewrite (maybe_announce_fails _ _ _ _ Ha).
    destruct (LLDPAgent.due self _ _); intros [= <- <-];
      exists []; rewrite app_nil_r; auto.
Qed.

Lemma run_loop_sends_nothing self run_once e arrivals : forall st r evs,
  LLDPAgent.announce self = Raise e ->
  (forall f, ~ In (LLDPAgent.Sent f) (LLDPAgent.out st)) ->
  LLDPAgent.run_loop self run_once arrivals st = Some (r, evs) ->
  forall f, ~ In (LLDPAgent.Sent f) evs.
Proof.
  assert (Hend : forall pre f,
             (forall f, ~ In (LLDPAgent.Sent f) pre) ->
             ~ In (LLDPAgent.Sent f) (pre ++ [LLDPAgent.Closed])).
  { intros pre f Hp Hin. apply in_app_or in Hin.
    destruct Hin as [Hin|[Hin|[]]]; [exact (Hp f Hin)|discriminate]. }
  induction arrivals as [|a rest IH]; intros st r evs Ha Hst;
    cbn [LLDPAgent.run_loop].
  - destruct (negb run_once || negb (LLDPAgent.received st));
      intros [= _ <-] f; apply Hend; exact Hst.
  - destruct (negb run_once || negb (LLDPAgent.received st)).
    2:{ intros [= _ <-] f. apply Hend. exact Hst. }
    destruct (LLDPAgent.turn self a st) as [[oe st']|] eqn:Et;
      [|discriminate].
    destruct (turn_sends_nothing _ _ _ _ _ _ Ha Et) as (new & Eo & Hn).
    assert (Hst' : forall f, ~ In (LLDPAgent.Sent f) (LLDPAgent.out st')).
    { intros f Hin. rewrite Eo in Hin. apply in_app_or in Hin.
      destruct Hin as [Hin|Hin]; [exact (Hst f Hin)|exact (Hn f Hin)]. }
    destruct oe as [e'|].
    + intros [= _ <-] f. apply Hend. exact Hst'.
    + apply IH; assumption.
Qed.

(** X28.  An agent whose MAC address has not exactly six octets cannot
    announce: [announce] raises [ValueError] before anything is handed to
    the socket, so that no run of this agent, whatever arrives and
    whenever, sends a frame; and a turn of the loop without a frame in
    which the clock test [t_now - t_previous > interval] holds ends the
    run with that [ValueError], the socket closed. *)
Theorem announce_needs_six_octet_mac (self : LLDPAgent.t) :
  len (LLDPAgent.mac_address self) <> 6 ->
  LLDPAgent.announce self = Raise ValueError /\
  (forall run_once t_start arrivals r evs f,
      LLDPAgent.run self run_once t_start arrivals = Some (r, evs) ->
      ~ In (LLDPAgent.Sent f) evs) /\
  (forall run_once now rest st,
      negb run_once || negb (LLDPAgent.received st) = true ->
      LLDPAgent.due self now (LLDPAgent.t_previous st) = true ->
      LLDPAgent.run_loop self run_once
        (LLDPAgent.mkArrival None now :: rest) st =
        Some (LLDPAgent.Escaped ValueError,
              LLDPAgent.out st ++ [LLDPAgent.Closed])).
Proof.
  intros Hm.
  assert (Ea : LLDPAgent.announce self = Raise ValueError).
  { unfold LLDPAgent.announce, LLDPAgent.announce_lldpdu.
    rewrite chassis_mac_init.
    destruct (Z.eqb_spec (len (LLDPAgent.mac_address self)) 6);
      [contradiction|reflexivity]. }
  split; [exact Ea|]. split.
  - intros run_once t_start arrivals r evs f Hrun Hin.
    unfold LLDPAgent.run in Hrun.
    refine (run_loop_sends_nothing _ _ _ _ _ _ _ Ea _ Hrun f Hin).
    intros f' [].
  - intros run_once now rest st Hc Hdue.
    cbn [LLDPAgent.run_loop]. rewrite Hc.
    unfold LLDPAgent.turn. cbn [LLDPAgent.frame LLDPAgent.t_now].
    rewrite (maybe_announce_fails _ _ _ _ Ea), Hdue. reflexivity.
Qed.

(** X28 at an agent with a MAC address of five octets, in the first turn
    of a run, two seconds after its start. *)
Lemma announce_needs_six_octet_mac_witness :
  LLDPAgent.run
    (LLDPAgent.mk (map z2b [0x02; 0x04; 0xdf; 0x88; 0xa2]) Scenario.eth0
                  (float_of_int 1))
    false (float_of_int 0) [LLDPAgent.mkArrival None (float_of_int 2)] =
  Some (LLDPAgent.Escaped ValueError, [LLDPAgent.Closed]).
Proof.
  apply (proj2 (proj2 (announce_needs_six_octet_mac
                  (LLDPAgent.mk (map z2b [0x02; 0x04; 0xdf; 0x88; 0xa2])
                                Scenario.eth0 (float_of_int 1))
                  ltac:(vm_compute; discriminate)))
           false (float_of_int 2) []
           (LLDPAgent.mkLoop false (float_of_int 0) [])).
  - reflexivity.
  - vm_compute. reflexivity.
Defined.

(** The clock test is made on floats: with the readings 0.1 and 1.1 and
    the interval 1.0 the difference is rounded to 1.0, which is not
    greater than the interval, so no announcement is due; a reading of
    1.2 makes one due. *)
Example due_is_rounded :
  LLDPAgent.due Scenario.agent
    (SpecFloat.S754_finite false 0x1199999999999a%positive (-52))
    (SpecFloat.S754_finite false 0x1999999999999a%positive (-56)) = false /\
  LLDPAgent.due Scenario.agent
    (SpecFloat.S754_finite false 0x13333333333333%positive (-52))
    (SpecFloat.S754_finite false 0x1999999999999a%positive (-56)) = true.
Proof. split; vm_compute; reflexivity. Qed.






Module Announced.
Import LLDPAgent.



End Announced.


